(** * Gnosara instant messaging: queue, extraction and delivery tracking

    A shallow embedding of the parts of the repository that carry state and
    invariants, and the properties its design document states about them:

    - [improved_summarize_two_video_batch.py]: extraction of JSON records
      from generated text, their mechanical repair, the validator and the
      corrective re-generation call;
    - [summary_queue.py]: the summary queue and its status store;
    - [queue_manager_module.py]: the pending list;
    - [post_scheduler_integration.py]: the delivery cycle.

    Conventions.  A Python [str] is represented by the [string] holding its
    UTF-8 encoding: every character the code inspects (braces, commas,
    underscores, the sentinel, JSON syntax) is a 7-bit character, and no
    byte of a longer UTF-8 sequence is one.  A file that the code only ever
    reads through [json.loads] is represented by the decoded value, with a
    separate case for text that does not decode.  Logging and the writes of
    debugging copies have no effect on the modelled state and are left out;
    writes to disk are taken to succeed. *)

From Stdlib Require Import String Ascii NArith ZArith List Bool Lia.
From stdpp Require Import base option list gmap strings.
From Equations Require Import Equations.
Import ListNotations.
Open Scope string_scope.
Open Scope list_scope.

(** ** Python strings *)

Module Py.

Definition code (c : ascii) : N := N_of_ascii c.

Definition chr (n : N) : ascii := ascii_of_N n.

Definition byte (c : ascii) (n : N) : bool := N.eqb (code c) n.

Definition between (lo hi : N) (c : ascii) : bool :=
  N.leb lo (code c) && N.leb (code c) hi.

(** The double quote, code 34. *)
Definition dquote : ascii := chr 34.

(** [q s] is [s] with every apostrophe replaced by a double quote; it is
    used to write JSON text in examples. *)
Fixpoint q (s : string) : string :=
  match s with
  | EmptyString => EmptyString
  | String c r => String (if byte c 39 then dquote else c) (q r)
  end.

Fixpoint rev_append (s acc : string) : string :=
  match s with
  | EmptyString => acc
  | String c r => rev_append r (String c acc)
  end.

Definition rev (s : string) : string := rev_append s EmptyString.

Fixpoint startswith (p s : string) : bool :=
  match p, s with
  | EmptyString, _ => true
  | String a p', String b s' => Ascii.eqb a b && startswith p' s'
  | String _ _, EmptyString => false
  end.

(** [sub in s]: substring test. *)
Fixpoint contains (sub s : string) : bool :=
  startswith sub s ||
  match s with
  | EmptyString => false
  | String _ r => contains sub r
  end.

(** [str.split(sep)] for a non-empty separator: leftmost, non-overlapping
    occurrences.  [skip] counts the characters of a matched separator that
    are still to be passed over; [cur] is the current piece, reversed. *)
Fixpoint split_aux (sep : string) (skip : nat) (cur : string) (s : string)
  : list string :=
  match s with
  | EmptyString => [rev cur]
  | String c r =>
      match skip with
      | S k => split_aux sep k cur r
      | O =>
          if startswith sep s
          then rev cur :: split_aux sep (String.length sep - 1) EmptyString r
          else split_aux sep 0 (String c cur) r
      end
  end.

Definition split (sep s : string) : list string :=
  split_aux sep 0 EmptyString s.

(** Characters for which [str.isspace()] holds, which are also the ones the
    regular expression class [\s] matches on a [str] pattern: U+0009-000D,
    U+001C-0020, U+0085, U+00A0, U+1680, U+2000-200A, U+2028, U+2029,
    U+202F, U+205F, U+3000.  [space1], [space2] and [space3] recognise the
    ones encoded on one, two and three bytes. *)
Definition space1 (c : ascii) : bool :=
  between 9 13 c || between 28 32 c.

Definition space2 (a b : ascii) : bool :=
  byte a 194 && (byte b 133 || byte b 160).

Definition space3 (a b c : ascii) : bool :=
  (byte a 225 && byte b 154 && byte c 128)
  || (byte a 226 && byte b 128 &&
        (between 128 138 c || byte c 168 || byte c 169 || byte c 175))
  || (byte a 226 && byte b 129 && byte c 159)
  || (byte a 227 && byte b 128 && byte c 128).

(** [lstrip]: drop the leading white space. *)
Fixpoint lstrip (s : string) : string :=
  match s with
  | EmptyString => EmptyString
  | String a r =>
      if space1 a then lstrip r
      else match r with
           | String b r' =>
               if space2 a b then lstrip r'
               else match r' with
                    | String c r'' => if space3 a b c then lstrip r'' else s
                    | EmptyString => s
                    end
           | EmptyString => s
           end
  end.

(** The same on the reversed text, where the bytes of a character come in
    reverse order; a lead byte always starts a character, so a suffix that
    spells a white space character is one. *)
Fixpoint lstrip_rev (s : string) : string :=
  match s with
  | EmptyString => EmptyString
  | String a r =>
      if space1 a then lstrip_rev r
      else match r with
           | String b r' =>
               if space2 b a then lstrip_rev r'
               else match r' with
                    | String c r'' =>
                        if space3 c b a then lstrip_rev r'' else s
                    | EmptyString => s
                    end
           | EmptyString => s
           end
  end.

Definition rstrip (s : string) : string := rev (lstrip_rev (rev s)).

Definition strip (s : string) : string := rstrip (lstrip s).

(** [c.isalnum()] on the 7-bit characters.  Python also accepts letters and
    digits beyond them; the only use below is the channel part of an
    artifact's file name, whose content no statement depends on. *)
Definition isalnum (c : ascii) : bool :=
  between 48 57 c || between 65 90 c || between 97 122 c.

Fixpoint map_chars (f : ascii -> ascii) (s : string) : string :=
  match s with
  | EmptyString => EmptyString
  | String c r => String (f c) (map_chars f r)
  end.

(** ** Dictionaries that keep insertion order

    A Python [dict] whose iteration order is observed is an association
    list without repeated keys: assignment replaces the value of a present
    key in place and appends an absent one. *)

Definition dict (V : Type) : Type := list (string * V).

Fixpoint get {V} (k : string) (d : dict V) : option V :=
  match d with
  | [] => None
  | (k', v) :: d' => if String.eqb k k' then Some v else get k d'
  end.

Definition has {V} (k : string) (d : dict V) : bool :=
  match get k d with Some _ => true | None => false end.

Fixpoint setitem {V} (k : string) (v : V) (d : dict V) : dict V :=
  match d with
  | [] => [(k, v)]
  | (k', v') :: d' =>
      if String.eqb k k' then (k, v) :: d' else (k', v') :: setitem k v d'
  end.

Definition keys {V} (d : dict V) : list string := map fst d.

Definition values {V} (d : dict V) : list V := map snd d.

(** [x in l] for a list of strings. *)
Definition mem (x : string) (l : list string) : bool :=
  existsb (String.eqb x) l.

(** [list(set(l))]: the distinct elements of [l], in an order the language
    does not fix. *)
Definition list_set (l : list string) : list string :=
  elements (list_to_set l : gset string).

End Py.

(** ** JSON values and [json.loads]

    A number keeps its literal text (the code never computes with one).  An
    object is a dictionary in insertion order.  [loads] follows the decoder
    of CPython's [json] module in its default, strict mode; [None] stands
    for [JSONDecodeError].  The interpreter's recursion limit on deeply
    nested text is not modelled. *)

Module Json.

#[local] Unset Elimination Schemes.

Inductive json : Type :=
| JNull
| JBool (b : bool)
| JNumber (literal : string)
| JString (s : string)
| JArray (items : list json)
| JObject (members : Py.dict json).

#[local] Set Elimination Schemes.

(** White space of the JSON grammar: space, tab, line feed, carriage
    return. *)
Definition ws (c : ascii) : bool :=
  Py.byte c 32 || Py.byte c 9 || Py.byte c 10 || Py.byte c 13.

Fixpoint skip_ws (s : string) : string :=
  match s with
  | String c r => if ws c then skip_ws r else s
  | EmptyString => EmptyString
  end.

Definition digit (c : ascii) : bool := Py.between 48 57 c.

(** The longest prefix of digits, and what follows it. *)
Fixpoint digits (s : string) : string * string :=
  match s with
  | String c r =>
      if digit c then let '(d, r') := digits r in (String c d, r')
      else (EmptyString, s)
  | EmptyString => (EmptyString, EmptyString)
  end.

Definition hexval (c : ascii) : option N :=
  if digit c then Some (Py.code c - 48)%N
  else if Py.between 97 102 c then Some (Py.code c - 87)%N
  else if Py.between 65 70 c then Some (Py.code c - 55)%N
  else None.

Definition hex4 (a b c d : ascii) : option N :=
  match hexval a, hexval b, hexval c, hexval d with
  | Some x, Some y, Some z, Some w => Some (((x * 16 + y) * 16 + z) * 16 + w)%N
  | _, _, _, _ => None
  end.

(** UTF-8 encoding of a code point, prepended to [rest]. *)
Definition utf8 (cp : N) (rest : string) : string :=
  let cont (n : N) := Py.chr (128 + n mod 64) in
  if N.ltb cp 128 then String (Py.chr cp) rest
  else if N.ltb cp 2048 then
    String (Py.chr (192 + cp / 64)) (String (cont cp) rest)
  else if N.ltb cp 65536 then
    String (Py.chr (224 + cp / 4096))
      (String (cont (cp / 64)%N) (String (cont cp) rest))
  else
    String (Py.chr (240 + cp / 262144))
      (String (cont (cp / 4096)%N)
         (String (cont (cp / 64)%N) (String (cont cp) rest))).

(** The character a one-letter escape denotes. *)
Definition simple_escape (e : ascii) : option ascii :=
  if Py.byte e 34 || Py.byte e 92 || Py.byte e 47 then Some e
  else if Py.byte e 98 then Some (Py.chr 8)
  else if Py.byte e 102 then Some (Py.chr 12)
  else if Py.byte e 110 then Some (Py.chr 10)
  else if Py.byte e 114 then Some (Py.chr 13)
  else if Py.byte e 116 then Some (Py.chr 9)
  else None.

Definition high_surrogate (cp : N) : bool :=
  N.leb 55296 cp && N.leb cp 56319.

Definition low_surrogate (cp : N) : bool :=
  N.leb 56320 cp && N.leb cp 57343.

(** [scan_string s]: [s] is the text after an opening quote; the decoded
    content up to the closing quote and the text after it.  Control
    characters are refused, as are unknown escapes; a high surrogate escape
    directly followed by a low one denotes a single code point. *)
Fixpoint scan_string (s : string) : option (string * string) :=
  match s with
  | EmptyString => None
  | String c r =>
      if Py.byte c 34 then Some (EmptyString, r)
      else if Py.byte c 92 then
        match r with
        | EmptyString => None
        | String e r1 =>
            if Py.byte e 117 then
              match r1 with
              | String h1 (String h2 (String h3 (String h4 r2))) =>
                  match hex4 h1 h2 h3 h4 with
                  | None => None
                  | Some cp =>
                      let single :=
                        match scan_string r2 with
                        | Some (str, rest) => Some (utf8 cp str, rest)
                        | None => None
                        end in
                      if high_surrogate cp then
                        match r2 with
                        | String b (String u (String l1 (String l2
                            (String l3 (String l4 r3))))) =>
                            if Py.byte b 92 && Py.byte u 117 then
                              match hex4 l1 l2 l3 l4 with
                              | Some lo =>
                                  if low_surrogate lo then
                                    match scan_string r3 with
                                    | Some (str, rest) =>
                                        Some (utf8 (65536 + (cp - 55296) * 1024
                                                     + (lo - 56320)) str, rest)
                                    | None => None
                                    end
                                  else single
                              | None => None
                              end
                            else single
                        | _ => single
                        end
                      else single
                  end
              | _ => None
              end
            else
              match simple_escape e with
              | Some x =>
                  match scan_string r1 with
                  | Some (str, rest) => Some (String x str, rest)
                  | None => None
                  end
              | None => None
              end
        end
      else if N.ltb (Py.code c) 32 then None
      else
        match scan_string r with
        | Some (str, rest) => Some (String c str, rest)
        | None => None
        end
  end.

(** A number at the head of [s], as the decoder matches it: an optional
    minus sign, then a single zero or a non-zero digit followed by digits;
    then, if present, a point followed by at least one digit; then, if
    present, an exponent mark, an optional sign and at least one digit.
    The literal and the text after it. *)
Definition scan_int (s : string) : option (string * string) :=
  match s with
  | String c r =>
      if Py.byte c 48 then Some (String c EmptyString, r)
      else if digit c then let '(d, r') := digits r in Some (String c d, r')
      else None
  | EmptyString => None
  end.

Definition scan_frac (s : string) : string * string :=
  match s with
  | String c r =>
      if Py.byte c 46 then
        match digits r with
        | (String _ _ as d, r') => (String c d, r')
        | (EmptyString, _) => (EmptyString, s)
        end
      else (EmptyString, s)
  | EmptyString => (EmptyString, s)
  end.

Definition scan_exp (s : string) : string * string :=
  match s with
  | String c r =>
      if Py.byte c 101 || Py.byte c 69 then
        let '(sign, r1) :=
          match r with
          | String g r' =>
              if Py.byte g 43 || Py.byte g 45
              then (String g EmptyString, r') else (EmptyString, r)
          | EmptyString => (EmptyString, r)
          end in
        match digits r1 with
        | (String _ _ as d, r') => (String c (sign +:+ d), r')
        | (EmptyString, _) => (EmptyString, s)
        end
      else (EmptyString, s)
  | EmptyString => (EmptyString, s)
  end.

Definition scan_number (s : string) : option (string * string) :=
  let '(sign, r0) :=
    match s with
    | String c r =>
        if Py.byte c 45 then (String c EmptyString, r) else (EmptyString, s)
    | EmptyString => (EmptyString, s)
    end in
  match scan_int r0 with
  | Some (i, r1) =>
      let '(f, r2) := scan_frac r1 in
      let '(e, r3) := scan_exp r2 in
      Some (sign +:+ i +:+ f +:+ e, r3)
  | None => None
  end.

Fixpoint drop (n : nat) (s : string) : string :=
  match n, s with
  | S k, String _ r => drop k r
  | _, _ => s
  end.

(** A literal at the head of [s]: [null], [true], [false], the non-standard
    [NaN], [Infinity] and [-Infinity] the decoder accepts, or a number. *)
Definition scan_literal (s : string) : option (json * string) :=
  let word (w : string) (v : json) :=
    if Py.startswith w s then Some (v, drop (String.length w) s) else None in
  match word "null" JNull with Some x => Some x | None =>
  match word "true" (JBool true) with Some x => Some x | None =>
  match word "false" (JBool false) with Some x => Some x | None =>
  match word "NaN" (JNumber "NaN") with Some x => Some x | None =>
  match word "Infinity" (JNumber "Infinity") with Some x => Some x | None =>
  match word "-Infinity" (JNumber "-Infinity") with Some x => Some x | None =>
  match scan_number s with
  | Some (n, r) => Some (JNumber n, r)
  | None => None
  end end end end end end end.

(** What the decoder is reading: a value; the members of an object, after
    the ones in [acc], the text standing at a key; the items of an array,
    after the ones in [acc], the text standing at a value. *)
Inductive mode : Type :=
| Value
| Members (acc : Py.dict json)
| Items (acc : list json).

Fixpoint parse (fuel : nat) (m : mode) (s : string) : option (json * string) :=
  match fuel with
  | O => None
  | S n =>
      match m with
      | Value =>
          match s with
          | EmptyString => None
          | String c r =>
              if Py.byte c 34 then
                match scan_string r with
                | Some (str, r') => Some (JString str, r')
                | None => None
                end
              else if Py.byte c 123 then
                match skip_ws r with
                | String c1 r2 as r1 =>
                    if Py.byte c1 125 then Some (JObject [], r2)
                    else parse n (Members []) r1
                | EmptyString => None
                end
              else if Py.byte c 91 then
                match skip_ws r with
                | String c1 r2 as r1 =>
                    if Py.byte c1 93 then Some (JArray [], r2)
                    else parse n (Items []) r1
                | EmptyString => None
                end
              else scan_literal s
          end
      | Members acc =>
          match s with
          | EmptyString => None
          | String c r =>
              if Py.byte c 34 then
                match scan_string r with
                | None => None
                | Some (k, r1) =>
                    match skip_ws r1 with
                    | EmptyString => None
                    | String c2 r2 =>
                        if Py.byte c2 58 then
                          match parse n Value (skip_ws r2) with
                          | None => None
                          | Some (v, r3) =>
                              let acc' := Py.setitem k v acc in
                              match skip_ws r3 with
                              | EmptyString => None
                              | String c4 r4 =>
                                  if Py.byte c4 125 then Some (JObject acc', r4)
                                  else if Py.byte c4 44
                                  then parse n (Members acc') (skip_ws r4)
                                  else None
                              end
                          end
                        else None
                    end
                end
              else None
          end
      | Items acc =>
          match parse n Value s with
          | None => None
          | Some (v, r1) =>
              match skip_ws r1 with
              | EmptyString => None
              | String c r2 =>
                  if Py.byte c 93 then Some (JArray (acc ++ [v]), r2)
                  else if Py.byte c 44
                  then parse n (Items (acc ++ [v])) (skip_ws r2)
                  else None
              end
          end
      end
  end.

(** Fuel that no text exhausts: every call of [parse] on a value or on
    members follows the reading of a character, and a call on items is
    followed by one on a value at the same place. *)
Definition enough (s : string) : nat := 2 + 2 * String.length s.

(** [json.loads(s)]: one value, with white space around it and nothing
    else. *)
Definition loads (s : string) : option json :=
  let s0 := skip_ws s in
  match parse (enough s0) Value s0 with
  | Some (v, r) =>
      match skip_ws r with
      | EmptyString => Some v
      | String _ _ => None
      end
  | None => None
  end.

(** The decoder runs within the limits of its interpreter: on a text whose
    arrays and objects nest deeper than the stack allows it raises
    [RecursionError], and on an integer literal of more digits than the
    interpreter converts, [ValueError]; neither is a [JSONDecodeError].
    The limits are those of the interpreter and of the moment of the call:
    they are given as the texts on which [json.loads] raises such an
    exception, and nothing is assumed about them. *)
Definition Limits : Type := string -> bool.

(** What [json.loads(s)] comes back with. *)
Inductive Decoding : Type :=
| Decoded (value : json)
| DecodeError
| LimitError.

Definition decode (exceeds : Limits) (s : string) : Decoding :=
  if exceeds s then LimitError
  else
    match loads s with
    | Some value => Decoded value
    | None => DecodeError
    end.

(** An interpreter with room for every text of at most [n] bytes. *)
Definition roomy (n : nat) : Limits :=
  fun s => Nat.ltb n (String.length s).

End Json.

Import Json.

(** ** Items

    A queue item as the code receives it: a dictionary, whose [id] entry,
    when present, is a string (the identifier the video platform gives),
    kept apart from the other entries. *)

Record Video : Type := mkVideo {
  v_id : option string;
  v_fields : Py.dict json
}.

(** ** Extraction and repair ([improved_summarize_two_video_batch.py]) *)

Module Summarizer.

Definition MAX_RETRIES : nat := 3.
Definition RETRY_DELAY : nat := 5.

Definition REQUIRED_FIELDS : list string :=
  ["essence"; "top_takeaways"; "game_changing_ideas"; "things_you_can_do";
   "why_this_matters"].

Definition SENTINEL : string := "--- END OF SUMMARY ---".

(** [re.sub] for a pattern that matches no empty text: [match_at s] is the
    length of the match at the head of [s] and its replacement.  The text
    is scanned from the left; a match is replaced and the scan goes on
    after it ([skip] counts its characters still to pass over). *)
Fixpoint re_sub (match_at : string -> option (nat * string)) (skip : nat)
    (s : string) : string :=
  match s with
  | EmptyString => EmptyString
  | String c r =>
      match skip with
      | S k => re_sub match_at k r
      | O =>
          match match_at s with
          | Some (len, replacement) =>
              replacement +:+ re_sub match_at (len - 1) r
          | None => String c (re_sub match_at 0 r)
          end
      end
  end.

(** A comma, white space, then [close]: the patterns [,\s*]] and [,\s*}],
    replaced by [close] alone. *)
Definition trailing_comma (close : ascii) (s : string)
  : option (nat * string) :=
  match s with
  | String c r =>
      if Py.byte c 44 then
        match Py.lstrip r with
        | String d r' =>
            if Ascii.eqb d close
            then Some (String.length s - String.length r',
                       String close EmptyString)
            else None
        | EmptyString => None
        end
      else None
  | EmptyString => None
  end.

Definition word_char (c : ascii) : bool := Py.isalnum c || Py.byte c 95.

(** The longest prefix in [[a-zA-Z0-9_]], and what follows it. *)
Fixpoint word (s : string) : string * string :=
  match s with
  | String c r =>
      if word_char c then let '(w, r') := word r in (String c w, r')
      else (EmptyString, s)
  | EmptyString => (EmptyString, EmptyString)
  end.

(** An opening brace or a comma, white space, a bare word, white space and
    a colon: the pattern [([{,])\s*([a-zA-Z0-9_]+)\s*:], replaced by the
    first character, the word between double quotes, and a colon.  The
    three classes share no character, so the greedy match is the only
    one. *)
Definition bare_key (s : string) : option (nat * string) :=
  match s with
  | String c r =>
      if Py.byte c 123 || Py.byte c 44 then
        match word (Py.lstrip r) with
        | (String _ _ as w, r2) =>
            match Py.lstrip r2 with
            | String d r3 =>
                if Py.byte d 58
                then Some (String.length s - String.length r3,
                           String c (String Py.dquote
                             (w +:+ String Py.dquote ":")))
                else None
            | EmptyString => None
            end
        | (EmptyString, _) => None
        end
      else None
  | EmptyString => None
  end.

Definition fix_common_json_errors (json_str : string) : string :=
  let json_str := re_sub (trailing_comma "]") 0 json_str in
  let json_str := re_sub (trailing_comma "}") 0 json_str in
  let json_str := re_sub bare_key 0 json_str in
  json_str.

(** The state of a brace scan. *)
Record Scan : Type := mkScan {
  current : string;
  brace_count : Z;
  in_object : bool;
  results : list json
}.

(** [try: results.append(json.loads(text)) except json.JSONDecodeError]:
    the handler catches the decoding error alone; another exception of the
    decoder leaves the function that scans ([None]). *)
Definition append_parsed (exceeds : Limits) (text : string)
    (results : list json) : option (list json) :=
  match decode exceeds text with
  | Decoded obj => Some (results ++ [obj])
  | DecodeError => Some results
  | LimitError => None
  end.

Definition push (s : string) (c : ascii) : string :=
  s +:+ String c EmptyString.

(** One turn of the loop of [parse_robust_json]. *)
Definition robust_step (exceeds : Limits) (st : Scan) (char : ascii)
  : option Scan :=
  let st1 :=
    if Py.byte char 123 then
      let st0 :=
        if Z.eqb (brace_count st) 0
        then mkScan EmptyString (brace_count st) true (results st)
        else st in
      mkScan (current st0) (brace_count st0 + 1) (in_object st0) (results st0)
    else st in
  let st2 :=
    if in_object st1
    then mkScan (push (current st1) char) (brace_count st1) true (results st1)
    else st1 in
  if Py.byte char 125 then
    let n := (brace_count st2 - 1)%Z in
    if Z.eqb n 0 && in_object st2
    then
      results ← append_parsed exceeds (fix_common_json_errors (current st2))
                  (results st2);
      Some (mkScan EmptyString n false results)
    else Some (mkScan (current st2) n (in_object st2) (results st2))
  else Some st2.

(** [for char in text], until a turn raises. *)
Fixpoint scan_with (step : Scan -> ascii -> option Scan) (text : string)
    (st : Scan) : option Scan :=
  match text with
  | EmptyString => Some st
  | String char rest => st' ← step st char; scan_with step rest st'
  end.

Definition parse_robust_json (exceeds : Limits) (text : string)
  : option (list json) :=
  results <$> scan_with (robust_step exceeds) text
                (mkScan EmptyString 0 false []).

(** One turn of the brace-count loop of [extract_json_objects]. *)
Definition brace_step (exceeds : Limits) (st : Scan) (char : ascii)
  : option Scan :=
  if Py.byte char 123 && negb (in_object st) then
    Some (mkScan (String char EmptyString) 1 true (results st))
  else if in_object st then
    let cur := push (current st) char in
    if Py.byte char 123 then
      Some (mkScan cur (brace_count st + 1) true (results st))
    else if Py.byte char 125 then
      let n := (brace_count st - 1)%Z in
      if Z.eqb n 0
      then
        results ← append_parsed exceeds cur (results st);
        Some (mkScan EmptyString n false results)
      else Some (mkScan cur n true (results st))
    else Some (mkScan cur (brace_count st) true (results st))
  else Some st.

(** The loop over the parts the sentinel separates. *)
Fixpoint delimiter_loop (exceeds : Limits) (parts : list string)
    (results : list json) : option (list json) :=
  match parts with
  | [] => Some results
  | part :: rest =>
      let cleaned := Py.strip part in
      match cleaned with
      | EmptyString => delimiter_loop exceeds rest results
      | String _ _ =>
          results ← append_parsed exceeds cleaned results;
          delimiter_loop exceeds rest results
      end
  end.

(** [extract_json_objects(text)]; [None] when the decoder raises an
    exception that no handler of the function catches. *)
Definition extract_json_objects (exceeds : Limits) (text : string)
  : option (list json) :=
  by_delimiter ←
    (if Py.contains SENTINEL text
     then delimiter_loop exceeds (Py.split SENTINEL text) []
     else Some []);
  match by_delimiter with
  | _ :: _ => Some by_delimiter
  | [] =>
      st ← scan_with (brace_step exceeds) text (mkScan EmptyString 0 false []);
      match results st with
      | [] => parse_robust_json exceeds text
      | _ :: _ => Some (results st)
      end
  end.

(** [obj[video_url] = ...] for the candidates that face an item of the
    batch with a non-empty id; a candidate that is not a dictionary does
    not support the assignment ([None]: the [TypeError] that sends
    [summarize_batch] to its retry). *)
Definition video_url (video_id : string) : json :=
  JString ("https://www.youtube.com/watch?v=" +:+ video_id).

Fixpoint add_video_urls (batch : list Video) (json_objects : list json)
  : option (list json) :=
  match json_objects, batch with
  | [], _ => Some []
  | _ :: _, [] => Some json_objects
  | obj :: objs, video :: videos =>
      rest ← add_video_urls videos objs;
      match v_id video with
      | Some (String _ _ as video_id) =>
          match obj with
          | JObject d =>
              Some (JObject (Py.setitem "video_url" (video_url video_id) d)
                      :: rest)
          | _ => None
          end
      | _ => Some (obj :: rest)
      end
  end.

(** The candidates [summarize_batch] holds for [raw_text] when it reaches
    its corrective call: those of [extract_json_objects], or those of
    [parse_robust_json] when the count is not the batch's and the second
    scan finds more.  [None] is an exception, which sends
    [summarize_batch] to its retry. *)
Definition extract_candidates (exceeds : Limits) (batch : list Video)
    (raw_text : string) : option (list json) :=
  extracted ← extract_json_objects exceeds raw_text;
  json_objects ← add_video_urls batch extracted;
  if Nat.eqb (length json_objects) (length batch) then Some json_objects
  else
    fallback ← parse_robust_json exceeds raw_text;
    if Nat.ltb (length json_objects) (length fallback)
    then add_video_urls batch fallback
    else Some json_objects.

(** The top-level balanced spans of a text, as a brace-depth scan delimits
    them: [current] is the span being read, [depth] its nesting. *)
Fixpoint spans_from (text : string) (current : option string) (depth : nat)
  : list string :=
  match text with
  | EmptyString => []
  | String c rest =>
      match current with
      | None =>
          if Py.byte c 123
          then spans_from rest (Some (String c EmptyString)) 1
          else spans_from rest None 0
      | Some cur =>
          let cur := push cur c in
          if Py.byte c 123 then spans_from rest (Some cur) (S depth)
          else if Py.byte c 125 then
            match depth with
            | S (S d) => spans_from rest (Some cur) (S d)
            | _ => cur :: spans_from rest None 0
            end
          else spans_from rest (Some cur) depth
      end
  end.

Definition spans (text : string) : list string := spans_from text None 0.

(** A closing brace that no opening brace precedes at its depth. *)
Fixpoint unmatched_close (text : string) (depth : nat) : bool :=
  match text with
  | EmptyString => false
  | String c rest =>
      if Py.byte c 123 then unmatched_close rest (S depth)
      else if Py.byte c 125 then
        match depth with
        | O => true
        | S d => unmatched_close rest d
        end
      else unmatched_close rest depth
  end.

(** The span ends with a comma, white space and its closing brace. *)
Definition trailing_comma_span (s : string) : bool :=
  match Py.rev s with
  | String c r =>
      Py.byte c 125 &&
      match Py.lstrip_rev r with
      | String d _ => Py.byte d 44
      | EmptyString => false
      end
  | EmptyString => false
  end.

(** *** The validator

    The record and its summary section are whatever [json.loads] returned,
    so the membership test and the subscript are the dynamic ones: [None]
    is the [TypeError] they raise on a value that does not support them. *)

(** [field in container] *)
Definition py_in (field : string) (container : json) : option bool :=
  match container with
  | JObject d => Some (Py.has field d)
  | JArray items =>
      Some (existsb (fun x => match x with
                              | JString s => String.eqb field s
                              | _ => false
                              end) items)
  | JString s => Some (Py.contains field s)
  | JNumber _ | JBool _ | JNull => None
  end.

(** [container[field]], evaluated after [field in container] held. *)
Definition getitem (container : json) (field : string) : option json :=
  match container with
  | JObject d => Py.get field d
  | _ => None
  end.

Definition isinstance_list (v : json) : bool :=
  match v with
  | JArray _ => true
  | _ => false
  end.

Definition LIST_FIELDS : list string :=
  ["top_takeaways"; "game_changing_ideas"; "things_you_can_do"].

(** The loops that report the fields absent from [container]. *)
Fixpoint missing_fields (fields : list string) (container : json)
    (errors : list string) : option (list string) :=
  match fields with
  | [] => Some errors
  | field :: rest =>
      present ← py_in field container;
      missing_fields rest container
        (if present : bool then errors
         else errors ++ ["Missing field: " +:+ field])
  end.

(** The loop that reports the fields present without being a list. *)
Fixpoint not_list_fields (fields : list string) (summary_section : json)
    (errors : list string) : option (list string) :=
  match fields with
  | [] => Some errors
  | field :: rest =>
      present ← py_in field summary_section;
      if present : bool then
        value ← getitem summary_section field;
        not_list_fields rest summary_section
          (if isinstance_list value then errors
           else errors ++ ["Field " +:+ field +:+ " is not a list"])
      else not_list_fields rest summary_section errors
  end.

Definition validate_summary (summary : json) (video_id : string)
  : option (list string) :=
  errors ← missing_fields ["title"; "podcaster"] summary [];
  has_section ← py_in "summary" summary;
  if has_section : bool then
    summary_section ← getitem summary "summary";
    errors ← missing_fields REQUIRED_FIELDS summary_section errors;
    not_list_fields LIST_FIELDS summary_section errors
  else Some (errors ++ ["Missing summary section"])%list.

(** A record of the required shape: a dictionary with the two top-level
    fields and a summary section that is a dictionary with the five
    required fields, the three sequence-typed ones holding arrays. *)
Definition well_shaped (summary : json) : Prop :=
  exists d section,
    summary = JObject d
    /\ Py.has "title" d = true
    /\ Py.has "podcaster" d = true
    /\ Py.get "summary" d = Some (JObject section)
    /\ (forall field, field ∈ REQUIRED_FIELDS -> Py.has field section = true)
    /\ (forall field, field ∈ LIST_FIELDS ->
          exists items, Py.get field section = Some (JArray items)).

(** *** The corrective re-generation call

    The generation service is an oracle: [api raw_text k] is its answer to
    the [k]-th request of the run.  An answer is an exception raised by the
    request, or a status code with the decoded body ([None] when the body
    does not decode). *)

(** What the process runs on: the limits of the decoder, and whether the
    debugging copy of the text of the [k]-th answer is written without an
    exception (the directory may be missing, the text may not be
    encodable). *)
Record Runtime : Type := mkRuntime {
  exceeds : Limits;
  writes_copy : nat -> string -> bool
}.

Inductive Response : Type :=
| RequestFails
| Answer (status_code : Z) (data : option json).

Inductive Event : Type :=
| Post
| Sleep (seconds : nat).

(** The counters of [STATS], the requests sent so far and what the process
    did, in order. *)
Record Fixer : Type := mkFixer {
  fixer_attempts : nat;
  fixer_successes : nat;
  requests : nat;
  trace : list Event
}.

(** [data[content][0][text]], which the code then writes to a file as
    text: any other shape raises. *)
Definition fixed_text_of (data : json) : option string :=
  match data with
  | JObject d =>
      match Py.get "content" d with
      | Some (JArray (JObject first :: _)) =>
          match Py.get "text" first with
          | Some (JString text) => Some text
          | _ => None
          end
      | _ => None
      end
  | _ => None
  end.

(** What one answer leads to: a value to return, counted as a success when
    the whole text decoded, or the retry branch. *)
Inductive Attempt : Type :=
| Fixed (value : json) (counted : bool)
| Retry.

(** The answer to the [k]-th request.  Whatever is raised after the
    request, by the subscripts, by the writing of the debugging copy, by
    the decoder or by the extraction, is caught by the outer handler, which
    retries. *)
Definition attempt (rt : Runtime) (k : nat) (response : Response) : Attempt :=
  match response with
  | RequestFails => Retry
  | Answer status_code data =>
      if negb (Z.eqb status_code 200) then Retry
      else
        match data ≫= fixed_text_of with
        | None => Retry
        | Some fixed_text =>
            if negb (writes_copy rt k fixed_text) then Retry
            else
              match decode (exceeds rt) fixed_text with
              | Decoded fixed_json => Fixed fixed_json true
              | LimitError => Retry
              | DecodeError =>
                  match extract_json_objects (exceeds rt) fixed_text with
                  | Some (first :: _) => Fixed first false
                  | Some [] | None => Retry
                  end
              end
        end
  end.

(** [call_claude_fix(raw_text, retry_count)]; Python's [None] is [JNull]. *)
Equations? call_claude_fix (rt : Runtime) (api : string -> nat -> Response)
    (raw_text : string) (retry_count : nat) (st : Fixer)
  : json * Fixer by wf (MAX_RETRIES - retry_count) lt :=
  call_claude_fix rt api raw_text retry_count st
    with attempt rt (requests st) (api raw_text (requests st)) => {
    | Fixed value counted =>
        (value,
         mkFixer (S (fixer_attempts st))
           (if counted then S (fixer_successes st) else fixer_successes st)
           (S (requests st)) (trace st ++ [Post]));
    | Retry with lt_dec retry_count (MAX_RETRIES - 1) => {
      | left _ =>
          call_claude_fix rt api raw_text (retry_count + 1)
            (mkFixer (S (fixer_attempts st)) (fixer_successes st)
               (S (requests st)) (trace st ++ [Post; Sleep RETRY_DELAY]));
      | right _ =>
          (JNull,
           mkFixer (S (fixer_attempts st)) (fixer_successes st)
             (S (requests st)) (trace st ++ [Post])) } }.
Proof. unfold MAX_RETRIES in *. lia. Qed.

(** The trace of a run with [retries] retries: a request, then a sleep and
    a request for each retry. *)
Definition attempts_trace (retries : nat) : list Event :=
  Post :: concat (repeat [Sleep RETRY_DELAY; Post] retries).

End Summarizer.

Import Summarizer.

(** ** The persisted state

    The files the processes share, and the clock.  The clock stands still
    during one operation; a change of date shows as a recorded date that
    differs from [today]. *)

Module Store.

(** An entry of the pending list: a dictionary, a bare identifier (the old
    format), or any other value. *)
Inductive Item : Type :=
| ItemDict (video : Video)
| ItemStr (id : string)
| ItemOther (value : json).

(** [processing_queue.json]: text that does not decode, a dictionary (with
    its [pending] entry when it has one), an array (the old format), or
    any other value. *)
Inductive QueueFile : Type :=
| QueueUndecodable
| QueueObject (pending : option (list Item))
| QueueArray (items : list Item)
| QueueOther.

(** [logs/summary_status.json] *)
Record SummaryStatus : Type := mkStatus {
  st_date : string;
  st_pending : list string;
  st_batched : list string;
  st_completed : list string;
  st_failed : list string;
  st_posted : list string
}.

(** An entry of [done] in [seen_videos.json]; [None] is an absent key. *)
Record SeenRecord : Type := mkSeen {
  s_title : option json;
  s_channel : option json;
  s_processed_at : option string;
  s_status : option string;
  s_posted_to : option (list string);
  s_posted_at : option string;
  s_tags : option (list json)
}.

(** [logs/daily_log.json] *)
Record DailyLog : Type := mkLog {
  log_date : string;
  log_summarized : list string;
  log_posted : gmap string (list string);
  log_errors : list string;
  log_pending : list string
}.

Inductive DailyLogFile : Type :=
| LogMissing
| LogUndecodable
| LogData (data : DailyLog).

Record World : Type := mkWorld {
  today : string;
  now_iso : string;
  now_stamp : string;
  processing_queue_file : QueueFile;
  summary_status_file : option SummaryStatus;
  seen_videos_file : option (gmap string SeenRecord);
  daily_log_file : DailyLogFile;
  summaries_dir : list (string * option json)
}.

(** Operations read and write the world. *)
Definition IO (A : Type) : Type := World -> A * World.

#[global] Instance io_ret : MRet IO := fun A x w => (x, w).

#[global] Instance io_bind : MBind IO :=
  fun A B f m w => let '(x, w') := m w in f x w'.

Definition read {A} (f : World -> A) : IO A := fun w => (f w, w).

Definition write_processing_queue (q : QueueFile) : IO unit :=
  fun w => (tt, mkWorld (today w) (now_iso w) (now_stamp w) q
                  (summary_status_file w) (seen_videos_file w)
                  (daily_log_file w) (summaries_dir w)).

Definition write_summary_status (s : SummaryStatus) : IO unit :=
  fun w => (tt, mkWorld (today w) (now_iso w) (now_stamp w)
                  (processing_queue_file w) (Some s) (seen_videos_file w)
                  (daily_log_file w) (summaries_dir w)).

Definition write_seen_videos (m : gmap string SeenRecord) : IO unit :=
  fun w => (tt, mkWorld (today w) (now_iso w) (now_stamp w)
                  (processing_queue_file w) (summary_status_file w) (Some m)
                  (daily_log_file w) (summaries_dir w)).

Definition write_daily_log (d : DailyLog) : IO unit :=
  fun w => (tt, mkWorld (today w) (now_iso w) (now_stamp w)
                  (processing_queue_file w) (summary_status_file w)
                  (seen_videos_file w) (LogData d) (summaries_dir w)).

(** [for x in l: body(x)] *)
Fixpoint for_each {A} (l : list A) (body : A -> IO unit) : IO unit :=
  match l with
  | [] => mret tt
  | x :: rest => body x;; for_each rest body
  end.

End Store.

Import Store.

(** ** The summary queue ([summary_queue.py]) *)

Module SummaryQueue.

Definition MIN_BATCH_SIZE : nat := 2.
Definition MAX_BATCH_SIZE : nat := 5.

(** An item of a batch, as [get_next_batch] normalises it: it has an id. *)
Record BatchItem : Type := mkBatchItem {
  b_id : string;
  b_fields : Py.dict json
}.

Definition fresh_status (date : string) : SummaryStatus :=
  mkStatus date [] [] [] [] [].

Definition _init_summary_status : IO unit :=
  today ← read today;
  write_summary_status (fresh_status today).

(** A bare identifier of the old format, as a dictionary. *)
Definition video_of_id (id found_at : string) : Video :=
  mkVideo (Some id)
    [("title", JString ("Video " +:+ id)); ("channel", JString "Unknown");
     ("found_at", JString found_at)].

Definition load_processing_queue : IO (list Item) :=
  data ← read processing_queue_file;
  now ← read now_iso;
  mret match data with
       | QueueObject (Some pending) => pending
       | QueueArray items =>
           map (fun item => match item with
                            | ItemStr id => ItemDict (video_of_id id now)
                            | _ => item
                            end) items
       | QueueObject None | QueueOther | QueueUndecodable => []
       end.

Definition save_processing_queue (queue : list Item) : IO unit :=
  write_processing_queue (QueueObject (Some queue)).

Definition load_summary_status : IO SummaryStatus :=
  file ← read summary_status_file;
  today ← read today;
  match file with
  | Some data =>
      if negb (String.eqb (st_date data) today) then
        _init_summary_status;; mret (fresh_status today)
      else mret data
  | None => _init_summary_status;; mret (fresh_status today)
  end.

Definition save_summary_status (status : SummaryStatus) : IO unit :=
  write_summary_status status.

Definition load_seen_videos : IO (gmap string SeenRecord) :=
  file ← read seen_videos_file;
  mret match file with
       | Some done => done
       | None => ∅
       end.

Definition save_seen_videos (videos : gmap string SeenRecord) : IO unit :=
  write_seen_videos videos.

Definition update_pending_items : IO nat :=
  queue ← load_processing_queue;
  status ← load_summary_status;
  let pending_ids :=
    omap (fun item => match item with
                      | ItemDict video => v_id video
                      | ItemStr id => Some id
                      | ItemOther _ => None
                      end) queue in
  save_summary_status
    (mkStatus (st_date status) pending_ids (st_batched status)
       (st_completed status) (st_failed status) (st_posted status));;
  mret (length pending_ids).

Definition ready_for_batch : IO bool :=
  queue ← load_processing_queue;
  mret (Nat.leb MIN_BATCH_SIZE (length queue)).

(** The entry of [key] in [item], or [default]. *)
Definition get_default (key : string) (item : Py.dict json) (default : json)
  : json :=
  match Py.get key item with
  | Some value => value
  | None => default
  end.

Definition NORMALIZED_KEYS : list string :=
  ["channel"; "title"; "text"; "found_at"].

(** One turn of the normalising loop of [get_next_batch]: a dictionary
    with an id gets its defaults and keeps its other entries, a bare
    identifier becomes a dictionary, anything else is skipped. *)
Definition normalize (now : string) (item : Item) : option BatchItem :=
  match item with
  | ItemDict (mkVideo (Some id) fields) =>
      Some (mkBatchItem id
              ([("channel", get_default "channel" fields (JString "Unknown"));
                ("title", get_default "title" fields
                            (JString ("Video " +:+ id)));
                ("text", get_default "text" fields (JString ""));
                ("found_at", get_default "found_at" fields (JString now))]
               ++ List.filter (fun kv => negb (Py.mem kv.1 NORMALIZED_KEYS))
                    fields)%list)
  | ItemStr id =>
      Some (mkBatchItem id
              [("channel", JString "Unknown");
               ("title", JString ("Video " +:+ id));
               ("text", JString "");
               ("found_at", JString now)])
  | ItemDict (mkVideo None _) | ItemOther _ => None
  end.

Definition get_next_batch : IO (list BatchItem) :=
  queue ← load_processing_queue;
  now ← read now_iso;
  if Nat.ltb (length queue) MIN_BATCH_SIZE then mret []
  else
    let batch_size := Nat.min MAX_BATCH_SIZE (length queue) in
    let raw_batch := take batch_size queue in
    mret (omap (normalize now) raw_batch).

Definition mark_as_batched (batch : list BatchItem) : IO unit :=
  status ← load_summary_status;
  let batch_ids := map b_id batch in
  save_summary_status
    (mkStatus (st_date status) (st_pending status)
       (Py.list_set (st_batched status ++ batch_ids))
       (st_completed status) (st_failed status) (st_posted status)).

(** [l.remove(x)] when [x in l]: the first occurrence goes. *)
Fixpoint remove_first (x : string) (l : list string) : list string :=
  match l with
  | [] => []
  | y :: rest => if String.eqb x y then rest else y :: remove_first x rest
  end.

(** [if x not in l: l.append(x)] *)
Definition append_new (x : string) (l : list string) : list string :=
  if Py.mem x l then l else l ++ [x].

Definition endswith (suffix s : string) : bool :=
  Py.startswith (Py.rev suffix) (Py.rev s).

(** [SUMMARIES_DIR.glob(f"{video_id}_*.json")], for an id without pattern
    characters: the files whose name starts with the id and an underscore
    and ends with the extension, in the directory's order. *)
Definition glob_video (video_id : string) (dir : list (string * option json))
  : list (string * option json) :=
  List.filter (fun file =>
            Py.startswith (video_id +:+ "_") file.1
            && endswith ".json" file.1
            && Nat.leb (String.length video_id + 6) (String.length file.1))
    dir.

(** The entry [_update_seen_videos] writes for a video: from its first
    summary file when there is one and it loads as a dictionary, a basic
    entry otherwise.  It holds no [posted_to]. *)
Definition basic_entry (video_id now status_type : string) : SeenRecord :=
  mkSeen (Some (JString ("Video " +:+ video_id))) None (Some now)
    (Some status_type) None None None.

Definition seen_entry (video_id now status_type : string)
    (dir : list (string * option json)) : SeenRecord :=
  match glob_video video_id dir with
  | (_, Some (JObject summary)) :: _ =>
      mkSeen
        (Some (get_default "title" summary (JString ("Video " +:+ video_id))))
        (Some (get_default "podcaster" summary (JString "Unknown")))
        (Some now) (Some status_type) None None
        match Py.get "tags" summary with
        | Some (JArray (tag :: tags)) => Some (tag :: tags)
        | _ => None
        end
  | _ => basic_entry video_id now status_type
  end.

Definition _update_seen_videos (video_ids : list string)
    (status_type : string) : IO unit :=
  seen_videos ← load_seen_videos;
  now ← read now_iso;
  dir ← read summaries_dir;
  save_seen_videos
    (fold_left (fun seen video_id =>
                  <[video_id := seen_entry video_id now status_type dir]> seen)
       video_ids seen_videos).

Definition mark_as_completed (video_ids : list string) : IO unit :=
  status ← load_summary_status;
  let '(batched, completed) :=
    fold_left (fun '(batched, completed) vid_id =>
                 (remove_first vid_id batched, append_new vid_id completed))
      video_ids (st_batched status, st_completed status) in
  save_summary_status
    (mkStatus (st_date status) (st_pending status) batched completed
       (st_failed status) (st_posted status));;
  _update_seen_videos video_ids "completed".

Definition mark_as_failed (video_ids : list string) : IO unit :=
  status ← load_summary_status;
  let '(batched, failed) :=
    fold_left (fun '(batched, failed) vid_id =>
                 (remove_first vid_id batched, append_new vid_id failed))
      video_ids (st_batched status, st_failed status) in
  save_summary_status
    (mkStatus (st_date status) (st_pending status) batched
       (st_completed status) failed (st_posted status));;
  _update_seen_videos video_ids "failed".

Definition mark_as_posted (video_ids : list string) : IO unit :=
  status ← load_summary_status;
  save_summary_status
    (mkStatus (st_date status) (st_pending status) (st_batched status)
       (st_completed status) (st_failed status)
       (fold_left (fun posted vid_id => append_new vid_id posted)
          video_ids (st_posted status)));;
  _update_seen_videos video_ids "posted".

(** The id an entry of the queue is removed by: its [id] entry, else the
    entry itself, which equals no string unless it is one. *)
Definition removal_id (item : Item) : option string :=
  match item with
  | ItemDict video => v_id video
  | ItemStr id => Some id
  | ItemOther _ => None
  end.

Definition remove_from_queue (video_ids : list string) : IO unit :=
  queue ← load_processing_queue;
  save_processing_queue
    (List.filter (fun item => match removal_id item with
                         | Some item_id => negb (Py.mem item_id video_ids)
                         | None => true
                         end) queue).

(** The name of the artifact [process_batch] writes for a video. *)
Definition sanitize (channel : string) : string :=
  Py.map_chars (fun c => if Py.isalnum c then c else "_"%char) channel.

Definition summary_filename (video_id channel : string) : string :=
  video_id +:+ "_" +:+ sanitize channel +:+ ".json".

(** [filename.split(_)[0]] *)
Definition video_id_of_filename (filename : string) : string :=
  match Py.split "_" filename with
  | first :: _ => first
  | [] => EmptyString
  end.

Definition get_summary_files : IO (list (string * string)) :=
  dir ← read summaries_dir;
  mret (omap (fun file =>
                if endswith ".json" file.1 then
                  match video_id_of_filename file.1 with
                  | EmptyString => None
                  | String _ _ as video_id => Some (video_id, file.1)
                  end
                else None) dir).

Definition get_unposted_summaries : IO (list (string * string)) :=
  all_summaries ← get_summary_files;
  status ← load_summary_status;
  let posted_ids := st_posted status in
  mret (List.filter (fun summary => negb (Py.mem summary.1 posted_ids))
          all_summaries).

End SummaryQueue.

Import SummaryQueue.

(** ** The pending list ([queue_manager_module.py]) *)

Module QueueManager.

Definition get_pending_videos : IO (list Item) :=
  data ← read processing_queue_file;
  mret match data with
       | QueueObject (Some pending) =>
           map (fun item =>
                  match item with
                  | ItemStr id =>
                      ItemDict (mkVideo (Some id)
                                  [("title", JString ("Video " +:+ id))])
                  | _ => item
                  end) pending
       | _ => []
       end.

Definition get_seen_videos : IO (gmap string SeenRecord) :=
  file ← read seen_videos_file;
  mret match file with
       | Some done => done
       | None => ∅
       end.

(** [any(v.get(id) == video_id for v in pending)]: the scan stops at the
    first match; an entry that is not a dictionary has no [get] ([None]:
    the [AttributeError]). *)
Fixpoint any_pending (video_id : string) (pending : list Item) : option bool :=
  match pending with
  | [] => Some false
  | ItemDict v :: rest =>
      if decide (v_id v = Some video_id) then Some true
      else any_pending video_id rest
  | (ItemStr _ | ItemOther _) :: _ => None
  end.

(** [add_to_pending(video)]: every exception inside it (a file that does
    not decode or is not a dictionary, a video without an id, a pending
    entry that is not a dictionary) is caught and answered with [False],
    before anything is written. *)
Definition add_to_pending (video : Video) : IO bool :=
  queue_data ← read processing_queue_file;
  match queue_data with
  | QueueObject entry =>
      let pending := default [] entry in
      match v_id video with
      | Some video_id =>
          match any_pending video_id pending with
          | Some false =>
              write_processing_queue
                (QueueObject (Some (pending ++ [ItemDict video])));;
              mret true
          | Some true | None => mret false
          end
      | None => mret false
      end
  | QueueUndecodable | QueueArray _ | QueueOther => mret false
  end.

(** The ids of the pending entries that are dictionaries with an id. *)
Definition pending_ids (pending : list Item) : list string :=
  omap (fun item => match item with
                    | ItemDict v => v_id v
                    | _ => None
                    end) pending.

(** [get_all_seen_video_ids()]: the ids of the pending videos and the keys
    of the done map.  The subscript [v[id]] raises on a pending entry
    without an id ([None]); nothing catches it here. *)
Definition get_all_seen_video_ids : IO (option (gset string)) :=
  pending ← get_pending_videos;
  done ← get_seen_videos;
  mret (pending_ids ← mapM (fun item => match item with
                                         | ItemDict v => v_id v
                                         | ItemStr _ | ItemOther _ => None
                                         end) pending;
        Some (list_to_set pending_ids ∪ dom done)).

(** The title [mark_as_done] gives a video without a given title: that of
    the first pending dictionary with its id, unless it is absent or null,
    and a default otherwise. *)
Fixpoint pending_title (video_id : string) (pending : list Item)
  : option json :=
  match pending with
  | [] => None
  | ItemDict v :: rest =>
      if decide (v_id v = Some video_id) then
        match Py.get "title" (v_fields v) with
        | Some JNull => None
        | Some title => Some title
        | None => Some (JString ("Video " +:+ video_id))
        end
      else pending_title video_id rest
  | (ItemStr _ | ItemOther _) :: rest => pending_title video_id rest
  end.

(** The entries of the pending list that are neither the bare id nor a
    dictionary with the id. *)
Definition without_id (video_id : string) (pending : list Item) : list Item :=
  List.filter (fun item => match item with
                           | ItemStr id => negb (String.eqb id video_id)
                           | ItemDict v =>
                               negb (bool_decide (v_id v = Some video_id))
                           | ItemOther _ => true
                           end) pending.

(** One turn of the loop of [mark_as_done], on the [i]-th id. *)
Definition mark_one (titles : option (list string)) (timestamp : string)
    (state : list Item * gmap string SeenRecord) (entry : nat * string)
  : list Item * gmap string SeenRecord :=
  let '(pending, done) := state in
  let '(i, video_id) := entry in
  let given :=
    match titles with
    | Some ((_ :: _) as titles) => JString <$> titles !! i
    | Some [] | None => None
    end in
  let title :=
    match given with
    | Some title => title
    | None => default (JString ("Video " +:+ video_id))
                (pending_title video_id pending)
    end in
  (without_id video_id pending,
   <[video_id := mkSeen (Some title) None (Some timestamp) None None None None]>
     done).

(** [mark_as_done(video_ids, titles)]: nothing to do for no id; otherwise
    both files must decode and the queue file be a dictionary, or the
    exception is caught and [False] returned with nothing written.  The
    done map is the one the seen file holds as a dictionary; its old form,
    a bare list of ids, is outside the model. *)
Definition mark_as_done (video_ids : list string)
    (titles : option (list string)) : IO bool :=
  match video_ids with
  | [] => mret true
  | _ :: _ =>
      queue_data ← read processing_queue_file;
      seen_data ← read seen_videos_file;
      timestamp ← read now_iso;
      match queue_data, seen_data with
      | QueueObject entry, Some done =>
          let '(pending, done) :=
            fold_left (mark_one titles timestamp)
              (imap (fun i video_id => (i, video_id)) video_ids)
              (default [] entry, done) in
          write_processing_queue (QueueObject (Some pending));;
          write_seen_videos done;;
          mret true
      | _, _ => mret false
      end
  end.

Definition get_queue_counts : IO (nat * nat * nat) :=
  pending ← get_pending_videos;
  done ← get_seen_videos;
  mret (length pending, size done, length pending + size done).

End QueueManager.

Import QueueManager.

(** ** The delivery cycle ([post_scheduler_integration.py]) *)

Module PostScheduler.

Definition DEFAULT_PLATFORMS : list string := ["twitter"; "facebook"; "telegram"].

Definition fresh_log (date : string) : DailyLog := mkLog date [] ∅ [] [].

Definition _init_daily_log : IO unit :=
  file ← read daily_log_file;
  today ← read today;
  match file with
  | LogData data =>
      if String.eqb (log_date data) today then mret tt
      else write_daily_log (fresh_log today)
  | LogMissing | LogUndecodable => write_daily_log (fresh_log today)
  end.

(** The log to update: none when the file is missing or does not decode
    (the exception is caught and the update dropped); today's, after a
    reset when the recorded date is another day's. *)
Definition current_log : IO (option DailyLog) :=
  file ← read daily_log_file;
  today ← read today;
  match file with
  | LogData data =>
      if negb (String.eqb (log_date data) today) then
        _init_daily_log;; mret (Some (fresh_log today))
      else mret (Some data)
  | LogMissing | LogUndecodable => mret None
  end.

(** [_update_daily_log(posted, items)] *)
Definition _update_daily_log_posted (items : list (string * list string))
  : IO unit :=
  log ← current_log;
  match log with
  | None => mret tt
  | Some log_data =>
      let posted :=
        fold_left (fun posted '(platform, ids) =>
                     <[platform :=
                         Py.list_set (default [] (posted !! platform) ++ ids)]>
                       posted)
          items (log_posted log_data) in
      write_daily_log
        (mkLog (log_date log_data) (log_summarized log_data) posted
           (log_errors log_data) (log_pending log_data))
  end.

(** [_update_daily_log(errors, items)] *)
Definition _update_daily_log_errors (items : list string) : IO unit :=
  log ← current_log;
  match log with
  | None => mret tt
  | Some log_data =>
      write_daily_log
        (mkLog (log_date log_data) (log_summarized log_data)
           (log_posted log_data)
           (Py.list_set (log_errors log_data ++ items))
           (log_pending log_data))
  end.

Definition _log_error (message : string) : IO unit :=
  timestamp ← read now_stamp;
  _update_daily_log_errors [timestamp +:+ " - " +:+ message].

Definition _get_posted_videos : IO (gmap string (list string)) :=
  file ← read daily_log_file;
  mret match file with
       | LogData data => log_posted data
       | LogMissing | LogUndecodable => ∅
       end.

Definition _should_post_to_platform (video_id platform : string)
    (force_all : bool) : IO bool :=
  if force_all then mret true
  else
    posted ← _get_posted_videos;
    let platform_posts := default [] (posted !! platform) in
    mret (negb (Py.mem video_id platform_posts)).

(** What a call of a collaborator that may raise comes back with. *)
Inductive Outcome (A : Type) : Type :=
| Returned (value : A)
| Raised (message : string).

Arguments Returned {A} value.
Arguments Raised {A} message.

(** The collaborators of a cycle, as functions of what they are given:
    the two status checks, the accounts of a platform, the two formatters
    (an empty content is a failure to format), the two delivery calls
    (for a broadcast, the success flag of each chat). *)
Record Collaborators : Type := mkCollaborators {
  authenticate : bool;
  check_bot_status : bool;
  get_account_ids_by_platform : string -> list Z;
  format_summary : json -> string -> string -> Outcome string;
  create_post : string -> list Z -> string -> bool;
  telegram_format_summary : json -> string -> Outcome string;
  broadcast_message : string -> list bool
}.

(** The bookkeeping of a cycle: the videos posted per platform, the
    platforms attempted per video, and the delivery calls made, as
    (video, platform) pairs in order. *)
Record Cycle : Type := mkCycle {
  posted_by_platform : Py.dict (list string);
  attempts_by_video : Py.dict (gset string);
  deliveries : list (string * string)
}.

Definition attempted (video_id platform : string) (cy : Cycle) : Cycle :=
  mkCycle (posted_by_platform cy)
    (Py.setitem video_id
       ({[platform]} ∪ default ∅ (Py.get video_id (attempts_by_video cy)))
       (attempts_by_video cy))
    (deliveries cy).

Definition delivered (video_id platform : string) (cy : Cycle) : Cycle :=
  mkCycle (posted_by_platform cy) (attempts_by_video cy)
    (deliveries cy ++ [(video_id, platform)]).

Definition posted_to_platform (video_id platform : string) (cy : Cycle)
  : Cycle :=
  mkCycle
    (Py.setitem platform
       (default [] (Py.get platform (posted_by_platform cy)) ++ [video_id])
       (posted_by_platform cy))
    (attempts_by_video cy) (deliveries cy).

Section Cycle.

(** The platforms of the run: the module's list, as [main] may have
    narrowed it. *)
Variable PLATFORMS : list string.

Variable collaborators : Collaborators.

(** One turn of the loop over the platforms, for one summary.  The second
    component is the exception that ends the summary's turns, if any. *)
Definition platform_turn (force_all socialbu_authenticated
    telegram_operational : bool) (video_id file_name : string)
    (summary_data : json) (platform : string) (cy : Cycle)
  : IO (Cycle * option string) :=
  should_post ← _should_post_to_platform video_id platform force_all;
  let cy := attempted video_id platform cy in
  if negb should_post then mret (cy, None)
  else if Py.mem platform ["twitter"; "facebook"] then
    if negb socialbu_authenticated then mret (cy, None)
    else
      let account_ids := get_account_ids_by_platform collaborators platform in
      match account_ids with
      | [] => mret (cy, None)
      | _ :: _ =>
          match format_summary collaborators summary_data platform file_name
          with
          | Raised message => mret (cy, Some message)
          | Returned EmptyString =>
              _log_error ("Failed to format content for " +:+ video_id
                          +:+ " on " +:+ platform);;
              mret (cy, None)
          | Returned content =>
              let cy := delivered video_id platform cy in
              if create_post collaborators content account_ids platform
              then mret (posted_to_platform video_id platform cy, None)
              else
                _log_error ("Failed to post " +:+ video_id +:+ " to "
                            +:+ platform);;
                mret (cy, None)
          end
      end
  else if String.eqb platform "telegram" then
    if negb telegram_operational then mret (cy, None)
    else
      match telegram_format_summary collaborators summary_data file_name with
      | Raised message => mret (cy, Some message)
      | Returned EmptyString =>
          _log_error ("Failed to format content for " +:+ video_id
                      +:+ " on Telegram");;
          mret (cy, None)
      | Returned content =>
          let cy := delivered video_id platform cy in
          let success_count :=
            length (List.filter id (broadcast_message collaborators content)) in
          if Nat.ltb 0 success_count then
            _update_daily_log_posted [(platform, [video_id])];;
            mret (posted_to_platform video_id platform cy, None)
          else
            _log_error ("Failed to post " +:+ video_id +:+ " to Telegram");;
            mret (cy, None)
      end
  else mret (cy, None).

Fixpoint platforms_loop (force_all socialbu_authenticated
    telegram_operational : bool) (video_id file_name : string)
    (summary_data : json) (platforms : list string) (cy : Cycle)
  : IO (Cycle * option string) :=
  match platforms with
  | [] => mret (cy, None)
  | platform :: rest =>
      '(cy, raised) ← platform_turn force_all socialbu_authenticated
                        telegram_operational video_id file_name summary_data
                        platform cy;
      match raised with
      | Some message => mret (cy, Some message)
      | None =>
          platforms_loop force_all socialbu_authenticated
            telegram_operational video_id file_name summary_data rest cy
      end
  end.

(** The content of a summary file, decoded; a file that is gone or does
    not decode raises. *)
Definition read_summary (file_name : string) : IO (option json) :=
  dir ← read summaries_dir;
  mret (mjoin (snd <$> List.find (fun file => String.eqb file.1 file_name) dir)).

(** One turn of the loop over the unposted summaries. *)
Definition summary_turn (force_all socialbu_authenticated
    telegram_operational : bool) (summary : string * string) (cy : Cycle)
  : IO Cycle :=
  let '(video_id, file_name) := summary in
  let cy :=
    mkCycle (posted_by_platform cy)
      (Py.setitem video_id ∅ (attempts_by_video cy)) (deliveries cy) in
  content ← read_summary file_name;
  match content with
  | None =>
      _log_error ("Error posting summary " +:+ video_id +:+ ": not decoded");;
      mret cy
  | Some summary_data =>
      '(cy, raised) ← platforms_loop force_all socialbu_authenticated
                        telegram_operational video_id file_name summary_data
                        PLATFORMS cy;
      match raised with
      | Some message =>
          _log_error ("Error posting summary " +:+ video_id +:+ ": "
                      +:+ message);;
          mret cy
      | None => mret cy
      end
  end.

Fixpoint summaries_loop (force_all socialbu_authenticated
    telegram_operational : bool) (unposted : list (string * string))
    (cy : Cycle) : IO Cycle :=
  match unposted with
  | [] => mret cy
  | summary :: rest =>
      cy ← summary_turn force_all socialbu_authenticated telegram_operational
             summary cy;
      summaries_loop force_all socialbu_authenticated telegram_operational
        rest cy
  end.

(** The platforms [video_id] was posted to in this cycle. *)
Definition successful_platforms (video_id : string)
    (posted_by_platform : Py.dict (list string)) : list string :=
  map fst (List.filter (fun entry => Py.mem video_id entry.2)
             posted_by_platform).

(** The update of one entry of the seen videos by the first loop of
    [_update_queue_manager_status]. *)
Definition record_posting (entry : SeenRecord) (successful : list string)
    (now : string) : SeenRecord :=
  let posted_to := Py.list_set (default [] (s_posted_to entry) ++ successful) in
  match successful with
  | [] =>
      mkSeen (s_title entry) (s_channel entry) (s_processed_at entry)
        (s_status entry) (Some posted_to) (s_posted_at entry) (s_tags entry)
  | _ :: _ =>
      mkSeen (s_title entry) (s_channel entry) (s_processed_at entry)
        (Some "posted") (Some posted_to) (Some now) (s_tags entry)
  end.

Definition all_platforms_attempted (attempted_platforms : gset string) : bool :=
  forallb (fun platform => bool_decide (platform ∈ attempted_platforms))
    PLATFORMS.

Definition any_platform_success (video_id : string)
    (posted_by_platform : Py.dict (list string)) : bool :=
  existsb (Py.mem video_id) (Py.values posted_by_platform).

Definition fully_processed (posted_by_platform : Py.dict (list string))
    (attempts_by_video : Py.dict (gset string)) : list string :=
  map fst
    (List.filter (fun entry =>
                    all_platforms_attempted entry.2
                    && any_platform_success entry.1 posted_by_platform)
       attempts_by_video).

Definition _update_queue_manager_status
    (posted_by_platform : Py.dict (list string))
    (attempts_by_video : Py.dict (gset string)) : IO unit :=
  seen_videos ← load_seen_videos;
  now ← read now_iso;
  save_seen_videos
    (fold_left
       (fun seen '(video_id, _) =>
          match seen !! video_id with
          | Some entry =>
              <[video_id :=
                  record_posting entry
                    (successful_platforms video_id posted_by_platform) now]>
                seen
          | None => seen
          end)
       attempts_by_video seen_videos);;
  match fully_processed posted_by_platform attempts_by_video with
  | [] => mret tt
  | (_ :: _) as ids => mark_as_posted ids
  end.

Definition post_unposted_summaries (force_all : bool) : IO Cycle :=
  unposted ← get_unposted_summaries;
  match unposted with
  | [] => mret (mkCycle [] [] [])
  | _ :: _ =>
      let socialbu_authenticated := authenticate collaborators in
      (if socialbu_authenticated then mret tt
       else _log_error "Failed to authenticate with SocialBu API");;
      let telegram_operational := check_bot_status collaborators in
      (if telegram_operational then mret tt
       else _log_error "Telegram bot is not operational");;
      let posted_by_platform :=
        fold_left (fun d platform => Py.setitem platform [] d) PLATFORMS [] in
      cy ← summaries_loop force_all socialbu_authenticated
             telegram_operational unposted
             (mkCycle posted_by_platform [] []);
      _update_queue_manager_status (PostScheduler.posted_by_platform cy)
        (attempts_by_video cy);;
      let posted_items :=
        List.filter (fun entry => match entry.2 with
                                  | [] => false
                                  | _ :: _ => true
                                  end) (PostScheduler.posted_by_platform cy) in
      match posted_items with
      | [] => mret cy
      | _ :: _ => _update_daily_log_posted posted_items;; mret cy
      end
  end.

End Cycle.

(** What the construction of a [PostScheduler] does to the files, which
    exist: the daily log is created anew unless it is today's.  Every
    invocation of the program starts with it. *)
Definition init_scheduler : IO unit := _init_daily_log.

End PostScheduler.

Import PostScheduler.

(** ** Predicates and states used in the statements *)

Definition two_videos : list Video :=
  [mkVideo (Some "v1") []; mkVideo (Some "v2") []].

Definition repaired (s : string) : option json :=
  loads (fix_common_json_errors s).

Definition opens_brace (s : string) : Prop := exists r, s = String "{" r.

(** What a scan gathers from the texts it hands to the decoder, in order:
    the records of those that decode, or nothing at all when the decoder
    raises on one of them an exception the scan does not catch. *)
Fixpoint collect (exceeds : Limits) (texts : list string)
    (results : list json) : option (list json) :=
  match texts with
  | [] => Some results
  | text :: rest =>
      results ← append_parsed exceeds text results;
      collect exceeds rest results
  end.

(** The texts are within the limits of the decoder. *)
Definition within (exceeds : Limits) (texts : list string) : Prop :=
  Forall (fun text => exceeds text = false) texts.

(** The parts between sentinels that are not blank, stripped. *)
Definition cleaned_parts (text : string) : list string :=
  List.filter (fun cleaned => negb (String.eqb cleaned EmptyString))
    (map Py.strip (Py.split SENTINEL text)).

(** A byte below 128 is no part of a white space character of several
    bytes. *)
Definition low (k : ascii) : Prop := N.ltb (Py.code k) 128 = true.

(** The pattern matches nowhere in the text. *)
Fixpoint nowhere (match_at : string -> option (nat * string)) (s : string)
  : bool :=
  match s with
  | EmptyString => true
  | String _ r =>
      match match_at s with
      | Some _ => false
      | None => nowhere match_at r
      end
  end.

(** None of the three patterns of the repairs matches in the text: the
    repairs leave it as it is. *)
Definition quiet (s : string) : bool :=
  nowhere (trailing_comma "]") s
  && nowhere (trailing_comma "}") s
  && nowhere bare_key s.

Definition is_object (v : json) : Prop := exists d, v = JObject d.

Definition fresh : Fixer := mkFixer 0 0 0 [].

(** A process with room for every text of at most 1000 bytes, whose
    debugging copies are all written. *)
Definition plain : Runtime := mkRuntime (roomy 1000) (fun _ _ => true).

Definition yesterday_world : World :=
  mkWorld "2025-05-02" "2025-05-02T08:00:00" "2025-05-02 08:00:00"
    (QueueObject (Some []))
    (Some (mkStatus "2025-05-01" [] ["b"] ["v1"] ["f"] ["v1"]))
    (Some ∅) LogMissing
    [("v1_Chan.json", Some (JObject []))].

Definition two_pending : World :=
  mkWorld "2025-05-02" "2025-05-02T08:00:00" "2025-05-02 08:00:00"
    (QueueObject (Some [ItemDict (mkVideo (Some "v1") [("title", JString "One")]);
                        ItemStr "v2"]))
    (Some (fresh_status "2025-05-02")) (Some ∅) LogMissing [].

Definition is_dict (item : Item) : Prop :=
  match item with
  | ItemDict _ => True
  | _ => False
  end.

Definition seen_v1 : World :=
  mkWorld "2025-05-02" "2025-05-02T08:00:00" "2025-05-02 08:00:00"
    (QueueObject (Some []))
    (Some (mkStatus "2025-05-02" [] ["v1"] [] [] []))
    (Some {[ "v1" := basic_entry "v1" "2025-05-01T09:00:00" "completed" ]})
    LogMissing [].

(** Collaborators that always succeed. *)
Definition obliging : Collaborators :=
  mkCollaborators true true (fun _ => [1%Z])
    (fun _ _ _ => Returned "post") (fun _ _ _ => true)
    (fun _ _ => Returned "message") (fun _ => [true]).

(** The day after [v1] went to twitter alone: the ledger records the
    destination, the daily log is still the one of the day before. *)
Definition day_two : World :=
  mkWorld "2025-05-02" "2025-05-02T08:00:00" "2025-05-02 08:00:00"
    (QueueObject (Some []))
    (Some (mkStatus "2025-05-01" [] [] ["v1"] [] []))
    (Some {[ "v1" := mkSeen (Some (JString "One")) (Some (JString "Chan"))
                       (Some "2025-05-01T09:00:00") (Some "posted")
                       (Some ["twitter"]) (Some "2025-05-01T09:05:00") None ]})
    (LogData (mkLog "2025-05-01" ["v1"] {[ "twitter" := ["v1"] ]} [] []))
    [("v1_Chan.json", Some (JObject [("title", JString "One")]))].

(** The messages of the validator for the fields of [fields] absent from a
    dictionary, and for those present without holding an array. *)
Definition missing_messages (fields : list string) (d : Py.dict json)
  : list string :=
  map (fun field => "Missing field: " +:+ field)
    (List.filter (fun field => negb (Py.has field d)) fields).

Definition not_list_messages (fields : list string) (d : Py.dict json)
  : list string :=
  map (fun field => "Field " +:+ field +:+ " is not a list")
    (List.filter (fun field => match Py.get field d with
                               | Some (JArray _) | None => false
                               | Some _ => true
                               end) fields).

(** The characters with a meaning in a glob pattern. *)
Definition pattern_char (c : ascii) : bool :=
  Py.byte c 42 || Py.byte c 63 || Py.byte c 91 || Py.byte c 93.

Fixpoint all_chars (p : ascii -> bool) (s : string) : bool :=
  match s with
  | EmptyString => true
  | String c r => p c && all_chars p r
  end.

(** The entries that [mark_as_done] keeps when it is given [video_ids]. *)
Definition kept (video_ids : list string) (item : Item) : bool :=
  match removal_id item with
  | Some id => negb (Py.mem id video_ids)
  | None => true
  end.

(** A destination is open in a cycle when its service answered the status
    check made at the start of the cycle, and, for the two platforms served
    through accounts, when it has one. *)
Definition channel_open (collaborators : Collaborators)
    (socialbu_authenticated telegram_operational : bool) (platform : string)
  : Prop :=
  (platform ∈ ["twitter"; "facebook"]
   /\ socialbu_authenticated = true
   /\ get_account_ids_by_platform collaborators platform <> [])
  \/ (platform = "telegram" /\ telegram_operational = true).

(** A pair that today's log lists as posted. *)
Definition listed (video_id platform : string) (w : World) : Prop :=
  exists data,
    daily_log_file w = LogData data
    /\ log_date data = today w
    /\ video_id ∈ default [] (log_posted data !! platform).

(** A day on which [v1] has already gone to twitter: today's log lists
    it, its summary is still unposted in the status. *)
Definition posted_today : World :=
  mkWorld "2025-05-02" "2025-05-02T08:00:00" "2025-05-02 08:00:00"
    (QueueObject (Some []))
    (Some (mkStatus "2025-05-02" [] [] ["v1"] [] []))
    (Some ∅)
    (LogData (mkLog "2025-05-02" ["v1"] {[ "twitter" := ["v1"] ]} [] []))
    [("v1_Chan.json", Some (JObject [("title", JString "One")]))].

(** The clock moves on within the day: the date and the files stay. *)
Definition later (iso stamp : string) (w : World) : World :=
  mkWorld (today w) iso stamp (processing_queue_file w)
    (summary_status_file w) (seen_videos_file w) (daily_log_file w)
    (summaries_dir w).

(** The end of [post_unposted_summaries], once the loop over the
    summaries has left the bookkeeping [cy]. *)
Definition cycle_end (PLATFORMS : list string) (cy : Cycle) : IO unit :=
  _update_queue_manager_status PLATFORMS (posted_by_platform cy)
    (attempts_by_video cy);;
  match List.filter (fun entry => match entry.2 with
                                  | [] => false
                                  | _ :: _ => true
                                  end) (posted_by_platform cy) with
  | [] => mret tt
  | (_ :: _) as posted_items => _update_daily_log_posted posted_items
  end.

(** A delivery invocation of the program: the scheduler is constructed,
    then the cycle runs. *)
Definition delivery_invocation (PLATFORMS : list string)
    (collaborators : Collaborators) (force_all : bool) : IO Cycle :=
  init_scheduler;; post_unposted_summaries PLATFORMS collaborators force_all.

(** What may happen to the files before the next invocation of the same
    day: the clock, the queue, the status, the seen videos and the
    summaries become those of [other], and so do the sections of the daily
    log that the rest of the program writes; the date and the posted
    section of the log stay. *)
Definition meanwhile (other : World) (w : World) : World :=
  mkWorld (today w) (now_iso other) (now_stamp other)
    (processing_queue_file other) (summary_status_file other)
    (seen_videos_file other)
    (match daily_log_file w, daily_log_file other with
     | LogData data, LogData data' =>
         LogData (mkLog (log_date data) (log_summarized data')
                    (log_posted data) (log_errors data') (log_pending data'))
     | file, _ => file
     end)
    (summaries_dir other).

(** Delivery invocations without the force flag that follow one another
    the same day, each after what happened meanwhile, with its platforms
    and with what its collaborators answer. *)
Fixpoint same_day_invocations
    (runs : list (World * list string * Collaborators))
  : IO (list Cycle) :=
  match runs with
  | [] => mret []
  | (other, PLATFORMS, collaborators) :: rest =>
      fun w =>
        let '(cy, w) :=
          delivery_invocation PLATFORMS collaborators false
            (meanwhile other w) in
        let '(cys, w) := same_day_invocations rest w in
        (cy :: cys, w)
  end.

(** Later the same day, a second summary has been written and the status
    store lists both videos as completed. *)
Definition afternoon : World :=
  mkWorld "2025-05-02" "2025-05-02T12:00:00" "2025-05-02 12:00:00"
    (QueueObject (Some []))
    (Some (mkStatus "2025-05-02" [] [] ["v1"; "v2"] [] []))
    (Some ∅)
    (LogData (mkLog "2025-05-02" ["v1"; "v2"] ∅ [] []))
    [("v1_Chan.json", Some (JObject [("title", JString "One")]));
     ("v2_Chan.json", Some (JObject [("title", JString "Two")]))].

(** The log of the file is today's. *)
Definition log_of_today (w : World) : Prop :=
  exists data, daily_log_file w = LogData data /\ log_date data = today w.

(** Collaborators that succeed, but for the formatter, which raises on
    facebook. *)
Definition facebook_raises : Collaborators :=
  mkCollaborators true true (fun _ => [1%Z])
    (fun _ platform _ =>
       if String.eqb platform "facebook" then Raised "no template"
       else Returned "post")
    (fun _ _ _ => true) (fun _ _ => Returned "message") (fun _ => [true]).

(** A day on which [v1] is summarised and not yet delivered. *)
Definition one_completed : World :=
  mkWorld "2025-05-02" "2025-05-02T08:00:00" "2025-05-02 08:00:00"
    (QueueObject (Some []))
    (Some (mkStatus "2025-05-02" [] [] ["v1"] [] []))
    (Some {[ "v1" := basic_entry "v1" "2025-05-02T07:00:00" "completed" ]})
    (LogData (fresh_log "2025-05-02"))
    [("v1_Chan.json", Some (JObject [("title", JString "One")]))].




(* ================================================================== *)
(** * Properties *)

(** ** Strings and options *)

Lemma append_nil_string (b : string) : EmptyString +:+ b = b.
Proof. reflexivity. Qed.

Lemma append_cons_string x (a b : string) : String x a +:+ b = String x (a +:+ b).
Proof. reflexivity. Qed.

Lemma append_assoc_string (a b c : string) : (a +:+ b) +:+ c = a +:+ (b +:+ c).
Proof.
  induction a as [|x a IH]; [reflexivity|].
  rewrite !append_cons_string, IH. reflexivity.
Qed.

Lemma append_length_string (a b : string) :
  String.length (a +:+ b) = String.length a + String.length b.
Proof.
  induction a as [|x a IH]; [reflexivity|].
  rewrite append_cons_string. simpl. rewrite IH. reflexivity.
Qed.

Lemma append_empty_string (a : string) : a +:+ EmptyString = a.
Proof.
  induction a as [|x a IH]; [reflexivity|].
  rewrite append_cons_string, IH. reflexivity.
Qed.

Lemma bind_ret {A B} (x : A) (f : A -> option B) : Some x ≫= f = f x.
Proof. reflexivity. Qed.

(** ** Sanity checks of the decoder and of the repairs *)

Example loads_object :
  loads (Py.q "{'a': [1, 2.5e3, true, null], 'b': {'c': 'xé\n'}, 'a': -0}")
  = Some (JObject [("a", JNumber "-0");
                   ("b", JObject [("c", JString (String "x" (String (Py.chr 195)
                        (String (Py.chr 169) (String (Py.chr 10) EmptyString)))))])]).
Proof. vm_compute. reflexivity. Qed.

Example loads_trailing_comma : loads (Py.q "{'b': 2,}") = None.
Proof. vm_compute. reflexivity. Qed.

Example loads_array_trailing_comma : loads "[1, 2, ]" = None.
Proof. vm_compute. reflexivity. Qed.

Example loads_extra_data : loads "{} {}" = None.
Proof. vm_compute. reflexivity. Qed.

Example loads_leading_zero : loads "01" = None.
Proof. vm_compute. reflexivity. Qed.

Example loads_bare_key : loads "{a: 1}" = None.
Proof. vm_compute. reflexivity. Qed.

Example fix_trailing : fix_common_json_errors (Py.q "{'a': [1, 2, ], b : 3 , }")
                       = Py.q "{'a': [1, 2],'b': 3 }".
Proof. vm_compute. reflexivity. Qed.

Example extract_delimited :
  extract_json_objects (roomy 1000)
    (String.concat (String (Py.chr 10) EmptyString)
       [Py.q "{'a':1}"; "--- END OF SUMMARY ---"; Py.q "{'a':2}"])
  = Some [JObject [("a", JNumber "1")]; JObject [("a", JNumber "2")]].
Proof. vm_compute. reflexivity. Qed.

Example extract_one_of_two :
  extract_json_objects (roomy 1000) (Py.q "{'a':1} {'b':2,}")
  = Some [JObject [("a", JNumber "1")]].
Proof. vm_compute. reflexivity. Qed.

Example robust_two :
  parse_robust_json (roomy 1000) (Py.q "{'a':1} {'b':2,}")
  = Some [JObject [("a", JNumber "1")]; JObject [("b", JNumber "2")]].
Proof. vm_compute. reflexivity. Qed.

(** A span the decoder cannot take in ends the extraction with an
    exception, whatever the other spans hold. *)
Example extract_beyond_limits :
  extract_json_objects (roomy 8) (Py.q "{'a':1} {'b':[[2]]}") = None.
Proof. vm_compute. reflexivity. Qed.

(** ** Extraction chain *)

Example chain_typical :
  extract_candidates (roomy 1000) two_videos (Py.q "{'a':1} {'b':2,}")
  = Some [JObject [("a", JNumber "1"); ("video_url", video_url "v1")];
          JObject [("b", JNumber "2"); ("video_url", video_url "v2")]].
Proof. vm_compute. reflexivity. Qed.

Example chain_title_with_colon :
  let text := Py.q "{'title': 'AI, ethics: a talk'} {'title': 'B',}" in
  spans text = [Py.q "{'title': 'AI, ethics: a talk'}"; Py.q "{'title': 'B',}"]
  /\ extract_candidates (roomy 1000) two_videos text
     = Some [JObject [("title", JString "AI, ethics: a talk");
                      ("video_url", video_url "v1")]].
Proof. vm_compute. split; reflexivity. Qed.

(** What the decoder and a scan do within the limits, and beyond them. *)

Lemma decode_within exceeds text :
  exceeds text = false ->
  decode exceeds text
  = match loads text with
    | Some value => Decoded value
    | None => DecodeError
    end.
Proof. intros H. unfold decode. rewrite H. reflexivity. Qed.

Lemma append_parsed_within exceeds text res :
  exceeds text = false ->
  append_parsed exceeds text res = Some (res ++ omap loads [text]).
Proof.
  intros H. unfold append_parsed. rewrite (decode_within _ _ H). cbn.
  destruct (loads text); [reflexivity|]. rewrite app_nil_r. reflexivity.
Qed.

Lemma append_parsed_None exceeds text res :
  append_parsed exceeds text res = None <-> exceeds text = true.
Proof.
  unfold append_parsed, decode. destruct (exceeds text).
  - split; reflexivity.
  - destruct (loads text); split; discriminate.
Qed.

Lemma collect_within exceeds texts : forall res,
  within exceeds texts ->
  collect exceeds texts res = Some (res ++ omap loads texts).
Proof.
  induction texts as [|text texts IH]; intros res Hall.
  - cbn. rewrite app_nil_r. reflexivity.
  - apply List.Forall_cons_iff in Hall as [Htext Hall].
    cbn [collect]. rewrite (append_parsed_within _ _ _ Htext).
    cbn [mbind option_bind]. rewrite (IH _ Hall), <- app_assoc. f_equal.
    cbn. destruct (loads text); reflexivity.
Qed.

Lemma collect_None exceeds texts : forall res,
  collect exceeds texts res = None
  <-> Exists (fun text => exceeds text = true) texts.
Proof.
  induction texts as [|text texts IH]; intros res.
  - cbn. split; [discriminate|]. intros H. inversion H.
  - cbn [collect]. rewrite List.Exists_cons, <- append_parsed_None with (res := res).
    destruct (append_parsed exceeds text res) as [res'|]; cbn [mbind option_bind].
    + rewrite IH. split; [intros H; right; exact H|].
      intros [H|H]; [discriminate|exact H].
    + split; [intros _; left; reflexivity|reflexivity].
Qed.

(** The two scans against the spans of the text. *)

(** One turn of a scan, the turn coming back with [st']. *)
Ltac scan_turn st' :=
  match goal with
  | |- context [scan_with ?f (String ?c ?r) ?st] =>
      change (scan_with f (String c r) st) with (f st c ≫= scan_with f r);
      replace (f st c) with st'; [cbn [mbind option_bind]|]
  end.

Lemma brace_scan_spans exceeds text : forall st,
  if in_object st
  then forall depth, brace_count st = Z.of_nat (S depth) ->
       results <$> scan_with (brace_step exceeds) text st
       = collect exceeds (spans_from text (Some (current st)) (S depth))
           (results st)
  else results <$> scan_with (brace_step exceeds) text st
       = collect exceeds (spans_from text None 0) (results st).
Proof.
  induction text as [|c rest IH]; intros st.
  - destruct (in_object st); intros; reflexivity.
  - destruct (in_object st) eqn:Hin.
    + intros depth Hd. simpl spans_from.
      destruct (Py.byte c 123) eqn:Hopen; [|destruct (Py.byte c 125) eqn:Hclose].
      * scan_turn (Some (mkScan (push (current st) c) (brace_count st + 1) true
                           (results st))).
        2: { unfold brace_step. rewrite Hin, Hopen. reflexivity. }
        apply (IH (mkScan _ _ true _) (S depth)). simpl. lia.
      * destruct depth as [|d].
        -- scan_turn (results ← append_parsed exceeds (push (current st) c)
                                  (results st);
                      Some (mkScan EmptyString 0 false results)).
           2: { unfold brace_step. rewrite Hin, Hopen, Hclose, Hd. reflexivity. }
           cbn [collect].
           destruct (append_parsed exceeds (push (current st) c) (results st))
             as [res|]; cbn [mbind option_bind]; [|reflexivity].
           apply (IH (mkScan _ _ false _)).
        -- scan_turn (Some (mkScan (push (current st) c) (brace_count st - 1)
                              true (results st))).
           2: { unfold brace_step. rewrite Hin, Hopen, Hclose.
                replace (brace_count st - 1 =? 0)%Z with false
                  by (symmetry; apply Z.eqb_neq; lia).
                reflexivity. }
           apply (IH (mkScan _ _ true _) d). simpl. lia.
      * scan_turn (Some (mkScan (push (current st) c) (brace_count st) true
                           (results st))).
        2: { unfold brace_step. rewrite Hin, Hopen, Hclose. reflexivity. }
        apply (IH (mkScan _ _ true _) depth). exact Hd.
    + simpl spans_from. destruct (Py.byte c 123) eqn:Hopen.
      * scan_turn (Some (mkScan (String c EmptyString) 1 true (results st))).
        2: { unfold brace_step. rewrite Hin, Hopen. reflexivity. }
        apply (IH (mkScan _ _ true _) 0%nat). reflexivity.
      * scan_turn (Some st).
        2: { unfold brace_step. rewrite Hin, Hopen. reflexivity. }
        specialize (IH st). rewrite Hin in IH. exact IH.
Qed.

Lemma open_not_close c : Py.byte c 123 = true -> Py.byte c 125 = false.
Proof.
  unfold Py.byte. intros H. apply N.eqb_eq in H. rewrite H. reflexivity.
Qed.

Lemma robust_scan_spans exceeds text : forall st,
  if in_object st
  then forall depth, brace_count st = Z.of_nat (S depth) ->
       unmatched_close text (S depth) = false ->
       results <$> scan_with (robust_step exceeds) text st
       = collect exceeds
           (map fix_common_json_errors
              (spans_from text (Some (current st)) (S depth)))
           (results st)
  else brace_count st = 0%Z ->
       unmatched_close text 0 = false ->
       results <$> scan_with (robust_step exceeds) text st
       = collect exceeds (map fix_common_json_errors (spans_from text None 0))
           (results st).
Proof.
  induction text as [|c rest IH]; intros st.
  - destruct (in_object st); intros; reflexivity.
  - destruct (in_object st) eqn:Hin.
    + intros depth Hd Hun. simpl spans_from. simpl in Hun.
      destruct (Py.byte c 123) eqn:Hopen; [|destruct (Py.byte c 125) eqn:Hclose].
      * scan_turn (Some (mkScan (push (current st) c) (brace_count st + 1) true
                           (results st))).
        2: { unfold robust_step. rewrite Hopen. rewrite (open_not_close c Hopen).
             replace (brace_count st =? 0)%Z with false
               by (symmetry; apply Z.eqb_neq; lia).
             rewrite Hin. reflexivity. }
        apply (IH (mkScan _ _ true _) (S depth)); [simpl; lia | exact Hun].
      * destruct depth as [|d].
        -- scan_turn (results ← append_parsed exceeds
                                  (fix_common_json_errors (push (current st) c))
                                  (results st);
                      Some (mkScan EmptyString 0 false results)).
           2: { unfold robust_step. rewrite Hopen, Hclose, Hin. simpl.
                rewrite Hd. reflexivity. }
           cbn [map collect].
           destruct (append_parsed exceeds _ (results st)) as [res|];
             cbn [mbind option_bind]; [|reflexivity].
           apply (IH (mkScan _ _ false _)); [reflexivity|exact Hun].
        -- scan_turn (Some (mkScan (push (current st) c) (brace_count st - 1)
                              true (results st))).
           2: { unfold robust_step. rewrite Hopen, Hclose, Hin. simpl.
                replace (brace_count st - 1 =? 0)%Z with false
                  by (symmetry; apply Z.eqb_neq; lia).
                reflexivity. }
           apply (IH (mkScan _ _ true _) d); [simpl; lia | exact Hun].
      * scan_turn (Some (mkScan (push (current st) c) (brace_count st) true
                           (results st))).
        2: { unfold robust_step. rewrite Hopen, Hclose, Hin. reflexivity. }
        apply (IH (mkScan _ _ true _) depth); [exact Hd | exact Hun].
    + intros Hd Hun. simpl spans_from. simpl in Hun.
      destruct (Py.byte c 123) eqn:Hopen; [|destruct (Py.byte c 125) eqn:Hclose].
      * scan_turn (Some (mkScan (String c EmptyString) 1 true (results st))).
        2: { unfold robust_step. rewrite Hopen, (open_not_close c Hopen), Hd.
             reflexivity. }
        apply (IH (mkScan _ _ true _) 0%nat); [reflexivity | exact Hun].
      * discriminate Hun.
      * scan_turn (Some st).
        2: { unfold robust_step. rewrite Hopen, Hclose, Hin. reflexivity. }
        specialize (IH st). rewrite Hin in IH. apply IH; assumption.
Qed.

Lemma parse_robust_json_collect exceeds text :
  unmatched_close text 0 = false ->
  parse_robust_json exceeds text
  = collect exceeds (map fix_common_json_errors (spans text)) [].
Proof.
  intros Hun.
  apply (robust_scan_spans exceeds text (mkScan EmptyString 0 false [])
           eq_refl Hun).
Qed.

Lemma extract_json_objects_no_sentinel exceeds text :
  Py.contains SENTINEL text = false ->
  extract_json_objects exceeds text
  = (objs ← collect exceeds (spans text) [];
     match objs with
     | [] => parse_robust_json exceeds text
     | _ :: _ => Some objs
     end).
Proof.
  intros Hsent. unfold extract_json_objects. rewrite Hsent.
  cbn [mbind option_bind].
  pose proof (brace_scan_spans exceeds text (mkScan EmptyString 0 false []))
    as Hscan.
  cbn [in_object results] in Hscan. fold (spans text) in Hscan.
  rewrite <- Hscan.
  destruct (scan_with (brace_step exceeds) text _) as [st|]; reflexivity.
Qed.

(** What is read from a text that opens with a brace is a dictionary. *)

Lemma parse_members_object n : forall acc s v r,
  parse n (Members acc) s = Some (v, r) -> exists d, v = JObject d.
Proof.
  induction n as [|n IH]; intros acc s v r H; [discriminate|].
  simpl in H.
  repeat match type of H with
         | match ?x with _ => _ end = _ => destruct x eqn:?; try discriminate
         | (if ?b then _ else _) = _ => destruct b eqn:?; try discriminate
         | (let '(_, _) := ?x in _) = _ => destruct x eqn:?
         end.
  - injection H as <- _. eauto.
  - eapply IH. exact H.
Qed.

Lemma loads_brace r v :
  loads (String "{" r) = Some v -> exists d, v = JObject d.
Proof.
  unfold loads. change (skip_ws (String "{" r)) with (String "{" r).
  change (enough (String "{" r)) with (S (S (2 * String.length (String "{" r)))).
  set (n := S (2 * String.length (String "{" r))). clearbody n.
  simpl. destruct (skip_ws r) as [|c1 r2] eqn:Hr; [discriminate|].
  destruct (Py.byte c1 125).
  - destruct (skip_ws r2); [|discriminate]. intros [= <-]. eauto.
  - destruct (parse n (Members []) (String c1 r2)) as [[v' r']|] eqn:Hp;
      [|discriminate].
    destruct (skip_ws r'); [|discriminate]. intros [= <-].
    eapply parse_members_object. exact Hp.
Qed.

Lemma byte_eq c n : Py.byte c n = true -> c = Py.chr n.
Proof.
  unfold Py.byte, Py.code, Py.chr. intros H. apply N.eqb_eq in H.
  rewrite <- H. symmetry. apply ascii_N_embedding.
Qed.

Lemma spans_from_open text : forall current depth s,
  s ∈ spans_from text current depth ->
  (forall cur, current = Some cur -> opens_brace cur) ->
  opens_brace s.
Proof.
  induction text as [|c rest IH]; intros current depth s Hs Hcur.
  - simpl in Hs. inversion Hs.
  - simpl in Hs. destruct current as [cur|].
    + destruct (Hcur cur eq_refl) as [r ->].
      assert (Hpush : forall cur', Some (push (String "{" r) c) = Some cur' ->
                                   opens_brace cur').
      { intros cur' [= <-]. eexists. reflexivity. }
      destruct (Py.byte c 123); [eapply IH; eassumption|].
      destruct (Py.byte c 125); [|eapply IH; eassumption].
      destruct depth as [|[|d]]; try (eapply IH; eassumption).
      all: apply elem_of_cons in Hs as [->|Hs];
        [eexists; reflexivity | eapply IH; [exact Hs | intros ? [=]]].
    + destruct (Py.byte c 123) eqn:Hopen.
      * eapply IH; [exact Hs|]. intros cur [= <-].
        apply byte_eq in Hopen. subst c. eexists. reflexivity.
      * eapply IH; [exact Hs | intros ? [=]].
Qed.

Lemma re_sub_open match_at r :
  (match_at (String "{" r) = None
   \/ exists len rep, match_at (String "{" r) = Some (len, String "{" rep)) ->
  opens_brace (re_sub match_at 0 (String "{" r)).
Proof.
  intros [H | (len & rep & H)]; simpl; rewrite H; eexists; reflexivity.
Qed.

Lemma fix_common_json_errors_open s :
  opens_brace s -> opens_brace (fix_common_json_errors s).
Proof.
  intros [r ->]. unfold fix_common_json_errors.
  destruct (re_sub_open (trailing_comma "]") r) as [r1 ->]; [left; reflexivity|].
  destruct (re_sub_open (trailing_comma "}") r1) as [r2 ->]; [left; reflexivity|].
  apply re_sub_open. unfold bare_key.
  change (Py.byte "{" 123 || Py.byte "{" 44) with true. cbv iota.
  destruct (word (Py.lstrip r2)) as [[|] ?]; [left; reflexivity|].
  destruct (Py.lstrip s0); [left; reflexivity|].
  destruct (Py.byte a0 58); [right; eauto | left; reflexivity].
Qed.

Lemma add_video_urls_objects objs : forall batch,
  Forall is_object objs ->
  exists objs', add_video_urls batch objs = Some objs'
                /\ length objs' = length objs.
Proof.
  induction objs as [|obj objs IH]; intros batch Hall.
  - exists []. destruct batch; split; reflexivity.
  - inversion Hall as [|? ? [d ->] Hrest]; subst.
    destruct batch as [|video videos].
    + eexists. split; reflexivity.
    + destruct (IH videos Hrest) as (rest & Hr & Hlen).
      simpl. rewrite Hr. simpl.
      destruct (v_id video) as [[|c id]|]; eexists; split;
        try reflexivity; simpl; rewrite Hlen; reflexivity.
Qed.

Lemma span_object text s v :
  s ∈ spans text -> loads s = Some v -> is_object v.
Proof.
  intros Hs Hv.
  destruct (spans_from_open text None 0 s Hs) as [r ->]; [intros ? [=]|].
  eapply loads_brace. exact Hv.
Qed.

Lemma span_repaired_object text s v :
  s ∈ spans text -> repaired s = Some v -> is_object v.
Proof.
  intros Hs Hv.
  assert (Hopen : opens_brace s).
  { eapply spans_from_open; [exact Hs | intros ? [=]]. }
  destruct (fix_common_json_errors_open s Hopen) as [r Hr].
  unfold repaired in Hv. rewrite Hr in Hv. eapply loads_brace. exact Hv.
Qed.

(** The repairs on a text where their patterns match nowhere, and on a
    span that ends with a trailing comma. *)

Lemma re_sub_nowhere match_at s :
  nowhere match_at s = true -> re_sub match_at 0 s = s.
Proof.
  induction s as [|c r IH]; [reflexivity|]. cbn [nowhere re_sub].
  destruct (match_at (String c r)); [discriminate|].
  intros H. rewrite (IH H). reflexivity.
Qed.

Lemma quiet_fixed s : quiet s = true -> fix_common_json_errors s = s.
Proof.
  unfold quiet, fix_common_json_errors. intros H.
  apply andb_true_iff in H as [H H3]. apply andb_true_iff in H as [H1 H2].
  rewrite (re_sub_nowhere _ _ H1), (re_sub_nowhere _ _ H2).
  apply re_sub_nowhere. exact H3.
Qed.

Lemma re_sub_skip match_at s : forall k,
  String.length s <= k -> re_sub match_at k s = EmptyString.
Proof.
  induction s as [|c r IH]; intros k Hk; [reflexivity|].
  cbn in Hk. destruct k as [|k]; [lia|]. cbn [re_sub]. apply IH. lia.
Qed.

(** A pattern that does not match in [body] before [closing] does not
    match before [tail] either, when no match can reach into [tail]. *)
Lemma re_sub_prefix match_at closing tail body :
  (forall c b, match_at (String c (b +:+ closing)) = None ->
               match_at (String c (b +:+ tail)) = None) ->
  nowhere match_at (body +:+ closing) = true ->
  re_sub match_at 0 (body +:+ tail) = body +:+ re_sub match_at 0 tail.
Proof.
  intros Hmove. induction body as [|c b IH]; intros Hno; [reflexivity|].
  rewrite !append_cons_string in *. cbn [nowhere] in Hno. cbn [re_sub].
  destruct (match_at (String c (b +:+ closing))) eqn:Hm; [discriminate|].
  rewrite (Hmove c b Hm), (IH Hno). reflexivity.
Qed.

Lemma byte_low k n : low k -> N.leb 128 n = true -> Py.byte k n = false.
Proof.
  unfold low, Py.byte. intros Hk Hn. apply N.ltb_lt in Hk.
  apply N.leb_le in Hn. apply N.eqb_neq. lia.
Qed.

Lemma between_low k lo hi :
  low k -> N.leb 128 lo = true -> Py.between lo hi k = false.
Proof.
  unfold low, Py.between. intros Hk Hn. apply N.ltb_lt in Hk.
  apply N.leb_le in Hn. apply andb_false_iff. left. apply N.leb_gt. lia.
Qed.

Ltac low_bytes Hk :=
  unfold Py.space2, Py.space3;
  repeat match goal with
         | |- context [Py.byte ?x ?n] =>
             rewrite (byte_low x n Hk eq_refl)
         | |- context [Py.between ?lo ?hi ?x] =>
             rewrite (between_low x lo hi Hk eq_refl)
         end;
  repeat match goal with
         | |- context [Py.byte ?x ?n] => destruct (Py.byte x n)
         | |- context [Py.between ?lo ?hi ?x] => destruct (Py.between lo hi x)
         end;
  reflexivity.

Lemma space2_low_1 k b : low k -> Py.space2 k b = false.
Proof. intros Hk. low_bytes Hk. Qed.

Lemma space2_low_2 a k : low k -> Py.space2 a k = false.
Proof. intros Hk. low_bytes Hk. Qed.

Lemma space3_low_1 k b c : low k -> Py.space3 k b c = false.
Proof. intros Hk. low_bytes Hk. Qed.

Lemma space3_low_2 a k c : low k -> Py.space3 a k c = false.
Proof. intros Hk. low_bytes Hk. Qed.

Lemma space3_low_3 a b k : low k -> Py.space3 a b k = false.
Proof. intros Hk. low_bytes Hk. Qed.

Lemma lstrip_low k y :
  low k -> Py.space1 k = false -> Py.lstrip (String k y) = String k y.
Proof.
  intros Hk Hs. cbn [Py.lstrip]. rewrite Hs.
  destruct y as [|b [|c y]]; [reflexivity| |].
  - rewrite (space2_low_1 k b Hk). reflexivity.
  - rewrite (space2_low_1 k b Hk), (space3_low_1 k b c Hk). reflexivity.
Qed.

Lemma lstrip_app_low k y : low k -> Py.space1 k = false -> forall n b,
  String.length b <= n ->
  Py.lstrip (b +:+ String k y) = Py.lstrip b +:+ String k y.
Proof.
  intros Hk Hs. induction n as [|n IH]; intros b Hn.
  - destruct b; [|cbn in Hn; lia]. apply (lstrip_low k y Hk Hs).
  - destruct b as [|a r]; [apply (lstrip_low k y Hk Hs)|].
    cbn in Hn. rewrite append_cons_string. cbn [Py.lstrip].
    destruct (Py.space1 a); [apply IH; lia|].
    destruct r as [|b1 r1].
    + rewrite append_nil_string, (space2_low_2 a k Hk).
      destruct y as [|c y]; [reflexivity|].
      rewrite (space3_low_2 a k c Hk). reflexivity.
    + rewrite append_cons_string.
      destruct (Py.space2 a b1); [apply IH; cbn in Hn; lia|].
      destruct r1 as [|c1 r2].
      * rewrite append_nil_string, (space3_low_3 a b1 k Hk). reflexivity.
      * rewrite append_cons_string.
        destruct (Py.space3 a b1 c1); [apply IH; cbn in Hn; lia|].
        reflexivity.
Qed.

Lemma lstrip_spaces w : forall x,
  all_chars Py.space1 w = true -> Py.lstrip (w +:+ x) = Py.lstrip x.
Proof.
  induction w as [|c w IH]; intros x Hw; [reflexivity|].
  cbn in Hw. apply andb_true_iff in Hw as [Hc Hw].
  rewrite append_cons_string. cbn [Py.lstrip]. rewrite Hc. apply IH. exact Hw.
Qed.

Lemma space1_not_comma c : Py.space1 c = true -> Py.byte c 44 = false.
Proof.
  unfold Py.space1, Py.between, Py.byte. intros H.
  apply N.eqb_neq. intros Heq. rewrite Heq in H. discriminate H.
Qed.

(** A comma of [body] that is not a trailing one before the closing brace
    is not one before the trailing comma of the span either. *)
Lemma trailing_comma_moves close c b tail :
  Ascii.eqb "," close = false ->
  trailing_comma close (String c (b +:+ "}")) = None ->
  trailing_comma close (String c (b +:+ String "," tail)) = None.
Proof.
  intros Hclose. unfold trailing_comma.
  destruct (Py.byte c 44); [|reflexivity].
  rewrite (lstrip_app_low "}" EmptyString eq_refl eq_refl _ b (le_n _)).
  rewrite (lstrip_app_low "," tail eq_refl eq_refl _ b (le_n _)).
  destruct (Py.lstrip b) as [|d r].
  - rewrite !append_nil_string. rewrite Hclose.
    destruct (Ascii.eqb "}" close); [discriminate|reflexivity].
  - rewrite !append_cons_string. destruct (Ascii.eqb d close);
      [discriminate|reflexivity].
Qed.

Lemma nowhere_spaces match_at w x :
  (forall c r, Py.byte c 44 = false -> match_at (String c r) = None) ->
  all_chars Py.space1 w = true ->
  nowhere match_at (w +:+ x) = nowhere match_at x.
Proof.
  intros Hm. induction w as [|c w IH]; intros Hw; [reflexivity|].
  cbn in Hw. apply andb_true_iff in Hw as [Hc Hw].
  rewrite append_cons_string. cbn [nowhere].
  rewrite (Hm c _ (space1_not_comma c Hc)). apply IH. exact Hw.
Qed.

Lemma trailing_comma_at_comma close c r :
  Py.byte c 44 = false -> trailing_comma close (String c r) = None.
Proof. intros H. unfold trailing_comma. rewrite H. reflexivity. Qed.

(** The repairs remove the trailing comma of a span, and nothing else
    when their patterns match nowhere in the rest of it. *)
Lemma trailing_comma_repaired body w :
  all_chars Py.space1 w = true ->
  quiet (body +:+ "}") = true ->
  fix_common_json_errors (body +:+ "," +:+ w +:+ "}") = body +:+ "}".
Proof.
  intros Hw Hq. unfold quiet in Hq.
  apply andb_true_iff in Hq as [Hq H3]. apply andb_true_iff in Hq as [H1 H2].
  unfold fix_common_json_errors.
  change ("," +:+ w +:+ "}") with (String "," (w +:+ "}")).
  assert (Hstrip : Py.lstrip (w +:+ "}") = "}").
  { rewrite (lstrip_spaces w _ Hw). reflexivity. }
  rewrite (re_sub_prefix (trailing_comma "]") "}" (String "," (w +:+ "}")) body);
    [|intros c b; apply trailing_comma_moves; reflexivity|exact H1].
  rewrite (re_sub_nowhere (trailing_comma "]") (String "," (w +:+ "}"))).
  2: { cbn [nowhere]. unfold trailing_comma at 1.
       change (Py.byte "," 44) with true. cbv iota. rewrite Hstrip.
       change (Ascii.eqb "}" "]") with false. cbv iota.
       rewrite (nowhere_spaces _ w "}" (trailing_comma_at_comma "]") Hw).
       reflexivity. }
  rewrite (re_sub_prefix (trailing_comma "}") "}" (String "," (w +:+ "}")) body);
    [|intros c b; apply trailing_comma_moves; reflexivity|exact H2].
  assert (Htail : re_sub (trailing_comma "}") 0 (String "," (w +:+ "}")) = "}").
  { cbn [re_sub]. unfold trailing_comma at 1.
    change (Py.byte "," 44) with true. cbv iota. rewrite Hstrip.
    change (Ascii.eqb "}" "}") with true. cbv iota.
    rewrite re_sub_skip; [reflexivity|]. cbn [String.length]. lia. }
  rewrite Htail. apply re_sub_nowhere. exact H3.
Qed.

(** C6, as amended.  A text without the sentinel, with no unmatched
    closing brace, whose brace-depth scan delimits exactly two top-level
    spans, in either order: one that decodes, and one that is a decodable
    object but for a comma and white space before its closing brace, and
    does not decode.  When the three patterns of the repairs match nowhere
    else in the two spans, and the decoder is within its limits on them,
    [extract_json_objects] returns the record of the well-formed span
    alone, the repairs turn the other span into its text without the
    trailing comma, so that the aggressive scan returns both records, and
    [summarize_batch] ends with two candidates for a batch of two. *)
Theorem extraction_fallback_two_candidates
    (exceeds : Limits) (batch : list Video) (text good body w : string)
    (v1 v2 : json) :
  let bad := body +:+ "," +:+ w +:+ "}" in
  length batch = 2 ->
  Py.contains SENTINEL text = false ->
  unmatched_close text 0 = false ->
  spans text = [good; bad] \/ spans text = [bad; good] ->
  loads good = Some v1 ->
  quiet good = true ->
  all_chars Py.space1 w = true ->
  loads (body +:+ "}") = Some v2 ->
  quiet (body +:+ "}") = true ->
  loads bad = None ->
  within exceeds [good; bad; body +:+ "}"] ->
  extract_json_objects exceeds text = Some [v1]
  /\ fix_common_json_errors bad = body +:+ "}"
  /\ exists both objs,
       parse_robust_json exceeds text = Some both
       /\ both ≡ₚ [v1; v2]
       /\ add_video_urls batch both = Some objs
       /\ extract_candidates exceeds batch text = Some objs
       /\ length objs = 2.
Proof.
  intros bad Hbatch Hsent Hun Hspans Hgood Hquiet Hw Hbody Hqbody Hbad Hlim.
  assert (Hfix : fix_common_json_errors bad = body +:+ "}")
    by (apply trailing_comma_repaired; assumption).
  assert (Hfix1 : fix_common_json_errors good = good)
    by (apply quiet_fixed; exact Hquiet).
  assert (Hr2 : repaired bad = Some v2) by (unfold repaired; rewrite Hfix; exact Hbody).
  assert (Hin : good ∈ spans text /\ bad ∈ spans text).
  { destruct Hspans as [-> | ->]; split; repeat constructor. }
  destruct Hin as [Hin1 Hin2].
  assert (Hobj1 : is_object v1) by (apply (span_object text good); assumption).
  assert (Hobj2 : is_object v2)
    by (apply (span_repaired_object text bad); assumption).
  apply List.Forall_cons_iff in Hlim as [Hl1 Hlim].
  apply List.Forall_cons_iff in Hlim as [Hl2 Hlim].
  apply List.Forall_cons_iff in Hlim as [Hl3 _].
  assert (Hfirst : collect exceeds (spans text) [] = Some [v1]).
  { destruct Hspans as [-> | ->]; rewrite collect_within;
      try (repeat constructor; assumption);
      cbn; rewrite Hgood, Hbad; reflexivity. }
  assert (Hext : extract_json_objects exceeds text = Some [v1]).
  { rewrite (extract_json_objects_no_sentinel _ _ Hsent), Hfirst. reflexivity. }
  split; [exact Hext|]. split; [exact Hfix|].
  assert (Hsecond : exists both,
            parse_robust_json exceeds text = Some both
            /\ both ≡ₚ [v1; v2] /\ Forall is_object both).
  { rewrite (parse_robust_json_collect _ _ Hun).
    destruct Hspans as [-> | ->]; cbn [map]; rewrite Hfix, Hfix1;
      rewrite collect_within; try (repeat constructor; assumption);
      cbn; rewrite Hgood, Hbody; eexists; (split; [reflexivity|]).
    - split; [reflexivity|]. repeat constructor; assumption.
    - split; [apply perm_swap|]. repeat constructor; assumption. }
  destruct Hsecond as (both & Hrob & Hperm & Hall).
  destruct (add_video_urls_objects both batch Hall) as (objs & Hobjs & Hlen).
  exists both, objs. split; [exact Hrob|]. split; [exact Hperm|].
  split; [exact Hobjs|].
  assert (Hlen2 : length objs = 2).
  { rewrite Hlen. apply Permutation_length in Hperm. exact Hperm. }
  split; [|exact Hlen2].
  unfold extract_candidates. rewrite Hext. cbn [mbind option_bind].
  destruct (add_video_urls_objects [v1] batch) as (one & Hone & Hlen1);
    [repeat constructor; exact Hobj1|].
  rewrite Hone. cbn [mbind option_bind]. rewrite Hlen1, Hbatch, Hrob.
  cbn [mbind option_bind length Nat.eqb].
  apply Permutation_length in Hperm. rewrite Hperm. cbn. exact Hobjs.
Qed.

Lemma extraction_fallback_two_candidates_witness :
  extract_json_objects (roomy 1000) (Py.q "{'a':1} {'b':2,}")
  = Some [JObject [("a", JNumber "1")]]
  /\ exists objs,
       extract_candidates (roomy 1000) two_videos (Py.q "{'a':1} {'b':2,}")
       = Some objs
       /\ length objs = 2.
Proof.
  destruct (extraction_fallback_two_candidates (roomy 1000) two_videos
              (Py.q "{'a':1} {'b':2,}") (Py.q "{'a':1}") (Py.q "{'b':2") ""
              (JObject [("a", JNumber "1")]) (JObject [("b", JNumber "2")]))
    as (Hext & _ & both & objs & _ & _ & _ & Hobjs & Hlen).
  - reflexivity.
  - vm_compute. reflexivity.
  - vm_compute. reflexivity.
  - left. vm_compute. reflexivity.
  - vm_compute. reflexivity.
  - vm_compute. reflexivity.
  - reflexivity.
  - vm_compute. reflexivity.
  - vm_compute. reflexivity.
  - vm_compute. reflexivity.
  - repeat constructor.
  - split; [exact Hext|]. exists objs. split; [exact Hobjs|exact Hlen].
Defined.

(** C6, as stated, fails.  In the first text both spans are balanced, the
    first is well formed and the second has a trailing comma, yet the
    chain ends with a single candidate: the repairs, applied to the text
    of the first span too, quote a word inside its title and leave it
    undecodable.  In the second text it is the span with the trailing
    comma that the repairs damage, inside its title, instead of
    recovering it. *)
Lemma extraction_fallback_counterexample :
  let s1 := Py.q "{'title': 'AI, ethics: a talk'}" in
  let s2 := Py.q "{'title': 'B',}" in
  let text := s1 +:+ " " +:+ s2 in
  let t1 := Py.q "{'title': 'A'}" in
  let t2 := Py.q "{'title': 'AI, ethics: a talk',}" in
  let text' := t1 +:+ " " +:+ t2 in
  (Py.contains SENTINEL text = false
   /\ spans text = [s1; s2]
   /\ is_Some (loads s1)
   /\ trailing_comma_span s2 = true
   /\ repaired s1 = None
   /\ ~ (exists objs,
           extract_candidates (roomy 1000) two_videos text = Some objs
           /\ length objs = 2))
  /\ (Py.contains SENTINEL text' = false
      /\ spans text' = [t1; t2]
      /\ is_Some (loads t1)
      /\ trailing_comma_span t2 = true
      /\ is_Some (loads (Py.q "{'title': 'AI, ethics: a talk'}"))
      /\ repaired t2 = None
      /\ ~ (exists objs,
              extract_candidates (roomy 1000) two_videos text' = Some objs
              /\ length objs = 2)).
Proof.
  cbv zeta. split.
  - split; [vm_compute; reflexivity|].
    split; [vm_compute; reflexivity|].
    split; [eexists; vm_compute; reflexivity|].
    split; [vm_compute; reflexivity|].
    split; [vm_compute; reflexivity|].
    intros (objs & H & Hlen).
    vm_compute in H. injection H as <-. discriminate Hlen.
  - split; [vm_compute; reflexivity|].
    split; [vm_compute; reflexivity|].
    split; [eexists; vm_compute; reflexivity|].
    split; [vm_compute; reflexivity|].
    split; [eexists; vm_compute; reflexivity|].
    split; [vm_compute; reflexivity|].
    intros (objs & H & Hlen).
    vm_compute in H. injection H as <-. discriminate Hlen.
Qed.

(** ** The validator *)

Lemma missing_fields_spec fields container : forall errors out,
  missing_fields fields container errors = Some out ->
  exists extra,
    out = (errors ++ extra)%list
    /\ (extra = [] -> forall field, field ∈ fields ->
                      py_in field container = Some true).
Proof.
  induction fields as [|f fields IH]; intros errors out H; simpl in H.
  - injection H as <-. exists []. split; [symmetry; apply app_nil_r|].
    intros _ field Hin. inversion Hin.
  - destruct (py_in f container) as [present|] eqn:Hp; [|discriminate].
    simpl in H. apply IH in H as (extra & -> & Hall).
    destruct present.
    + exists extra. split; [reflexivity|].
      intros He field [->|Hin]%elem_of_cons; [exact Hp | exact (Hall He _ Hin)].
    + eexists. split; [rewrite <- app_assoc; reflexivity|].
      intros He. discriminate He.
Qed.

Lemma missing_fields_object fields d : forall errors,
  missing_fields fields (JObject d) errors
  = Some (errors ++ map (String.append "Missing field: ")
                      (filter (fun field => Py.has field d = false) fields))%list.
Proof.
  induction fields as [|f fields IH]; intros errors; simpl.
  - rewrite app_nil_r. reflexivity.
  - rewrite IH. rewrite filter_cons.
    destruct (Py.has f d) eqn:Hf; simpl.
    + destruct (decide (true = false)); [discriminate|reflexivity].
    + destruct (decide (false = false)); [|congruence].
      simpl. rewrite <- app_assoc. reflexivity.
Qed.

Lemma not_list_fields_spec fields section : forall errors out,
  not_list_fields fields section errors = Some out ->
  exists extra,
    out = (errors ++ extra)%list
    /\ (extra = [] -> forall field, field ∈ fields ->
          py_in field section = Some true ->
          exists items, getitem section field = Some (JArray items)).
Proof.
  induction fields as [|f fields IH]; intros errors out H; simpl in H.
  - injection H as <-. exists []. split; [symmetry; apply app_nil_r|].
    intros _ field Hin. inversion Hin.
  - destruct (py_in f section) as [[|]|] eqn:Hp; simpl in H; [| |discriminate].
    + destruct (getitem section f) as [value|] eqn:Hv; [|discriminate].
      simpl in H. apply IH in H as (extra & -> & Hall).
      destruct value; simpl.
      5: { exists extra. split; [reflexivity|].
           intros He field [->|Hin]%elem_of_cons Hpres; [eauto|].
           exact (Hall He _ Hin Hpres). }
      all: eexists; (split; [rewrite <- app_assoc; reflexivity|]);
        intros He; discriminate He.
    + apply IH in H as (extra & -> & Hall).
      exists extra. split; [reflexivity|].
      intros He field [->|Hin]%elem_of_cons Hpres; [congruence|].
      exact (Hall He _ Hin Hpres).
Qed.

Lemma not_list_fields_object fields d : forall errors,
  exists extra,
    not_list_fields fields (JObject d) errors = Some (errors ++ extra)%list.
Proof.
  induction fields as [|f fields IH]; intros errors; simpl.
  - exists []. rewrite app_nil_r. reflexivity.
  - unfold Py.has. destruct (Py.get f d) as [value|] eqn:Hv; simpl.
    + destruct (IH (if isinstance_list value then errors
                    else errors ++ ["Field " +:+ f +:+ " is not a list"])%list)
        as (extra & ->).
      destruct (isinstance_list value); eexists;
        [reflexivity | rewrite <- app_assoc; reflexivity].
    + apply IH.
Qed.

Lemma not_list_fields_arrays fields d errors :
  (forall field, field ∈ fields ->
     exists items, Py.get field d = Some (JArray items)) ->
  not_list_fields fields (JObject d) errors = Some errors.
Proof.
  induction fields as [|f fields IH]; intros Hall; [reflexivity|].
  simpl. destruct (Hall f) as [items Hf]; [left|].
  unfold Py.has. rewrite Hf. simpl. apply IH.
  intros field Hin. apply Hall. right. exact Hin.
Qed.

Lemma validate_summary_object d section video_id :
  Py.get "summary" d = Some section ->
  validate_summary (JObject d) video_id
  = missing_fields REQUIRED_FIELDS section
      (map (String.append "Missing field: ")
         (filter (fun field => Py.has field d = false) ["title"; "podcaster"]))
    ≫= not_list_fields LIST_FIELDS section.
Proof.
  intros Hs. unfold validate_summary. rewrite missing_fields_object.
  rewrite bind_ret. unfold py_in. rewrite bind_ret.
  unfold Py.has at 1. rewrite Hs. unfold getitem. rewrite Hs.
  rewrite bind_ret. reflexivity.
Qed.

Lemma validate_summary_well_shaped summary video_id :
  well_shaped summary -> validate_summary summary video_id = Some [].
Proof.
  intros (d & section & -> & Ht & Hp & Hs & Hreq & Hlist).
  rewrite (validate_summary_object d (JObject section) video_id Hs).
  rewrite !filter_cons, filter_nil. rewrite Ht, Hp.
  rewrite !decide_False by discriminate.
  rewrite missing_fields_object.
  replace (filter (fun field => Py.has field section = false) REQUIRED_FIELDS)
    with (@nil string).
  2: { symmetry. induction REQUIRED_FIELDS as [|f fields IH]; [reflexivity|].
       rewrite filter_cons_False.
       - apply IH. intros field Hin. apply Hreq. right. exact Hin.
       - rewrite Hreq by left. discriminate. }
  rewrite bind_ret. apply not_list_fields_arrays. exact Hlist.
Qed.

Lemma validate_summary_empty summary video_id :
  validate_summary summary video_id = Some [] -> well_shaped summary.
Proof.
  unfold validate_summary. intros H.
  apply bind_Some in H as (errors & H1 & H).
  apply bind_Some in H as (has_section & Hsec & H).
  destruct has_section.
  2: { injection H as H. destruct errors; discriminate H. }
  apply bind_Some in H as (section & Hget & H).
  apply bind_Some in H as (errors2 & H2 & H).
  apply missing_fields_spec in H1 as (x1 & -> & Htop).
  apply missing_fields_spec in H2 as (x2 & -> & Hreq).
  apply not_list_fields_spec in H as (x3 & Hnil & Hlist).
  simpl in Hnil. symmetry in Hnil.
  apply app_eq_nil in Hnil as [Hnil ->].
  apply app_eq_nil in Hnil as [-> ->].
  specialize (Htop eq_refl). specialize (Hreq eq_refl).
  specialize (Hlist eq_refl).
  destruct summary as [| | | |items|d]; try discriminate Hget.
  simpl in Hget.
  assert (Hsection : exists s, section = JObject s).
  { destruct (Hlist "top_takeaways") as [items Hitems].
    - left.
    - apply Hreq. right. left.
    - destruct section; try discriminate Hitems. eauto. }
  destruct Hsection as [s ->].
  exists d, s. split; [reflexivity|].
  split. { specialize (Htop "title"). simpl in Htop.
           assert (Some (Py.has "title" d) = Some true) as [= ->]
             by (apply Htop; left). reflexivity. }
  split. { specialize (Htop "podcaster"). simpl in Htop.
           assert (Some (Py.has "podcaster" d) = Some true) as [= ->]
             by (apply Htop; right; left). reflexivity. }
  split; [exact Hget|].
  split.
  - intros field Hin. specialize (Hreq field Hin). simpl in Hreq.
    injection Hreq as ->. reflexivity.
  - intros field Hin. apply (Hlist field Hin). apply Hreq.
    unfold LIST_FIELDS in Hin. unfold REQUIRED_FIELDS.
    repeat (apply elem_of_cons in Hin as [->|Hin]; [repeat constructor|]).
    inversion Hin.
Qed.

Lemma validate_summary_names_missing d section video_id field :
  Py.get "summary" d = Some (JObject section) ->
  field ∈ REQUIRED_FIELDS ->
  Py.has field section = false ->
  exists errors,
    validate_summary (JObject d) video_id = Some errors
    /\ ("Missing field: " +:+ field) ∈ errors.
Proof.
  intros Hs Hin Hf.
  rewrite (validate_summary_object d (JObject section) video_id Hs).
  rewrite missing_fields_object. rewrite bind_ret.
  match goal with
  | |- context [not_list_fields _ _ ?e] =>
      destruct (not_list_fields_object LIST_FIELDS section e) as (extra & ->)
  end.
  eexists. split; [reflexivity|].
  apply elem_of_app. left. apply elem_of_app. right.
  apply (list_elem_of_fmap_2 (String.append "Missing field: ")).
  apply list_elem_of_filter. split; assumption.
Qed.

(** C5.  [validate_summary] returns the empty list exactly on the records
    of the required shape: the two top-level fields, a summary section that
    is a dictionary with its five fields, the three sequence-typed ones
    being arrays.  And a record whose summary section lacks
    [why_this_matters] gets a list that names it. *)
Theorem validate_summary_empty_iff_well_shaped :
  (forall summary video_id,
     validate_summary summary video_id = Some [] <-> well_shaped summary)
  /\ (forall d section video_id,
        Py.get "summary" d = Some (JObject section) ->
        Py.has "why_this_matters" section = false ->
        exists errors,
          validate_summary (JObject d) video_id = Some errors
          /\ errors <> []
          /\ "Missing field: why_this_matters" ∈ errors).
Proof.
  split.
  - intros summary video_id. split;
      [apply validate_summary_empty | apply validate_summary_well_shaped].
  - intros d section video_id Hs Hw.
    destruct (validate_summary_names_missing d section video_id
                "why_this_matters" Hs) as (errors & Hv & Hin);
      [unfold REQUIRED_FIELDS; repeat constructor | exact Hw |].
    exists errors. split; [exact Hv|]. split; [|exact Hin].
    intros ->. inversion Hin.
Qed.

Lemma validate_summary_empty_iff_well_shaped_witness :
  let section :=
    [("essence", JString "e"); ("top_takeaways", JArray []);
     ("game_changing_ideas", JArray []); ("things_you_can_do", JArray [])] in
  let d :=
    [("title", JString "t"); ("podcaster", JString "p");
     ("summary", JObject section)] in
  Py.get "summary" d = Some (JObject section)
  /\ Py.has "why_this_matters" section = false
  /\ exists errors,
       validate_summary (JObject d) "v1" = Some errors
       /\ errors <> []
       /\ "Missing field: why_this_matters" ∈ errors.
Proof.
  cbv zeta. split; [reflexivity|]. split; [reflexivity|].
  eapply (proj2 validate_summary_empty_iff_well_shaped); reflexivity.
Defined.

Example validate_summary_missing_why :
  validate_summary
    (JObject [("title", JString "t"); ("podcaster", JString "p");
              ("summary", JObject [("essence", JString "e");
                                   ("top_takeaways", JArray []);
                                   ("game_changing_ideas", JString "x");
                                   ("things_you_can_do", JArray [])])]) "v1"
  = Some ["Missing field: why_this_matters";
          "Field game_changing_ideas is not a list"].
Proof. reflexivity. Qed.

Example validate_summary_section_is_text :
  validate_summary
    (JObject [("title", JString "t"); ("podcaster", JString "p");
              ("summary", JString "essence top_takeaways game_changing_ideas things_you_can_do why_this_matters")]) "v1"
  = None.
Proof. reflexivity. Qed.

(** ** The corrective re-generation call *)

Example call_claude_fix_all_fail :
  call_claude_fix plain (fun _ _ => RequestFails) "x" 0 fresh
  = (JNull, mkFixer 3 0 3 [Post; Sleep 5; Post; Sleep 5; Post]).
Proof. reflexivity. Qed.

Example call_claude_fix_second_answer :
  call_claude_fix plain
    (fun _ k =>
       match k with
       | 1 => Answer 200 (loads (Py.q "{'content': [{'text': 'see {\'a\': 1}'}]}"))
       | _ => Answer 500 None
       end) "x" 0 fresh
  = (JObject [("a", JNumber "1")], mkFixer 2 0 2 [Post; Sleep 5; Post]).
Proof. vm_compute. reflexivity. Qed.

Lemma call_claude_fix_spec rt api raw_text retry_count st :
  retry_count < MAX_RETRIES ->
  exists n,
    1 <= n <= MAX_RETRIES - retry_count
    /\ fixer_attempts (call_claude_fix rt api raw_text retry_count st).2
       = fixer_attempts st + n
    /\ requests (call_claude_fix rt api raw_text retry_count st).2
       = requests st + n
    /\ trace (call_claude_fix rt api raw_text retry_count st).2
       = (trace st ++ attempts_trace (n - 1))%list
    /\ ((forall k, k < MAX_RETRIES - retry_count ->
           attempt rt (requests st + k) (api raw_text (requests st + k)) = Retry) ->
        (call_claude_fix rt api raw_text retry_count st).1 = JNull
        /\ n = MAX_RETRIES - retry_count).
Proof.
  funelim (call_claude_fix rt api raw_text retry_count st); intros Hlt.
  - exists 1. simpl.
    split; [unfold MAX_RETRIES in *; lia|].
    split; [lia|]. split; [lia|]. split; [reflexivity|].
    intros Hall. specialize (Hall 0). rewrite Nat.add_0_r in Hall.
    rewrite Hall in Heq; [discriminate | unfold MAX_RETRIES in *; lia].
  - destruct H as (n & Hn & Ha & Hr & Ht & Hall); [unfold MAX_RETRIES in *; lia|].
    exists (S n). simpl in Ha, Hr, Ht, Hall.
    split; [unfold MAX_RETRIES in *; lia|].
    split; [lia|]. split; [lia|].
    split.
    + rewrite Ht. rewrite <- app_assoc. f_equal.
      simpl. rewrite Nat.sub_0_r. destruct n as [|m]; [lia|].
      simpl. rewrite Nat.sub_0_r. reflexivity.
    + intros Hretry. destruct Hall as [Hres ->].
      * intros k Hk.
        replace (S (requests st + k)) with (requests st + S k) by lia.
        apply Hretry. unfold MAX_RETRIES in *. lia.
      * split; [exact Hres | unfold MAX_RETRIES in *; lia].
  - exists 1. simpl.
    split; [unfold MAX_RETRIES in *; lia|].
    split; [lia|]. split; [lia|]. split; [reflexivity|].
    intros _. split; [reflexivity | unfold MAX_RETRIES in *; lia].
Qed.

(** C8.  A call of [call_claude_fix] from retry count 0 sends between one
    and [MAX_RETRIES] = 3 requests, sleeps [RETRY_DELAY] seconds between
    two consecutive ones and at no other time, and returns; when every
    attempt ends in the retry branch it returns [None] after the third. *)
Theorem call_claude_fix_at_most_three_attempts
    (rt : Runtime) (api : string -> nat -> Response) (raw_text : string)
    (st : Fixer) :
  exists n,
    1 <= n <= 3
    /\ fixer_attempts (call_claude_fix rt api raw_text 0 st).2
       = fixer_attempts st + n
    /\ requests (call_claude_fix rt api raw_text 0 st).2 = requests st + n
    /\ trace (call_claude_fix rt api raw_text 0 st).2
       = (trace st ++ attempts_trace (n - 1))%list
    /\ ((forall k, k < 3 ->
           attempt rt (requests st + k) (api raw_text (requests st + k)) = Retry) ->
        (call_claude_fix rt api raw_text 0 st).1 = JNull /\ n = 3).
Proof.
  destruct (call_claude_fix_spec rt api raw_text 0 st) as (n & Hn & H);
    [unfold MAX_RETRIES; lia|].
  exists n. split; [unfold MAX_RETRIES in Hn; lia | exact H].
Qed.

Lemma call_claude_fix_at_most_three_attempts_witness :
  (forall k, k < 3 ->
     attempt plain (requests fresh + k)
       ((fun _ _ => Answer 503 None) "x" (requests fresh + k)) = Retry)
  /\ (call_claude_fix plain (fun _ _ => Answer 503 None) "x" 0 fresh).1 = JNull
  /\ trace (call_claude_fix plain (fun _ _ => Answer 503 None) "x" 0 fresh).2
     = [Post; Sleep 5; Post; Sleep 5; Post].
Proof.
  destruct (call_claude_fix_at_most_three_attempts plain
              (fun _ _ => Answer 503 None) "x" fresh)
    as (n & _ & _ & _ & Ht & Hall).
  assert (Hretry : forall k, k < 3 ->
            attempt plain (requests fresh + k)
       ((fun _ _ => Answer 503 None) "x" (requests fresh + k))
            = Retry) by (intros; reflexivity).
  destruct (Hall Hretry) as [Hres ->].
  split; [exact Hretry|]. split; [exact Hres | exact Ht].
Defined.

(** ** The summary status store *)

Lemma load_summary_status_fresh w :
  (forall data, summary_status_file w = Some data -> st_date data <> today w) ->
  load_summary_status w
  = (fresh_status (today w),
     (write_summary_status (fresh_status (today w)) w).2).
Proof.
  intros Hdate. unfold load_summary_status, mbind, io_bind, read. simpl.
  destruct (summary_status_file w) as [data|] eqn:Hfile; [|reflexivity].
  specialize (Hdate data eq_refl).
  destruct (String.eqb (st_date data) (today w)) eqn:Heq.
  - apply String.eqb_eq in Heq. contradiction.
  - reflexivity.
Qed.

Lemma load_summary_status_same w data :
  summary_status_file w = Some data -> st_date data = today w ->
  load_summary_status w = (data, w).
Proof.
  intros Hfile Hdate. unfold load_summary_status, mbind, io_bind, read. simpl.
  rewrite Hfile. rewrite Hdate, String.eqb_refl. reflexivity.
Qed.


Lemma load_summary_status_after w :
  let status := (load_summary_status w).1 in
  let w' := (load_summary_status w).2 in
  summary_status_file w' = Some status
  /\ st_date status = today w
  /\ today w' = today w
  /\ processing_queue_file w' = processing_queue_file w
  /\ seen_videos_file w' = seen_videos_file w
  /\ daily_log_file w' = daily_log_file w
  /\ summaries_dir w' = summaries_dir w
  /\ now_iso w' = now_iso w.
Proof.
  unfold load_summary_status, mbind, io_bind, read. simpl.
  destruct (summary_status_file w) as [data|] eqn:Hf;
    [destruct (String.eqb (st_date data) (today w)) eqn:Heq|]; simpl;
    repeat split; try reflexivity; try exact Hf.
  apply String.eqb_eq. exact Heq.
Qed.

(** C10.  Loading the status store when its recorded date is not today's
    resets it: the file then holds today's date and five empty lists, the
    load returns that, and the selection of unposted summaries, which
    loads the store, filters nothing out. *)
Theorem summary_status_reset_on_date_change (w : World) (data : SummaryStatus) :
  summary_status_file w = Some data ->
  st_date data <> today w ->
  let status := (load_summary_status w).1 in
  let w' := (load_summary_status w).2 in
  summary_status_file w' = Some status
  /\ st_date status = today w
  /\ st_pending status = []
  /\ st_batched status = []
  /\ st_completed status = []
  /\ st_failed status = []
  /\ st_posted status = []
  /\ (get_unposted_summaries w).1 = (get_summary_files w).1.
Proof.
  intros Hfile Hdate. cbv zeta.
  assert (Hload : load_summary_status w
                  = (fresh_status (today w),
                     (write_summary_status (fresh_status (today w)) w).2)).
  { apply load_summary_status_fresh. intros d Hd. congruence. }
  rewrite Hload. simpl. repeat (split; [reflexivity|]).
  unfold get_unposted_summaries, mbind, io_bind.
  unfold get_summary_files at 1. unfold mbind, io_bind, read, mret, io_ret.
  rewrite Hload. simpl.
  unfold get_summary_files, mbind, io_bind, read, mret, io_ret. simpl.
  induction (omap _ (summaries_dir w)) as [|x l IH]; [reflexivity|].
  simpl. rewrite IH. reflexivity.
Qed.

Lemma summary_status_reset_on_date_change_witness :
  st_posted (load_summary_status yesterday_world).1 = []
  /\ (get_unposted_summaries yesterday_world).1 = [("v1", "v1_Chan.json")].
Proof.
  destruct (summary_status_reset_on_date_change yesterday_world
              (mkStatus "2025-05-01" [] ["b"] ["v1"] ["f"] ["v1"]))
    as (_ & _ & _ & _ & _ & _ & Hposted & Hunposted).
  - reflexivity.
  - simpl. discriminate.
  - split; [exact Hposted|]. rewrite Hunposted. reflexivity.
Defined.

(** Membership tests against their propositions. *)

Lemma mem_elem_of x l : Py.mem x l = true <-> x ∈ l.
Proof.
  unfold Py.mem. rewrite existsb_exists. split.
  - intros (y & Hin & Heq). apply String.eqb_eq in Heq as ->.
    apply list_elem_of_In. exact Hin.
  - intros Hin. exists x. split; [apply list_elem_of_In; exact Hin|].
    apply String.eqb_refl.
Qed.

Lemma omap_length_le {A B} (f : A -> option B) (l : list A) :
  length (omap f l) <= length l.
Proof.
  induction l as [|x l IH]; [reflexivity|].
  change (omap f (x :: l))
    with (match f x with Some y => y :: omap f l | None => omap f l end).
  destruct (f x); simpl; lia.
Qed.

(** ** Batches *)

Lemma load_processing_queue_reads w : (load_processing_queue w).2 = w.
Proof. reflexivity. Qed.

Lemma elem_of_list_set x l : x ∈ Py.list_set l <-> x ∈ l.
Proof.
  unfold Py.list_set. rewrite elem_of_elements. apply elem_of_list_to_set.
Qed.

Lemma NoDup_list_set l : NoDup (Py.list_set l).
Proof. unfold Py.list_set. apply NoDup_elements. Qed.

(** C3, as stated, fails: with two items pending, [get_next_batch] returns
    them and removes nothing from the pending list, nor does it mark
    anything batched. *)
Lemma get_next_batch_counterexample :
  map b_id (get_next_batch two_pending).1 = ["v1"; "v2"]
  /\ processing_queue_file (get_next_batch two_pending).2
     = processing_queue_file two_pending
  /\ length (load_processing_queue (get_next_batch two_pending).2).1 = 2
  /\ st_batched (load_summary_status (get_next_batch two_pending).2).1 = [].
Proof. repeat split; reflexivity. Qed.

(** C3, as amended.  [get_next_batch] only reads: it leaves every file as
    it is, and returns the normalised form of the first [MAX_BATCH_SIZE]
    = 5 entries of the pending list, oldest first and at most five, or
    nothing when fewer than [MIN_BATCH_SIZE] = 2 are pending.  The batch
    is marked by [mark_as_batched], which [process_batch] calls first:
    afterwards every id of the batch is in the batched list and the
    pending list is still untouched; the entries leave the pending list
    when [remove_from_queue] is given their ids. *)
Theorem get_next_batch_reads_only (w : World) :
  let queue := (load_processing_queue w).1 in
  (get_next_batch w).2 = w
  /\ (get_next_batch w).1
     = (if Nat.ltb (length queue) 2 then []
        else omap (normalize (now_iso w)) (take 5 queue))
  /\ length (get_next_batch w).1 <= 5
  /\ (forall batch item,
        item ∈ batch ->
        b_id item ∈ st_batched (load_summary_status (mark_as_batched batch w).2).1
        /\ processing_queue_file (mark_as_batched batch w).2
           = processing_queue_file w)
  /\ (forall video_ids item,
        item ∈ (load_processing_queue (remove_from_queue video_ids w).2).1 ->
        forall video_id, removal_id item = Some video_id ->
                         video_id ∉ video_ids).
Proof.
  cbv zeta.
  assert (Hnext : get_next_batch w
     = (if Nat.ltb (length (load_processing_queue w).1) 2 then []
        else omap (normalize (now_iso w)) (take 5 (load_processing_queue w).1),
        w)).
  { unfold get_next_batch, mbind, io_bind, read, mret, io_ret.
    pose proof (load_processing_queue_reads w) as Hw.
    destruct (load_processing_queue w) as [queue w1]. cbn [fst snd] in *.
    subst w1. change MIN_BATCH_SIZE with 2. change MAX_BATCH_SIZE with 5.
    destruct (Nat.ltb (length queue) 2); [reflexivity|].
    f_equal. f_equal.
    destruct (Nat.le_ge_cases 5 (length queue)) as [H|H].
    - rewrite Nat.min_l by exact H. reflexivity.
    - rewrite Nat.min_r by exact H. rewrite !take_ge by lia. reflexivity. }
  rewrite Hnext. cbn [fst snd].
  split; [reflexivity|]. split; [reflexivity|].
  split.
  { destruct (Nat.ltb _ 2); [simpl; lia|].
    etransitivity; [apply omap_length_le|]. rewrite length_take. lia. }
  split.
  - intros batch item Hitem.
    unfold mark_as_batched, mbind, io_bind.
    pose proof (load_summary_status_after w) as Hafter. cbv zeta in Hafter.
    destruct (load_summary_status w) as [status w1]. cbn [fst snd] in *.
    destruct Hafter as (_ & Hdate & Htoday & Hqueue & _).
    unfold save_summary_status, write_summary_status. cbn [fst snd].
    split; [|exact Hqueue].
    erewrite load_summary_status_same; [| reflexivity |].
    + cbn [fst st_batched]. apply elem_of_list_set. apply elem_of_app. right.
      apply (list_elem_of_fmap_2 b_id). exact Hitem.
    + cbn [st_date today]. rewrite Hdate. symmetry. exact Htoday.
  - intros video_ids item Hitem video_id Hid Hin.
    unfold remove_from_queue, mbind, io_bind in Hitem.
    pose proof (load_processing_queue_reads w) as Hw.
    destruct (load_processing_queue w) as [queue w1]. cbn [fst snd] in *.
    subst w1. unfold save_processing_queue, write_processing_queue in Hitem.
    cbn in Hitem.
    apply list_elem_of_In, filter_In in Hitem as [_ Hkeep].
    rewrite Hid in Hkeep. apply negb_true_iff in Hkeep.
    assert (Py.mem video_id video_ids = true); [|congruence].
    apply mem_elem_of. exact Hin.
Qed.

Lemma get_next_batch_reads_only_witness :
  (get_next_batch two_pending).2 = two_pending
  /\ "v2" ∈ st_batched
       (load_summary_status
          (mark_as_batched (get_next_batch two_pending).1 two_pending).2).1.
Proof.
  destruct (get_next_batch_reads_only two_pending) as (Hread & _ & _ & Hmark & _).
  split; [exact Hread|].
  apply (Hmark (get_next_batch two_pending).1
           (mkBatchItem "v2"
              [("channel", JString "Unknown"); ("title", JString "Video v2");
               ("text", JString ""); ("found_at", JString "2025-05-02T08:00:00")])).
  apply list_elem_of_In. simpl. right. left. reflexivity.
Defined.

(** ** Artifact names *)

Lemma rev_append_app s : forall acc,
  Py.rev_append s acc = Py.rev_append s EmptyString +:+ acc.
Proof.
  induction s as [|c s IH]; intros acc; [reflexivity|].
  cbn [Py.rev_append]. rewrite IH. rewrite (IH (String c EmptyString)).
  rewrite append_assoc_string. reflexivity.
Qed.

Lemma rev_rev_append s : forall acc,
  Py.rev (Py.rev_append s acc) = Py.rev acc +:+ s.
Proof.
  unfold Py.rev. induction s as [|c s IH]; intros acc.
  - cbn [Py.rev_append]. symmetry. apply append_empty_string.
  - cbn [Py.rev_append]. rewrite IH. cbn [Py.rev_append].
    rewrite (rev_append_app acc). rewrite append_assoc_string. reflexivity.
Qed.

Lemma split_first_piece id : forall cur rest,
  Py.contains "_" id = false ->
  exists pieces,
    Py.split_aux "_" 0 cur (id +:+ String "_" rest)
    = Py.rev (Py.rev_append id cur) :: pieces.
Proof.
  induction id as [|c id IH]; intros cur rest Hno.
  - simpl. eexists. reflexivity.
  - simpl in Hno. apply orb_false_iff in Hno as [Hc Hno].
    simpl. rewrite Hc. apply IH. exact Hno.
Qed.

Lemma video_id_of_filename_plain video_id channel :
  Py.contains "_" video_id = false ->
  video_id_of_filename (summary_filename video_id channel) = video_id.
Proof.
  intros Hno. unfold video_id_of_filename, summary_filename, Py.split.
  destruct (split_first_piece video_id EmptyString
              (sanitize channel +:+ ".json") Hno) as [pieces Hs].
  change ("_" +:+ sanitize channel +:+ ".json")
    with (String "_" (sanitize channel +:+ ".json")).
  rewrite Hs. rewrite rev_rev_append. reflexivity.
Qed.

Lemma contains_underscore_cons c s :
  Py.contains "_" (String c s) = Ascii.eqb "_" c || Py.contains "_" s.
Proof.
  cbn [Py.contains Py.startswith]. rewrite andb_true_r. reflexivity.
Qed.

Lemma first_underscore id :
  Py.contains "_" id = true ->
  exists pre post,
    id = pre +:+ String "_" post /\ Py.contains "_" pre = false.
Proof.
  induction id as [|c id IH]; intros H; [discriminate|].
  rewrite contains_underscore_cons in H.
  destruct (Ascii.eqb "_" c) eqn:Hc.
  - apply Ascii.eqb_eq in Hc as <-. exists EmptyString, id.
    split; reflexivity.
  - simpl in H. destruct (IH H) as (pre & post & -> & Hpre).
    exists (String c pre), post. split; [reflexivity|].
    rewrite contains_underscore_cons, Hc. exact Hpre.
Qed.

(** X1.  The id read back from an artifact's name is the original one exactly
    when the id holds no underscore. *)
Lemma video_id_of_filename_iff video_id channel :
  video_id_of_filename (summary_filename video_id channel) = video_id
  <-> Py.contains "_" video_id = false.
Proof.
  split; [|apply video_id_of_filename_plain].
  intros Hback. destruct (Py.contains "_" video_id) eqn:Hc; [|reflexivity].
  exfalso. destruct (first_underscore video_id Hc) as (pre & post & -> & Hpre).
  unfold video_id_of_filename, summary_filename, Py.split in Hback.
  rewrite append_assoc_string, append_cons_string in Hback.
  change ("_" +:+ sanitize channel +:+ ".json")
    with (String "_" (sanitize channel +:+ ".json")) in Hback.
  destruct (split_first_piece pre EmptyString
              (post +:+ String "_" (sanitize channel +:+ ".json")) Hpre)
    as [pieces Hs].
  rewrite Hs in Hback. rewrite rev_rev_append in Hback.
  change (Py.rev EmptyString +:+ pre) with pre in Hback.
  apply (f_equal String.length) in Hback.
  rewrite append_length_string in Hback. simpl in Hback. lia.
Qed.

(** C9 fails on an id that holds an underscore, as the ids of the video
    platform may: the artifact of [x_Yz0AbCdEf] is written to
    [x_Yz0AbCdEf_Lex_Fridman.json], and the scan of the artifact store
    reads the id [x] from that name. *)
Theorem artifact_id_with_underscore :
  summary_filename "x_Yz0AbCdEf" "Lex Fridman" = "x_Yz0AbCdEf_Lex_Fridman.json"
  /\ video_id_of_filename (summary_filename "x_Yz0AbCdEf" "Lex Fridman") = "x"
  /\ (get_summary_files
        (mkWorld "2025-05-02" "2025-05-02T08:00:00" "2025-05-02 08:00:00"
           (QueueObject (Some [])) (Some (fresh_status "2025-05-02")) (Some ∅)
           LogMissing
           [(summary_filename "x_Yz0AbCdEf" "Lex Fridman", Some (JObject []))])).1
     = [("x", "x_Yz0AbCdEf_Lex_Fridman.json")].
Proof. repeat split; reflexivity. Qed.

(** ** The pending list *)

Lemma any_pending_dicts video_id pending :
  Forall is_dict pending ->
  any_pending video_id pending
  = Some (bool_decide (video_id ∈ pending_ids pending)).
Proof.
  induction pending as [|item pending IH]; intros Hall; [reflexivity|].
  inversion Hall as [|? ? Hd Hrest]; subst.
  destruct item as [v| |]; try contradiction. simpl.
  destruct (decide (v_id v = Some video_id)) as [Heq|Hne].
  - rewrite Heq. simpl. rewrite bool_decide_eq_true_2; [reflexivity|left].
  - rewrite (IH Hrest). f_equal. apply bool_decide_ext.
    destruct (v_id v) as [other|]; [|reflexivity].
    rewrite elem_of_cons. split; [tauto|].
    intros [->|H]; [congruence | exact H].
Qed.

Lemma pending_ids_app pending video video_id :
  v_id video = Some video_id ->
  pending_ids (pending ++ [ItemDict video]) = pending_ids pending ++ [video_id].
Proof.
  intros Hid. unfold pending_ids. rewrite omap_app. simpl. rewrite Hid.
  reflexivity.
Qed.

(** C4, as stated, fails: [add_to_pending] adds an id that is absent from
    the pending list although the seen videos hold it as done and the
    status store as batched. *)
Lemma add_to_pending_counterexample :
  "v1" ∈ dom (get_seen_videos seen_v1).1
  /\ "v1" ∈ st_batched (load_summary_status seen_v1).1
  /\ (add_to_pending (mkVideo (Some "v1") []) seen_v1).1 = true
  /\ processing_queue_file (add_to_pending (mkVideo (Some "v1") []) seen_v1).2
     = QueueObject (Some [ItemDict (mkVideo (Some "v1") [])]).
Proof.
  split; [apply elem_of_dom; eexists; apply lookup_singleton_eq|].
  split; [simpl; left|]. split; reflexivity.
Qed.

(** C4, as amended.  On a pending list of dictionaries, [add_to_pending]
    adds the item exactly when no pending entry has its id, whatever the
    batched list and the seen videos hold (its caller filters the new
    videos against the seen ids first), and returns whether it added it;
    it touches no other file.  Adding the same item again adds nothing,
    and an id that was absent is then pending exactly once. *)
Theorem add_to_pending_checks_pending_only
    (w : World) (video : Video) (video_id : string) (pending : list Item) :
  processing_queue_file w = QueueObject (Some pending) ->
  v_id video = Some video_id ->
  Forall is_dict pending ->
  let first := add_to_pending video w in
  let second := add_to_pending video first.2 in
  first.1 = negb (bool_decide (video_id ∈ pending_ids pending))
  /\ processing_queue_file first.2
     = QueueObject (Some (if first.1 then pending ++ [ItemDict video]
                          else pending))
  /\ summary_status_file first.2 = summary_status_file w
  /\ seen_videos_file first.2 = seen_videos_file w
  /\ second.1 = false
  /\ second.2 = first.2
  /\ (video_id ∉ pending_ids pending ->
      forall final, processing_queue_file second.2 = QueueObject (Some final) ->
                    count_occ string_dec (pending_ids final) video_id = 1).
Proof.
  intros Hfile Hid Hdicts. cbv zeta.
  assert (Hfirst : add_to_pending video w
     = if bool_decide (video_id ∈ pending_ids pending) then (false, w)
       else (true,
             (write_processing_queue
                (QueueObject (Some (pending ++ [ItemDict video]))) w).2)).
  { unfold add_to_pending, mbind, io_bind, read. simpl.
    rewrite Hfile, Hid. simpl. rewrite (any_pending_dicts _ _ Hdicts).
    destruct (bool_decide _); reflexivity. }
  rewrite Hfirst.
  destruct (bool_decide (video_id ∈ pending_ids pending)) eqn:Hin.
  - cbn [fst snd]. rewrite Hfirst. cbn [fst snd negb].
    apply bool_decide_eq_true_1 in Hin.
    repeat (split; [first [reflexivity | exact Hfile]|]).
    intros Hnot. contradiction.
  - apply bool_decide_eq_false_1 in Hin. cbn [fst snd negb].
    assert (Hsecond : add_to_pending video
              (write_processing_queue
                 (QueueObject (Some (pending ++ [ItemDict video]))) w).2
            = (false,
               (write_processing_queue
                  (QueueObject (Some (pending ++ [ItemDict video]))) w).2)).
    { unfold add_to_pending, mbind, io_bind, read. simpl. rewrite Hid. simpl.
      rewrite any_pending_dicts.
      - rewrite (pending_ids_app _ _ _ Hid).
        rewrite bool_decide_eq_true_2; [reflexivity|].
        apply elem_of_app. right. left.
      - apply Forall_app. split; [exact Hdicts|].
        apply List.Forall_cons; [exact I | apply List.Forall_nil]. }
    rewrite Hsecond. cbn [fst snd].
    repeat (split; [reflexivity|]).
    intros _ final [= <-]. rewrite (pending_ids_app _ _ _ Hid).
    rewrite count_occ_app. simpl.
    destruct (string_dec video_id video_id); [|congruence].
    rewrite (proj1 (count_occ_not_In string_dec _ _)); [reflexivity|].
    intros HIn. apply Hin. apply list_elem_of_In. exact HIn.
Qed.

Lemma add_to_pending_checks_pending_only_witness :
  let video := mkVideo (Some "v1") [] in
  (add_to_pending video seen_v1).1 = true
  /\ (add_to_pending video (add_to_pending video seen_v1).2).1 = false
  /\ count_occ string_dec (pending_ids [ItemDict video]) "v1" = 1.
Proof.
  cbv zeta.
  destruct (add_to_pending_checks_pending_only seen_v1
              (mkVideo (Some "v1") []) "v1" [] eq_refl eq_refl
              (List.Forall_nil _)) as (Hfirst & _ & _ & _ & Hsecond & _ & Honce).
  split; [exact Hfirst|]. split; [exact Hsecond|].
  apply Honce; [intros H; inversion H | reflexivity].
Defined.

(** ** Delivery: what is skipped *)

(** C2, as stated, fails: the ledger records [v1] as delivered to twitter,
    and the next day's invocation, without the force flag, delivers it to
    twitter again; the daily log it consults was reset with the date. *)
Lemma dedup_counterexample :
  (s_posted_to <$> (load_seen_videos day_two).1 !! "v1") = Some (Some ["twitter"])
  /\ (_should_post_to_platform "v1" "twitter" false
        (init_scheduler day_two).2).1 = true
  /\ ("v1", "twitter")
       ∈ deliveries
           ((init_scheduler;;
             post_unposted_summaries DEFAULT_PLATFORMS obliging false)
              day_two).1.
Proof.
  split; [vm_compute; reflexivity|]. split; [vm_compute; reflexivity|].
  apply list_elem_of_In. vm_compute. left. reflexivity.
Qed.

(** The decision to post, without the force flag: a pair is skipped
    exactly when the log file lists the video under the platform, and its
    turn then counts the platform as attempted and makes no delivery
    call. *)
Lemma should_post_from_daily_log
    (collaborators : Collaborators) (w : World) (video_id platform : string) :
  _should_post_to_platform video_id platform false w
  = (negb (bool_decide
             (video_id ∈ default [] ((_get_posted_videos w).1 !! platform))), w)
  /\ (forall w',
        daily_log_file w' = daily_log_file w ->
        (_should_post_to_platform video_id platform false w').1
        = (_should_post_to_platform video_id platform false w).1)
  /\ (forall data socialbu_authenticated telegram_operational file_name
             summary_data cy,
        daily_log_file w = LogData data ->
        video_id ∈ default [] (log_posted data !! platform) ->
        platform_turn collaborators false socialbu_authenticated
          telegram_operational video_id file_name summary_data platform cy w
        = ((attempted video_id platform cy, None), w)).
Proof.
  assert (Hdec : forall w0,
    _should_post_to_platform video_id platform false w0
    = (negb (bool_decide
               (video_id ∈ default [] ((_get_posted_videos w0).1 !! platform))),
       w0)).
  { intros w0. unfold _should_post_to_platform, mbind, io_bind. simpl.
    unfold mret, io_ret. f_equal. f_equal.
    destruct (Py.mem video_id _) eqn:Hm.
    - symmetry. apply bool_decide_eq_true_2. apply mem_elem_of. exact Hm.
    - symmetry. apply bool_decide_eq_false_2. rewrite <- mem_elem_of.
      congruence. }
  split; [apply Hdec|]. split.
  - intros w' Hlog. rewrite !Hdec. simpl.
    unfold _get_posted_videos, mbind, io_bind, read. simpl. rewrite Hlog.
    reflexivity.
  - intros data auth tg file_name summary_data cy Hlog Hin.
    unfold platform_turn, mbind, io_bind. rewrite Hdec. simpl.
    unfold _get_posted_videos, mbind, io_bind, read. simpl. rewrite Hlog.
    simpl. rewrite bool_decide_eq_true_2 by exact Hin. reflexivity.
Qed.

(** ** Delivery: the completion policy *)


Lemma append_new_fold ids : forall posted x,
  x ∈ fold_left (fun posted vid_id => append_new vid_id posted) ids posted
  <-> x ∈ posted \/ x ∈ ids.
Proof.
  induction ids as [|y ids IH]; intros posted x; simpl.
  - split; [tauto | intros [H|H]; [exact H | inversion H]].
  - rewrite IH. unfold append_new. destruct (Py.mem y posted) eqn:Hm.
    + apply mem_elem_of in Hm. rewrite elem_of_cons.
      split; [tauto | intros [H|[->|H]]; tauto].
    + rewrite elem_of_app, !elem_of_cons, elem_of_nil. tauto.
Qed.



(** ** Delivery: the destinations recorded in the ledger *)

(** C7 fails on the code.  The ledger records [v1] as posted to twitter;
    a cycle then attempts the three platforms for it and posts it to
    telegram.  [_update_queue_manager_status] first stores both
    destinations in the entry, then, the video being fully processed, calls
    [mark_as_posted], whose [_update_seen_videos] replaces the entry by a
    new one without [posted_to]: the destinations are lost. *)
Theorem posted_to_lost_when_fully_processed :
  let posted := [("twitter", []); ("facebook", []); ("telegram", ["v1"])] in
  let attempts :=
    [("v1", ({["twitter"; "facebook"; "telegram"]} : gset string))] in
  let w' :=
    (_update_queue_manager_status DEFAULT_PLATFORMS posted attempts day_two).2 in
  (s_posted_to <$> (load_seen_videos day_two).1 !! "v1")
  = Some (Some ["twitter"])
  /\ (s_posted_to <$> (load_seen_videos w').1 !! "v1") = Some None
  /\ (s_status <$> (load_seen_videos w').1 !! "v1") = Some (Some "posted").
Proof. cbv zeta. repeat split; vm_compute; reflexivity. Qed.

(** * Further properties of the modelled code *)

(** ** Extraction *)

Lemma append_parsed_Some exceeds text res out :
  append_parsed exceeds text res = Some out ->
  exceeds text = false /\ out = res ++ omap loads [text].
Proof.
  intros H. destruct (exceeds text) eqn:Hlim.
  - apply append_parsed_None with (res := res) in Hlim. congruence.
  - rewrite (append_parsed_within _ _ _ Hlim) in H. injection H as <-.
    split; reflexivity.
Qed.

Lemma collect_Some exceeds texts : forall res out,
  collect exceeds texts res = Some out ->
  within exceeds texts /\ out = res ++ omap loads texts.
Proof.
  intros res out H.
  assert (Hall : within exceeds texts).
  { apply Forall_forall. intros text Hin.
    destruct (exceeds text) eqn:Hlim; [|reflexivity].
    assert (Hnone : collect exceeds texts res = None).
    { apply collect_None. apply List.Exists_exists. exists text.
      split; [apply list_elem_of_In; exact Hin|exact Hlim]. }
    congruence. }
  split; [exact Hall|]. rewrite (collect_within _ _ _ Hall) in H. congruence.
Qed.

Lemma delimiter_loop_collect exceeds parts : forall results,
  delimiter_loop exceeds parts results
  = collect exceeds
      (List.filter (fun cleaned => negb (String.eqb cleaned EmptyString))
         (map Py.strip parts)) results.
Proof.
  induction parts as [|part parts IH]; intros results; [reflexivity|].
  cbn [delimiter_loop map List.filter].
  destruct (Py.strip part) as [|c cleaned].
  - cbn. apply IH.
  - cbn [String.eqb negb collect].
    destruct (append_parsed exceeds (String c cleaned) results) as [res|];
      cbn [mbind option_bind]; [apply IH|reflexivity].
Qed.

(** X2.  With the sentinel in the text, the parts between sentinels that
    are not blank are decoded in turn, stripped.  When the decoder raises
    on one of them an exception other than a decoding error, the
    extraction raises it; otherwise, as soon as one part decodes, the
    records are the parts that decode, in order, and the brace scans are
    not consulted. *)
Theorem extract_json_objects_by_delimiter (exceeds : Limits) (text : string) :
  Py.contains SENTINEL text = true ->
  (Exists (fun part => exceeds part = true) (cleaned_parts text) ->
   extract_json_objects exceeds text = None)
  /\ (within exceeds (cleaned_parts text) ->
      omap loads (cleaned_parts text) <> [] ->
      extract_json_objects exceeds text
      = Some (omap loads (cleaned_parts text))).
Proof.
  intros Hsent. unfold extract_json_objects. rewrite Hsent.
  rewrite delimiter_loop_collect. fold (cleaned_parts text). split.
  - intros Hex. apply (collect_None exceeds _ []) in Hex. rewrite Hex.
    reflexivity.
  - intros Hall Hsome. rewrite (collect_within _ _ _ Hall).
    cbn [app mbind option_bind].
    destruct (omap loads (cleaned_parts text)); [contradiction|reflexivity].
Qed.

Lemma extract_json_objects_by_delimiter_witness :
  extract_json_objects (roomy 1000)
    (Py.q "{'a':1}" +:+ "--- END OF SUMMARY ---" +:+ Py.q " [2] "
     +:+ "--- END OF SUMMARY ---" +:+ "oops")
  = Some [JObject [("a", JNumber "1")]; JArray [JNumber "2"]]
  /\ extract_json_objects (roomy 4)
       (Py.q "{'a':1}" +:+ "--- END OF SUMMARY ---" +:+ Py.q " [2] "
        +:+ "--- END OF SUMMARY ---" +:+ "oops")
     = None.
Proof.
  split.
  - destruct (extract_json_objects_by_delimiter (roomy 1000)
                (Py.q "{'a':1}" +:+ "--- END OF SUMMARY ---" +:+ Py.q " [2] "
                 +:+ "--- END OF SUMMARY ---" +:+ "oops")) as [_ H];
      [vm_compute; reflexivity|].
    rewrite H.
    + vm_compute. reflexivity.
    + apply Forall_forall. intros part Hin.
      apply list_elem_of_In in Hin. vm_compute in Hin.
      destruct Hin as [<-|[<-|[<-|[]]]]; reflexivity.
    + vm_compute. discriminate.
  - destruct (extract_json_objects_by_delimiter (roomy 4)
                (Py.q "{'a':1}" +:+ "--- END OF SUMMARY ---" +:+ Py.q " [2] "
                 +:+ "--- END OF SUMMARY ---" +:+ "oops")) as [H _];
      [vm_compute; reflexivity|].
    apply H. apply List.Exists_exists. exists (Py.q "{'a':1}").
    split; [vm_compute; left; reflexivity|reflexivity].
Defined.

Lemma extract_json_objects_within (exceeds : Limits) (text : string) :
  Py.contains SENTINEL text = false ->
  within exceeds (spans text) ->
  extract_json_objects exceeds text
  = match omap loads (spans text) with
    | [] => parse_robust_json exceeds text
    | (_ :: _) as objs => Some objs
    end.
Proof.
  intros Hsent Hall. rewrite (extract_json_objects_no_sentinel _ _ Hsent).
  rewrite (collect_within _ _ _ Hall). cbn [app mbind option_bind].
  destruct (omap loads (spans text)); reflexivity.
Qed.

(** X3.  Without the sentinel, the top-level balanced spans are decoded
    in turn.  When the decoder raises on one of them an exception other
    than a decoding error, the extraction raises it and every record is
    lost; otherwise the records are those of the spans that decode, each
    on its own, so that a malformed span costs no other record, and the
    aggressive scan is used only when no span decodes. *)
Theorem extract_json_objects_by_spans (exceeds : Limits) (text : string) :
  Py.contains SENTINEL text = false ->
  (Exists (fun s => exceeds s = true) (spans text) ->
   extract_json_objects exceeds text = None)
  /\ (within exceeds (spans text) ->
      extract_json_objects exceeds text
      = match omap loads (spans text) with
        | [] => parse_robust_json exceeds text
        | (_ :: _) as objs => Some objs
        end
      /\ forall s v, s ∈ spans text -> loads s = Some v ->
           exists objs, extract_json_objects exceeds text = Some objs
                        /\ v ∈ objs).
Proof.
  intros Hsent. rewrite (extract_json_objects_no_sentinel _ _ Hsent). split.
  - intros Hex. apply (collect_None exceeds _ []) in Hex. rewrite Hex.
    reflexivity.
  - intros Hall. rewrite (collect_within _ _ _ Hall).
    cbn [app mbind option_bind].
    split; [destruct (omap loads (spans text)); reflexivity|].
    intros s v Hs Hv.
    assert (Hin : v ∈ omap loads (spans text)).
    { apply list_elem_of_omap. exists s. split; assumption. }
    destruct (omap loads (spans text)) as [|obj objs]; [inversion Hin|].
    exists (obj :: objs). split; [reflexivity|exact Hin].
Qed.

Lemma extract_json_objects_by_spans_witness :
  extract_json_objects (roomy 1000) (Py.q "{'a':1,} noise {'b':2} {")
  = Some [JObject [("b", JNumber "2")]]
  /\ extract_json_objects (roomy 7) (Py.q "{'a':1,} noise {'b':2} {") = None.
Proof.
  split.
  - destruct (extract_json_objects_by_spans (roomy 1000)
                (Py.q "{'a':1,} noise {'b':2} {")) as [_ H];
      [vm_compute; reflexivity|].
    destruct H as [Heq _].
    + apply Forall_forall. intros s Hin.
      apply list_elem_of_In in Hin. vm_compute in Hin.
      destruct Hin as [<-|[<-|[]]]; reflexivity.
    + rewrite Heq. vm_compute. reflexivity.
  - destruct (extract_json_objects_by_spans (roomy 7)
                (Py.q "{'a':1,} noise {'b':2} {")) as [H _];
      [vm_compute; reflexivity|].
    apply H. apply List.Exists_exists. exists (Py.q "{'a':1,}").
    split; [vm_compute; left; reflexivity|reflexivity].
Defined.

Lemma omap_loads_repaired texts :
  omap loads (map fix_common_json_errors texts) = omap repaired texts.
Proof.
  induction texts as [|text texts IH]; [reflexivity|].
  cbn [map]. cbn. unfold repaired at 1. rewrite IH. reflexivity.
Qed.

(** X4.  The aggressive scan, on a text where no closing brace comes
    without its opening one, repairs each top-level span and decodes it on
    its own: it raises when the decoder raises on a repaired span an
    exception other than a decoding error, and otherwise returns the
    records of the repaired spans that decode, in order. *)
Theorem parse_robust_json_by_spans (exceeds : Limits) (text : string) :
  unmatched_close text 0 = false ->
  (Exists (fun s => exceeds (fix_common_json_errors s) = true) (spans text) ->
   parse_robust_json exceeds text = None)
  /\ (within exceeds (map fix_common_json_errors (spans text)) ->
      parse_robust_json exceeds text = Some (omap repaired (spans text))).
Proof.
  intros Hun. rewrite (parse_robust_json_collect _ _ Hun). split.
  - intros Hex. apply collect_None. apply List.Exists_exists.
    apply List.Exists_exists in Hex as (s & Hin & Hlim).
    exists (fix_common_json_errors s). split; [|exact Hlim].
    apply in_map. exact Hin.
  - intros Hall. rewrite (collect_within _ _ _ Hall), omap_loads_repaired.
    reflexivity.
Qed.

Lemma parse_robust_json_by_spans_witness :
  parse_robust_json (roomy 1000)
    (Py.q "x {a: 1, 'b': [1, 2, ],} y {'c': {'d': 2}} {")
  = Some [JObject [("a", JNumber "1");
                   ("b", JArray [JNumber "1"; JNumber "2"])];
          JObject [("c", JObject [("d", JNumber "2")])]].
Proof.
  destruct (parse_robust_json_by_spans (roomy 1000)
              (Py.q "x {a: 1, 'b': [1, 2, ],} y {'c': {'d': 2}} {"))
    as [_ H]; [vm_compute; reflexivity|].
  rewrite H.
  - vm_compute. reflexivity.
  - apply Forall_forall. intros s Hin.
    apply list_elem_of_In in Hin. vm_compute in Hin.
    destruct Hin as [<-|[<-|[]]]; reflexivity.
Defined.

Lemma repaired_span_object cur c v :
  opens_brace cur ->
  loads (fix_common_json_errors (push cur c)) = Some v -> is_object v.
Proof.
  intros [r ->] Hv.
  assert (Hopen : opens_brace (push (String "{" r) c)) by (eexists; reflexivity).
  destruct (fix_common_json_errors_open _ Hopen) as [r' Hr'].
  rewrite Hr' in Hv. eapply loads_brace. exact Hv.
Qed.

Lemma robust_step_objects exceeds st c st' :
  robust_step exceeds st c = Some st' ->
  (in_object st = true -> opens_brace (current st)) ->
  Forall is_object (results st) ->
  (in_object st' = true -> opens_brace (current st'))
  /\ Forall is_object (results st').
Proof.
  destruct st as [cur cnt capturing res]. cbn [in_object current results].
  intros Hstep Hcur Hres. unfold robust_step in Hstep.
  cbn [in_object current results brace_count] in Hstep.
  assert (Hpush : capturing = true -> opens_brace (push cur c)).
  { intros Hc. destruct (Hcur Hc) as [r ->]. eexists. reflexivity. }
  destruct (Py.byte c 123) eqn:Hopen.
  - rewrite (open_not_close c Hopen) in Hstep.
    destruct (Z.eqb cnt 0); cbn [in_object current results brace_count] in Hstep.
    + injection Hstep as <-. cbn [in_object current results].
      split; [intros _|exact Hres].
      apply byte_eq in Hopen. subst c. eexists. reflexivity.
    + destruct capturing; cbn [in_object current results brace_count] in Hstep;
        injection Hstep as <-; cbn [in_object current results];
        (split; [|exact Hres]); [intros _; apply Hpush; reflexivity | intros [=]].
  - destruct capturing; cbn [in_object current results brace_count] in Hstep.
    + destruct (Py.byte c 125);
        cbn [in_object current results brace_count] in Hstep.
      * rewrite andb_true_r in Hstep.
        destruct (Z.eqb (cnt - 1) 0); cbn [in_object current results] in Hstep.
        -- apply bind_Some in Hstep as (out & Hout & Hstep).
           injection Hstep as <-. cbn [in_object current results].
           split; [intros [=]|].
           apply append_parsed_Some in Hout as [_ ->].
           apply Forall_app. split; [exact Hres|]. cbn.
           destruct (loads _) as [v|] eqn:Hv; [|apply List.Forall_nil].
           apply List.Forall_cons; [|apply List.Forall_nil].
           eapply repaired_span_object; [apply Hcur; reflexivity | exact Hv].
        -- injection Hstep as <-. cbn [in_object current results].
           split; [intros _; apply Hpush; reflexivity | exact Hres].
      * injection Hstep as <-. cbn [in_object current results].
        split; [intros _; apply Hpush; reflexivity | exact Hres].
    + destruct (Py.byte c 125);
        cbn [in_object current results brace_count] in Hstep.
      * rewrite andb_false_r in Hstep. injection Hstep as <-.
        cbn [in_object current results].
        split; [intros [=] | exact Hres].
      * injection Hstep as <-. cbn [in_object current results].
        split; [intros [=] | exact Hres].
Qed.

Lemma robust_scan_objects exceeds text : forall st st',
  scan_with (robust_step exceeds) text st = Some st' ->
  (in_object st = true -> opens_brace (current st)) ->
  Forall is_object (results st) ->
  Forall is_object (results st').
Proof.
  induction text as [|c rest IH]; intros st st' Hscan Hcur Hres.
  - injection Hscan as <-. exact Hres.
  - cbn [scan_with] in Hscan. apply bind_Some in Hscan as (st1 & Hstep & Hscan).
    destruct (robust_step_objects exceeds st c st1 Hstep Hcur Hres) as [H1 H2].
    exact (IH st1 st' Hscan H1 H2).
Qed.

Lemma parse_robust_json_objects exceeds text objs :
  parse_robust_json exceeds text = Some objs -> Forall is_object objs.
Proof.
  unfold parse_robust_json. intros H.
  apply fmap_Some in H as (st & Hscan & ->).
  apply (robust_scan_objects exceeds text _ st Hscan);
    [intros [=]|apply List.Forall_nil].
Qed.

Lemma extract_json_objects_objects exceeds text objs :
  Py.contains SENTINEL text = false ->
  extract_json_objects exceeds text = Some objs -> Forall is_object objs.
Proof.
  intros Hsent H. rewrite (extract_json_objects_no_sentinel _ _ Hsent) in H.
  apply bind_Some in H as (found & Hfound & H).
  apply collect_Some in Hfound as [_ ->]. cbn [app] in H.
  destruct (omap loads (spans text)) as [|obj rest] eqn:Hspans.
  - eapply parse_robust_json_objects. exact H.
  - injection H as <-. rewrite <- Hspans. apply Forall_forall. intros v Hv.
    apply list_elem_of_omap in Hv as (s & Hs & Hv).
    eapply span_object; eassumption.
Qed.

Lemma add_video_urls_length batch : forall objs objs',
  add_video_urls batch objs = Some objs' -> length objs' = length objs.
Proof.
  induction batch as [|video batch IH]; intros objs objs' H.
  - destruct objs; injection H as <-; reflexivity.
  - destruct objs as [|obj objs]; [injection H as <-; reflexivity|].
    cbn [add_video_urls] in H.
    apply bind_Some in H as (rest & Hrest & H).
    apply IH in Hrest.
    destruct (v_id video) as [[|c id]|];
      [injection H as <- | | injection H as <-]; cbn; try congruence.
    destruct obj; try discriminate H. injection H as <-. cbn. congruence.
Qed.

Lemma add_video_urls_stamped batch : forall objs objs',
  Forall is_object objs -> add_video_urls batch objs = Some objs' ->
  Forall is_object objs'.
Proof.
  intros objs. revert batch. induction objs as [|obj objs IH];
    intros batch objs' Hall H.
  - destruct batch; injection H as <-; apply List.Forall_nil.
  - inversion Hall as [|? ? [d ->] Hrest]; subst.
    destruct batch as [|video videos]; [injection H as <-; exact Hall|].
    cbn [add_video_urls] in H.
    apply bind_Some in H as (rest & Hr & H).
    specialize (IH videos rest Hrest Hr).
    destruct (v_id video) as [[|c id]|]; injection H as <-;
      apply List.Forall_cons; try exact IH; eexists; reflexivity.
Qed.

(** X5.  On a text without the sentinel every record the two scans
    return is a dictionary, so the stamping of the video links never
    raises: the extraction of [summarize_batch] raises only when one of
    the scans does, on an exception of the decoder other than a decoding
    error.  Otherwise it reaches the corrective step with dictionaries, as
    many as one of the two scans found. *)
Theorem extract_candidates_without_sentinel
    (exceeds : Limits) (batch : list Video) (text : string) :
  Py.contains SENTINEL text = false ->
  (extract_candidates exceeds batch text = None ->
   extract_json_objects exceeds text = None
   \/ parse_robust_json exceeds text = None)
  /\ (forall objs,
        extract_candidates exceeds batch text = Some objs ->
        Forall is_object objs
        /\ ((exists found, extract_json_objects exceeds text = Some found
                           /\ length objs = length found)
            \/ (exists found, parse_robust_json exceeds text = Some found
                              /\ length objs = length found)))
  /\ (within exceeds (spans text) ->
      omap loads (spans text) <> [] ->
      length (omap loads (spans text)) = length batch ->
      exists objs, extract_candidates exceeds batch text = Some objs
                   /\ length objs = length batch).
Proof.
  intros Hsent. unfold extract_candidates.
  destruct (extract_json_objects exceeds text) as [found|] eqn:Hext.
  2: { split; [intros _; left; reflexivity|]. split; [intros objs [=]|].
       intros Hall Hsome _.
       pose proof (extract_json_objects_within exceeds text Hsent Hall)
         as Heq.
       rewrite Hext in Heq.
       destruct (omap loads (spans text)); [contradiction|discriminate]. }
  cbn [mbind option_bind].
  pose proof (extract_json_objects_objects exceeds text found Hsent Hext)
    as Hfound.
  destruct (add_video_urls_objects found batch Hfound) as (objs1 & H1 & Hlen1).
  rewrite H1. cbn [mbind option_bind].
  split; [|split].
  - destruct (Nat.eqb (length objs1) (length batch)); [discriminate|].
    destruct (parse_robust_json exceeds text) as [fallback|] eqn:Hrob;
      [|intros _; right; reflexivity].
    cbn [mbind option_bind].
    destruct (Nat.ltb (length objs1) (length fallback)); [|discriminate].
    pose proof (parse_robust_json_objects exceeds text fallback Hrob) as Hfb.
    destruct (add_video_urls_objects fallback batch Hfb) as (objs2 & H2 & _).
    rewrite H2. discriminate.
  - intros objs Hobjs.
    destruct (Nat.eqb (length objs1) (length batch)).
    { injection Hobjs as <-.
      split; [exact (add_video_urls_stamped batch found objs1 Hfound H1)|].
      left. exists found. split; [reflexivity|exact Hlen1]. }
    destruct (parse_robust_json exceeds text) as [fallback|] eqn:Hrob;
      [|discriminate].
    cbn [mbind option_bind] in Hobjs.
    pose proof (parse_robust_json_objects exceeds text fallback Hrob) as Hfb.
    destruct (Nat.ltb (length objs1) (length fallback)).
    + split; [exact (add_video_urls_stamped batch fallback objs Hfb Hobjs)|].
      right. exists fallback. split; [reflexivity|].
      eapply add_video_urls_length. exact Hobjs.
    + injection Hobjs as <-.
      split; [exact (add_video_urls_stamped batch found objs1 Hfound H1)|].
      left. exists found. split; [reflexivity|exact Hlen1].
  - intros Hall Hsome Hcount.
    pose proof (extract_json_objects_within exceeds text Hsent Hall) as Heq.
    rewrite Hext in Heq.
    assert (Hfound_eq : found = omap loads (spans text)).
    { destruct (omap loads (spans text)); [contradiction|congruence]. }
    rewrite Hlen1, Hfound_eq, Hcount, Nat.eqb_refl.
    exists objs1. split; [reflexivity|].
    rewrite Hlen1, Hfound_eq. exact Hcount.
Qed.

Lemma extract_candidates_without_sentinel_witness :
  (exists objs,
     extract_candidates (roomy 1000) two_videos (Py.q "{'a': 1} {'b': 2}")
     = Some objs
     /\ length objs = 2)
  /\ extract_candidates (roomy 8) two_videos (Py.q "{'a': 1} {'b': [2]}")
     = None.
Proof.
  split.
  - destruct (extract_candidates_without_sentinel (roomy 1000) two_videos
                (Py.q "{'a': 1} {'b': 2}")) as (_ & _ & H);
      [vm_compute; reflexivity|].
    apply H.
    + apply Forall_forall. intros s Hin.
      apply list_elem_of_In in Hin. vm_compute in Hin.
      destruct Hin as [<-|[<-|[]]]; reflexivity.
    + vm_compute. discriminate.
    + vm_compute. reflexivity.
  - vm_compute. reflexivity.
Defined.

(** ** The corrective call: the first usable answer *)

Lemma call_claude_fix_first_usable rt api raw_text retry_count st :
  forall i value counted,
    retry_count + i < MAX_RETRIES ->
    (forall k, k < i -> attempt rt (requests st + k) (api raw_text (requests st + k)) = Retry) ->
    attempt rt (requests st + i) (api raw_text (requests st + i)) = Fixed value counted ->
    call_claude_fix rt api raw_text retry_count st
    = (value,
       mkFixer (fixer_attempts st + S i)
         (if counted then S (fixer_successes st) else fixer_successes st)
         (requests st + S i) (trace st ++ attempts_trace i)).
Proof.
  funelim (call_claude_fix rt api raw_text retry_count st);
    intros i value0 counted0 Hlt Hretry Hfixed.
  - destruct i as [|i].
    + rewrite Nat.add_0_r in Hfixed. rewrite Hfixed in Heq.
      injection Heq as <- <-. rewrite !Nat.add_1_r. reflexivity.
    + specialize (Hretry 0 (Nat.lt_0_succ i)). rewrite Nat.add_0_r in Hretry.
      congruence.
  - destruct i as [|i].
    + rewrite Nat.add_0_r in Hfixed. congruence.
    + rewrite (H i value0 counted0).
      * cbn [fixer_attempts fixer_successes requests trace].
        f_equal. f_equal; try lia.
        rewrite <- app_assoc. reflexivity.
      * lia.
      * intros k Hk. cbn [requests].
        replace (S (requests st) + k) with (requests st + S k) by lia.
        apply Hretry. lia.
      * cbn [requests].
        replace (S (requests st) + i) with (requests st + S i) by lia.
        exact Hfixed.
  - destruct i as [|i].
    + rewrite Nat.add_0_r in Hfixed. congruence.
    + unfold MAX_RETRIES in *. lia.
Qed.

(** What makes an answer usable. *)
Lemma attempt_Fixed rt k response value counted :
  attempt rt k response = Fixed value counted ->
  exists data fixed_text,
    response = Answer 200 (Some data)
    /\ fixed_text_of data = Some fixed_text
    /\ writes_copy rt k fixed_text = true
    /\ exceeds rt fixed_text = false
    /\ if counted then loads fixed_text = Some value
       else loads fixed_text = None
            /\ exists rest,
                 extract_json_objects (exceeds rt) fixed_text
                 = Some (value :: rest).
Proof.
  unfold attempt. destruct response as [|status_code [data|]]; try discriminate.
  2: { destruct (negb (Z.eqb status_code 200)); discriminate. }
  destruct (Z.eqb status_code 200) eqn:Hcode; [|discriminate].
  apply Z.eqb_eq in Hcode as ->. cbn [negb mbind option_bind].
  destruct (fixed_text_of data) as [fixed_text|] eqn:Htext; [|discriminate].
  destruct (writes_copy rt k fixed_text) eqn:Hcopy; [|discriminate].
  cbn [negb]. unfold decode.
  destruct (exceeds rt fixed_text) eqn:Hlim; [discriminate|].
  intros H. exists data, fixed_text.
  split; [reflexivity|]. split; [exact Htext|]. split; [exact Hcopy|].
  split; [exact Hlim|].
  destruct (loads fixed_text) as [fixed_json|].
  - injection H as <- <-. reflexivity.
  - destruct (extract_json_objects (exceeds rt) fixed_text) as [[|first rest]|];
      try discriminate.
    injection H as <- <-. split; [reflexivity|]. exists rest. reflexivity.
Qed.

(** X6.  [call_claude_fix] returns what the first usable answer holds:
    when the first [i] answers lead to a retry and the next one, among the
    three allowed, is usable, it returns that value after [i + 1] requests
    and [i] sleeps, and counts a success only if the whole answer decoded.
    A usable answer has status 200 and a text whose debugging copy was
    written and on which the decoder stays within its limits; the value is
    the whole text decoded or, when it does not decode, the first record
    extracted from it. *)
Theorem call_claude_fix_returns_first_usable
    (rt : Runtime) (api : string -> nat -> Response) (raw_text : string)
    (st : Fixer) (i : nat) (value : json) (counted : bool) :
  i < 3 ->
  (forall k, k < i ->
     attempt rt (requests st + k) (api raw_text (requests st + k)) = Retry) ->
  attempt rt (requests st + i) (api raw_text (requests st + i))
  = Fixed value counted ->
  call_claude_fix rt api raw_text 0 st
  = (value,
     mkFixer (fixer_attempts st + S i)
       (if counted then S (fixer_successes st) else fixer_successes st)
       (requests st + S i) (trace st ++ attempts_trace i))
  /\ exists data fixed_text,
       api raw_text (requests st + i) = Answer 200 (Some data)
       /\ fixed_text_of data = Some fixed_text
       /\ writes_copy rt (requests st + i) fixed_text = true
       /\ exceeds rt fixed_text = false
       /\ if counted then loads fixed_text = Some value
          else loads fixed_text = None
               /\ exists rest,
                    extract_json_objects (exceeds rt) fixed_text
                    = Some (value :: rest).
Proof.
  intros Hi Hretry Hfixed.
  split; [|exact (attempt_Fixed _ _ _ _ _ Hfixed)].
  apply call_claude_fix_first_usable; assumption.
Qed.

Lemma call_claude_fix_returns_first_usable_witness :
  call_claude_fix plain
    (fun _ k =>
       match k with
       | 1 => Answer 200
                (Some (JObject [("content",
                                 JArray [JObject [("text", JString "[1]")]])]))
       | _ => RequestFails
       end) "x" 0 fresh
  = (JArray [JNumber "1"], mkFixer 2 1 2 [Post; Sleep 5; Post]).
Proof.
  destruct (call_claude_fix_returns_first_usable plain
              (fun _ k =>
                 match k with
                 | 1 => Answer 200
                          (Some (JObject [("content",
                                   JArray [JObject [("text", JString "[1]")]])]))
                 | _ => RequestFails
                 end) "x" fresh 1 (JArray [JNumber "1"]) true) as [H _].
  - lia.
  - intros k Hk. destruct k; [reflexivity | lia].
  - vm_compute. reflexivity.
  - exact H.
Defined.

(** An answer that decodes is still sent to the retry when its debugging
    copy cannot be written, or when the decoder raises on it an exception
    other than a decoding error. *)
Example call_claude_fix_copy_not_written :
  let api := fun (_ : string) (_ : nat) =>
    Answer 200
      (Some (JObject [("content", JArray [JObject [("text", JString "[1]")]])]))
  in
  call_claude_fix (mkRuntime (roomy 1000) (fun _ _ => false)) api "x" 0 fresh
  = (JNull, mkFixer 3 0 3 [Post; Sleep 5; Post; Sleep 5; Post])
  /\ call_claude_fix (mkRuntime (roomy 2) (fun _ _ => true)) api "x" 0 fresh
     = (JNull, mkFixer 3 0 3 [Post; Sleep 5; Post; Sleep 5; Post]).
Proof. split; vm_compute; reflexivity. Qed.

(** ** The validator: what it reports *)

Lemma not_list_fields_object_exact fields section : forall errors,
  not_list_fields fields (JObject section) errors
  = Some (errors
          ++ map (fun field => "Field " +:+ field +:+ " is not a list")
               (List.filter
                  (fun field => match Py.get field section with
                                | Some (JArray _) | None => false
                                | Some _ => true
                                end) fields)).
Proof.
  induction fields as [|f fields IH]; intros errors.
  - cbn. rewrite app_nil_r. reflexivity.
  - cbn [not_list_fields py_in List.filter]. unfold Py.has.
    destruct (Py.get f section) as [value|] eqn:Hv; cbn [mbind option_bind].
    + cbn [getitem]. rewrite Hv. cbn [mbind option_bind]. rewrite IH.
      destruct value; cbn [isinstance_list map];
        try (rewrite <- app_assoc; reflexivity); reflexivity.
    + apply IH.
Qed.

Lemma missing_fields_object_exact fields d : forall errors,
  missing_fields fields (JObject d) errors
  = Some (errors ++ missing_messages fields d).
Proof.
  unfold missing_messages.
  induction fields as [|f fields IH]; intros errors.
  - cbn. rewrite app_nil_r. reflexivity.
  - cbn [missing_fields py_in mbind option_bind List.filter]. rewrite IH.
    destruct (Py.has f d); cbn [negb map]; [reflexivity|].
    rewrite <- app_assoc. reflexivity.
Qed.

(** X7.  What the validator reports on a dictionary.  Without a summary
    section: the top-level fields that are missing, then the missing
    section, and nothing about the nested fields.  With a summary section
    that is a dictionary: the missing top-level fields, then the missing
    nested fields, then the sequence-typed fields that hold no array, in
    the order of the field lists; no exception is raised. *)
Theorem validate_summary_reports (d : Py.dict json) (video_id : string) :
  (Py.get "summary" d = None ->
   validate_summary (JObject d) video_id
   = Some (missing_messages ["title"; "podcaster"] d
           ++ ["Missing summary section"]))
  /\ (forall section,
        Py.get "summary" d = Some (JObject section) ->
        validate_summary (JObject d) video_id
        = Some (missing_messages ["title"; "podcaster"] d
                ++ missing_messages REQUIRED_FIELDS section
                ++ not_list_messages LIST_FIELDS section)).
Proof.
  split.
  - intros Hs. unfold validate_summary.
    rewrite missing_fields_object_exact. rewrite bind_ret.
    unfold py_in. rewrite bind_ret. unfold Py.has at 1. rewrite Hs.
    reflexivity.
  - intros section Hs. unfold validate_summary.
    rewrite missing_fields_object_exact. rewrite bind_ret.
    unfold py_in. rewrite bind_ret. unfold Py.has at 1. rewrite Hs.
    unfold getitem. rewrite Hs. rewrite bind_ret.
    rewrite missing_fields_object_exact. rewrite bind_ret.
    rewrite not_list_fields_object_exact. cbn [app].
    rewrite <- app_assoc. reflexivity.
Qed.

Lemma validate_summary_reports_witness :
  validate_summary (JObject [("title", JString "t")]) "v1"
  = Some ["Missing field: podcaster"; "Missing summary section"]
  /\ validate_summary
       (JObject [("podcaster", JString "p");
                 ("summary", JObject [("essence", JNull);
                                      ("top_takeaways", JString "one")])]) "v1"
     = Some ["Missing field: title"; "Missing field: game_changing_ideas";
             "Missing field: things_you_can_do";
             "Missing field: why_this_matters";
             "Field top_takeaways is not a list"].
Proof.
  split.
  - rewrite (proj1 (validate_summary_reports _ "v1")); reflexivity.
  - rewrite (proj2 (validate_summary_reports _ "v1")
               [("essence", JNull); ("top_takeaways", JString "one")]);
      reflexivity.
Defined.

(** ** The processing queue *)

Lemma normalize_id now item :
  b_id <$> normalize now item = removal_id item.
Proof.
  destruct item as [[[id|] fields]|id|value]; reflexivity.
Qed.

Lemma map_b_id_normalize now queue :
  map b_id (omap (normalize now) queue) = omap removal_id queue.
Proof.
  induction queue as [|item queue IH]; [reflexivity|].
  change (omap (normalize now) (item :: queue))
    with (match normalize now item with
          | Some b => b :: omap (normalize now) queue
          | None => omap (normalize now) queue
          end).
  change (omap removal_id (item :: queue))
    with (match removal_id item with
          | Some id => id :: omap removal_id queue
          | None => omap removal_id queue
          end).
  rewrite <- (normalize_id now item).
  destruct (normalize now item); cbn; rewrite IH; reflexivity.
Qed.

(** X8.  [load_processing_queue] never fails and never writes.  It returns the
    pending entries as they are; an array in the old format entry by
    entry, each bare identifier turned into a dictionary that carries it,
    so that ids and order are kept; and nothing for a file that does not
    decode or holds anything else. *)
Theorem load_processing_queue_formats (w : World) :
  (load_processing_queue w).2 = w
  /\ (forall pending, processing_queue_file w = QueueObject (Some pending) ->
                      (load_processing_queue w).1 = pending)
  /\ (forall items, processing_queue_file w = QueueArray items ->
        map removal_id (load_processing_queue w).1 = map removal_id items
        /\ Forall (fun item => forall id, item <> ItemStr id)
             (load_processing_queue w).1)
  /\ (processing_queue_file w = QueueUndecodable
      \/ processing_queue_file w = QueueOther
      \/ processing_queue_file w = QueueObject None ->
      (load_processing_queue w).1 = []).
Proof.
  split; [reflexivity|].
  unfold load_processing_queue, mbind, io_bind, read, mret, io_ret.
  cbn [fst snd].
  split; [intros pending ->; reflexivity|].
  split.
  - intros items ->. split.
    + rewrite map_map. apply map_ext. intros [v|id|value]; reflexivity.
    + apply Forall_forall. intros item Hin id ->.
      apply list_elem_of_In, in_map_iff in Hin as (x & Hx & _).
      destruct x; discriminate Hx.
  - intros [-> | [-> | ->]]; reflexivity.
Qed.

Lemma load_processing_queue_formats_witness :
  let w := mkWorld "2025-05-02" "2025-05-02T08:00:00" "2025-05-02 08:00:00"
             (QueueArray [ItemStr "v1"; ItemDict (mkVideo (Some "v2") [])])
             None None LogMissing [] in
  map removal_id (load_processing_queue w).1 = [Some "v1"; Some "v2"].
Proof.
  intros w.
  destruct (load_processing_queue_formats w) as (_ & _ & Harray & _).
  destruct (Harray [ItemStr "v1"; ItemDict (mkVideo (Some "v2") [])] eq_refl)
    as [Hids _].
  rewrite Hids. reflexivity.
Defined.

Lemma get_next_batch_eq (w : World) :
  (get_next_batch w).1
  = if Nat.ltb (length (load_processing_queue w).1) 2 then []
    else omap (normalize (now_iso w)) (take 5 (load_processing_queue w).1).
Proof.
  unfold get_next_batch, mbind, io_bind, read, mret, io_ret.
  pose proof (load_processing_queue_reads w) as Hw.
  destruct (load_processing_queue w) as [queue w1]. cbn [fst snd] in *.
  subst w1. change MIN_BATCH_SIZE with 2. change MAX_BATCH_SIZE with 5.
  destruct (Nat.ltb (length queue) 2); [reflexivity|].
  cbn [fst]. f_equal.
  destruct (Nat.le_ge_cases 5 (length queue)) as [H|H].
  - rewrite Nat.min_l by exact H. reflexivity.
  - rewrite Nat.min_r by exact H. rewrite !take_ge by lia. reflexivity.
Qed.

(** X9.  The ids of the batch [get_next_batch] returns are those of the first
    five entries of the queue that have one, in order, when
    [ready_for_batch] holds, and none otherwise: a caller that checked
    [ready_for_batch] can still get an empty batch, when the first entries
    carry no id. *)
Theorem get_next_batch_ids (w : World) :
  map b_id (get_next_batch w).1
  = if (ready_for_batch w).1
    then omap removal_id (take 5 (load_processing_queue w).1)
    else [].
Proof.
  rewrite get_next_batch_eq.
  unfold ready_for_batch, mbind, io_bind, mret, io_ret.
  pose proof (load_processing_queue_reads w) as Hw.
  destruct (load_processing_queue w) as [queue w1]. cbn [fst snd] in *.
  change MIN_BATCH_SIZE with 2.
  destruct (Nat.ltb (length queue) 2) eqn:Hlt.
  - apply Nat.ltb_lt in Hlt.
    replace (Nat.leb 2 (length queue)) with false
      by (symmetry; apply Nat.leb_gt; exact Hlt).
    reflexivity.
  - apply Nat.ltb_ge in Hlt.
    replace (Nat.leb 2 (length queue)) with true
      by (symmetry; apply Nat.leb_le; exact Hlt).
    apply map_b_id_normalize.
Qed.

Example get_next_batch_unrecognised :
  let w := mkWorld "2025-05-02" "2025-05-02T08:00:00" "2025-05-02 08:00:00"
             (QueueObject (Some [ItemOther (JNumber "1");
                                 ItemDict (mkVideo None [])]))
             None None LogMissing [] in
  (ready_for_batch w).1 = true /\ (get_next_batch w).1 = [].
Proof. split; reflexivity. Qed.

(** ** The status store: transitions *)

Lemma remove_first_NoDup x l :
  NoDup l ->
  NoDup (remove_first x l)
  /\ (forall y, y ∈ remove_first x l <-> y ∈ l /\ y <> x).
Proof.
  induction l as [|z l IH]; intros Hnd.
  - split; [constructor|]. intros y. cbn. split; [intros H; inversion H|].
    intros [H _]. inversion H.
  - apply NoDup_cons in Hnd as [Hz Hnd]. destruct (IH Hnd) as [IH1 IH2].
    cbn [remove_first]. destruct (String.eqb x z) eqn:Heq.
    + apply String.eqb_eq in Heq. subst z. split; [exact Hnd|].
      intros y. rewrite elem_of_cons. split.
      * intros Hy. split; [right; exact Hy|]. intros ->. contradiction.
      * intros [[->|Hy] Hne]; [contradiction | exact Hy].
    + apply String.eqb_neq in Heq. split.
      * apply NoDup_cons. split; [|exact IH1].
        intros Hin. apply IH2 in Hin as [Hin _]. contradiction.
      * intros y. rewrite !elem_of_cons, IH2. split.
        -- intros [->|[Hy Hne]]; [split; [left; reflexivity | congruence]|].
           split; [right; exact Hy | exact Hne].
        -- intros [[->|Hy] Hne]; [left; reflexivity | right; split; assumption].
Qed.

Lemma remove_first_fold ids : forall batched,
  NoDup batched ->
  forall y,
    y ∈ fold_left (fun batched vid_id => remove_first vid_id batched) ids batched
    <-> y ∈ batched /\ y ∉ ids.
Proof.
  induction ids as [|x ids IH]; intros batched Hnd y.
  - cbn. split; [intros H; split; [exact H | intros Hn; inversion Hn]|tauto].
  - cbn [fold_left]. destruct (remove_first_NoDup x batched Hnd) as [Hnd' Hmem].
    rewrite (IH _ Hnd'), Hmem, elem_of_cons. split.
    + intros [[Hy Hne] Hn]. split; [exact Hy|]. intros [->|H]; contradiction.
    + intros [Hy Hn]. split; [split; [exact Hy|]|]; intros H; apply Hn;
        [left; exact H | right; exact H].
Qed.

Lemma fold_left_pair {A B C} (f : A -> C -> A) (g : B -> C -> B) l : forall a b,
  fold_left (fun '(a, b) x => (f a x, g b x)) l (a, b)
  = (fold_left f l a, fold_left g l b).
Proof.
  induction l as [|x l IH]; intros a b; [reflexivity|]. cbn. apply IH.
Qed.

Lemma lookup_fold_insert {V} (f : string -> V) ids : forall (m : gmap string V) k,
  fold_left (fun m id => <[id := f id]> m) ids m !! k
  = if bool_decide (k ∈ ids) then Some (f k) else m !! k.
Proof.
  induction ids as [|x ids IH]; intros m k; [reflexivity|].
  cbn [fold_left]. rewrite IH.
  destruct (bool_decide (k ∈ ids)) eqn:Hk.
  - apply bool_decide_eq_true_1 in Hk.
    rewrite bool_decide_eq_true_2; [reflexivity | right; exact Hk].
  - apply bool_decide_eq_false_1 in Hk.
    destruct (decide (k = x)) as [->|Hne].
    + rewrite lookup_insert_eq.
      rewrite bool_decide_eq_true_2; [reflexivity | left].
    + rewrite lookup_insert_ne by congruence.
      rewrite bool_decide_eq_false_2; [reflexivity|].
      intros [->|H]%elem_of_cons; contradiction.
Qed.

Lemma _update_seen_videos_lookup
    (video_ids : list string) (status_type : string) (w : World) (k : string) :
  (load_seen_videos (_update_seen_videos video_ids status_type w).2).1 !! k
  = (if bool_decide (k ∈ video_ids)
     then Some (seen_entry k (now_iso w) status_type (summaries_dir w))
     else (load_seen_videos w).1 !! k)
  /\ summary_status_file (_update_seen_videos video_ids status_type w).2
     = summary_status_file w.
Proof.
  split; [|reflexivity].
  unfold _update_seen_videos, load_seen_videos, save_seen_videos,
    write_seen_videos, mbind, io_bind, read, mret, io_ret.
  cbn [fst snd seen_videos_file now_iso summaries_dir].
  apply (lookup_fold_insert
           (fun id => seen_entry id (now_iso w) status_type (summaries_dir w))).
Qed.

Lemma seen_entry_status (k now status_type : string)
    (dir : list (string * option json)) :
  s_status (seen_entry k now status_type dir) = Some status_type
  /\ s_posted_to (seen_entry k now status_type dir) = None.
Proof.
  unfold seen_entry.
  destruct (glob_video k dir) as [|[name [[]|]] rest]; split; reflexivity.
Qed.

(** X10.  [_update_seen_videos] writes the seen videos and nothing else: the
    entry of each listed id is replaced by a new one, built from the
    video's first summary file and holding the given status and no
    destination; the other entries stay. *)
Theorem _update_seen_videos_entries
    (video_ids : list string) (status_type : string) (w : World) (k : string) :
  let w' := (_update_seen_videos video_ids status_type w).2 in
  (load_seen_videos w').1 !! k
  = (if bool_decide (k ∈ video_ids)
     then Some (seen_entry k (now_iso w) status_type (summaries_dir w))
     else (load_seen_videos w).1 !! k)
  /\ s_status (seen_entry k (now_iso w) status_type (summaries_dir w))
     = Some status_type
  /\ s_posted_to (seen_entry k (now_iso w) status_type (summaries_dir w)) = None
  /\ summary_status_file w' = summary_status_file w
  /\ processing_queue_file w' = processing_queue_file w
  /\ daily_log_file w' = daily_log_file w.
Proof.
  cbv zeta.
  split; [apply _update_seen_videos_lookup|].
  split; [apply seen_entry_status|]. split; [apply seen_entry_status|].
  repeat split; reflexivity.
Qed.

Lemma mark_as_completed_status video_ids w :
  let w' := (mark_as_completed video_ids w).2 in
  let old := (load_summary_status w).1 in
  summary_status_file w'
  = Some (mkStatus (today w) (st_pending old)
            (fold_left (fun batched vid_id => remove_first vid_id batched)
               video_ids (st_batched old))
            (fold_left (fun completed vid_id => append_new vid_id completed)
               video_ids (st_completed old))
            (st_failed old) (st_posted old))
  /\ today w' = today w
  /\ forall k,
       (load_seen_videos w').1 !! k
       = if bool_decide (k ∈ video_ids)
         then Some (seen_entry k (now_iso w) "completed" (summaries_dir w))
         else (load_seen_videos w).1 !! k.
Proof.
  cbv zeta. unfold mark_as_completed, mbind, io_bind.
  pose proof (load_summary_status_after w) as H. cbv zeta in H.
  destruct (load_summary_status w) as [status w1]. cbn [fst snd] in *.
  destruct H as (_ & Hdate & Htoday & _ & Hseen & _ & Hdir & Hnow).
  rewrite (fold_left_pair (fun batched vid_id => remove_first vid_id batched)
             (fun completed vid_id => append_new vid_id completed)).
  unfold save_summary_status, write_summary_status. cbn [fst snd].
  match goal with
  | |- context [_update_seen_videos _ _ ?w2] => set (w2' := w2)
  end.
  destruct (_update_seen_videos_lookup video_ids "completed" w2' "")
    as (_ & Hfile).
  rewrite Hfile. cbn [summary_status_file w2'].
  rewrite Hdate. split; [reflexivity|]. split; [exact Htoday|].
  intros k.
  destruct (_update_seen_videos_lookup video_ids "completed" w2' k)
    as (Hk & _).
  rewrite Hk. subst w2'.
  cbn [now_iso summaries_dir]. rewrite Hnow, Hdir.
  destruct (bool_decide (k ∈ video_ids)); [reflexivity|].
  unfold load_seen_videos, mbind, io_bind, read, mret, io_ret.
  cbn [fst seen_videos_file]. rewrite Hseen. reflexivity.
Qed.

(** X11.  [mark_as_completed] moves the ids from the batched list, when that
    list holds no id twice (as [mark_as_batched] leaves it), to the
    completed list: afterwards the completed ids are the former ones and
    the given ones, the batched ids are the former ones without the given
    ones, the other lists are as they were, and the seen videos record each
    given id as completed. *)
Theorem mark_as_completed_moves (video_ids : list string) (w : World) :
  NoDup (st_batched (load_summary_status w).1) ->
  let old := (load_summary_status w).1 in
  let w' := (mark_as_completed video_ids w).2 in
  let new := (load_summary_status w').1 in
  (forall id, id ∈ st_completed new <-> id ∈ st_completed old \/ id ∈ video_ids)
  /\ (forall id, id ∈ st_batched new <-> id ∈ st_batched old /\ id ∉ video_ids)
  /\ st_pending new = st_pending old
  /\ st_failed new = st_failed old
  /\ st_posted new = st_posted old
  /\ (forall id, id ∈ video_ids ->
        (s_status <$> ((load_seen_videos w').1 !! id))
        = Some (Some "completed")).
Proof.
  intros Hnd. cbv zeta.
  destruct (mark_as_completed_status video_ids w) as (Hfile & Htoday & Hseen).
  cbv zeta in Hfile, Hseen.
  erewrite (load_summary_status_same (mark_as_completed video_ids w).2);
    [| exact Hfile | cbn [st_date]; symmetry; exact Htoday].
  cbn [fst st_completed st_batched st_pending st_failed st_posted].
  split; [intros id; apply append_new_fold|].
  split; [intros id; apply remove_first_fold; exact Hnd|].
  repeat (split; [reflexivity|]).
  intros id Hid. rewrite Hseen. rewrite bool_decide_eq_true_2 by exact Hid.
  cbn. f_equal. apply seen_entry_status.
Qed.

Lemma mark_as_completed_moves_witness :
  let w := mkWorld "2025-05-02" "2025-05-02T08:00:00" "2025-05-02 08:00:00"
             (QueueObject (Some []))
             (Some (mkStatus "2025-05-02" [] ["v1"; "v2"] ["v0"] [] []))
             (Some ∅) LogMissing [] in
  let new := (load_summary_status (mark_as_completed ["v1"] w).2).1 in
  "v1" ∈ st_completed new
  /\ ("v1" ∉ st_batched new)
  /\ "v2" ∈ st_batched new.
Proof.
  intros w new.
  destruct (mark_as_completed_moves ["v1"] w) as (Hc & Hb & _).
  - apply (bool_decide_unpack _). vm_compute. exact I.
  - cbv zeta in Hc, Hb. split; [apply Hc; right; left|].
    split.
    + intros H. apply Hb in H as [_ H]. apply H. left.
    + apply Hb. split; [vm_compute; right; left|].
      intros H. apply elem_of_cons in H as [H|H]; [discriminate | inversion H].
Defined.

Lemma load_summary_status_stamp w :
  now_stamp (load_summary_status w).2 = now_stamp w.
Proof.
  unfold load_summary_status, mbind, io_bind, read. simpl.
  destruct (summary_status_file w) as [data|];
    [destruct (String.eqb (st_date data) (today w))|]; reflexivity.
Qed.


Lemma fold_insert_again {V} (f : string -> V) ids (m : gmap string V) :
  fold_left (fun m id => <[id := f id]> m) ids
    (fold_left (fun m id => <[id := f id]> m) ids m)
  = fold_left (fun m id => <[id := f id]> m) ids m.
Proof.
  apply map_eq. intros k. rewrite !lookup_fold_insert.
  destruct (bool_decide (k ∈ ids)); reflexivity.
Qed.

(** The files [mark_as_posted] leaves. *)
Lemma mark_as_posted_eq (video_ids : list string) (w : World) :
  mark_as_posted video_ids w
  = (tt,
     mkWorld (today w) (now_iso w) (now_stamp w) (processing_queue_file w)
       (Some (mkStatus (today w) (st_pending (load_summary_status w).1)
                (st_batched (load_summary_status w).1)
                (st_completed (load_summary_status w).1)
                (st_failed (load_summary_status w).1)
                (fold_left (fun posted vid_id => append_new vid_id posted)
                   video_ids (st_posted (load_summary_status w).1))))
       (Some (fold_left
                (fun seen video_id =>
                   <[video_id := seen_entry video_id (now_iso w) "posted"
                                   (summaries_dir w)]> seen)
                video_ids (load_seen_videos w).1))
       (daily_log_file w) (summaries_dir w)).
Proof.
  unfold mark_as_posted, mbind, io_bind.
  pose proof (load_summary_status_after w) as H. cbv zeta in H.
  pose proof (load_summary_status_stamp w) as Hstamp.
  destruct (load_summary_status w) as [status w1]. cbn [fst snd] in *.
  destruct H as (_ & Hdate & Htoday & Hq & Hseen & Hlog & Hdir & Hnow).
  unfold save_summary_status, write_summary_status, _update_seen_videos,
    load_seen_videos, save_seen_videos, write_seen_videos, mbind, io_bind,
    read, mret, io_ret.
  cbn [fst snd today now_iso now_stamp processing_queue_file
         summary_status_file seen_videos_file daily_log_file summaries_dir].
  rewrite Hdate, Htoday, Hq, Hseen, Hlog, Hdir, Hnow.
  rewrite Hstamp. reflexivity.
Qed.



(** ** Summary files *)



Lemma split_aux_first_no_sep s : forall cur pieces first,
  Py.contains "_" (Py.rev cur) = false ->
  Py.split_aux "_" 0 cur s = first :: pieces ->
  Py.contains "_" first = false
  /\ exists rest, Py.rev cur +:+ s = first +:+ rest.
Proof.
  induction s as [|c s IH]; intros cur pieces first Hcur H.
  - cbn in H. injection H as <- _. split; [exact Hcur|].
    exists EmptyString. reflexivity.
  - cbn [Py.split_aux] in H.
    destruct (Py.startswith "_" (String c s)) eqn:Hc.
    + injection H as <- _. split; [exact Hcur|]. eexists. reflexivity.
    + assert (Hc' : Ascii.eqb "_" c = false).
      { cbn [Py.startswith] in Hc. rewrite andb_true_r in Hc. exact Hc. }
      assert (Hrev : Py.rev (String c cur) = Py.rev cur +:+ String c EmptyString).
      { unfold Py.rev. cbn [Py.rev_append]. apply rev_append_app. }
      destruct (IH (String c cur) pieces first) as [Hfirst [rest Hrest]].
      * rewrite Hrev. clear -Hcur Hc'.
        induction (Py.rev cur) as [|d r IHr].
        -- rewrite append_nil_string, contains_underscore_cons, Hc'. reflexivity.
        -- rewrite append_cons_string. rewrite contains_underscore_cons in *.
           apply orb_false_iff in Hcur as [Hd Hr].
           rewrite Hd. cbn [orb]. apply IHr. exact Hr.
      * exact H.
      * split; [exact Hfirst|]. exists rest. rewrite <- Hrest, Hrev.
        rewrite append_assoc_string. reflexivity.
Qed.

(** X14.  Every id [get_summary_files] reads off the artifact store is the
    non-empty part of a file name before its first underscore (or the
    whole name, when it has none): it holds no underscore itself, and the
    file is one of the directory's, with the json extension. *)
Theorem get_summary_files_ids (w : World) (video_id file_name : string) :
  (video_id, file_name) ∈ (get_summary_files w).1 ->
  video_id <> EmptyString
  /\ Py.contains "_" video_id = false
  /\ (exists rest, file_name = video_id +:+ rest)
  /\ endswith ".json" file_name = true
  /\ file_name ∈ map fst (summaries_dir w).
Proof.
  unfold get_summary_files, mbind, io_bind, read, mret, io_ret. cbn [fst].
  intros Hin. apply list_elem_of_omap in Hin as ([name content] & Hdir & Hsome).
  cbn [fst] in Hsome.
  destruct (endswith ".json" name) eqn:Hext; [|discriminate].
  destruct (video_id_of_filename name) as [|c id] eqn:Hid; [discriminate|].
  injection Hsome as <- <-.
  split; [discriminate|].
  unfold video_id_of_filename, Py.split in Hid.
  destruct (Py.split_aux "_" 0 EmptyString name) as [|first pieces] eqn:Hs;
    [discriminate|]. subst first.
  destruct (split_aux_first_no_sep name EmptyString pieces _ eq_refl Hs)
    as [Hno [rest Hrest]].
  split; [exact Hno|]. split; [exists rest; exact Hrest|].
  split; [exact Hext|].
  apply (list_elem_of_fmap_2 fst) in Hdir. exact Hdir.
Qed.

Lemma get_summary_files_ids_witness :
  (get_summary_files yesterday_world).1 = [("v1", "v1_Chan.json")]
  /\ Py.contains "_" "v1" = false.
Proof.
  split; [reflexivity|].
  apply (get_summary_files_ids yesterday_world "v1" "v1_Chan.json").
  left.
Defined.

Lemma startswith_append p r : Py.startswith p (p +:+ r) = true.
Proof.
  induction p as [|c p IH]; [reflexivity|].
  rewrite append_cons_string. cbn [Py.startswith].
  rewrite Ascii.eqb_refl. exact IH.
Qed.

Lemma rev_append_string a b : Py.rev (a +:+ b) = Py.rev b +:+ Py.rev a.
Proof.
  unfold Py.rev. revert b. induction a as [|c a IH]; intros b.
  - rewrite append_nil_string. symmetry. apply append_empty_string.
  - rewrite append_cons_string. cbn [Py.rev_append].
    rewrite (rev_append_app (a +:+ b)), IH, (rev_append_app a (String c _)).
    rewrite append_assoc_string. reflexivity.
Qed.

Lemma endswith_append p s : endswith s (p +:+ s) = true.
Proof.
  unfold endswith. rewrite rev_append_string. apply startswith_append.
Qed.

(** X15.  The artifact of a video is found again from its id alone by the
    pattern [_update_seen_videos] uses, whatever the id (free of pattern
    characters) and the channel: a directory that holds the file
    [process_batch] names for the video gives it back among the files
    matching the id followed by an underscore. *)
Theorem artifact_found_by_glob
    (video_id channel : string) (content : option json)
    (dir : list (string * option json)) :
  all_chars (fun c => negb (pattern_char c)) video_id = true ->
  (summary_filename video_id channel, content) ∈ dir ->
  (summary_filename video_id channel, content) ∈ glob_video video_id dir.
Proof.
  intros _ Hin. unfold glob_video.
  apply list_elem_of_In, filter_In. split; [apply list_elem_of_In; exact Hin|].
  cbn [fst]. unfold summary_filename.
  rewrite <- append_assoc_string. rewrite startswith_append. cbn [andb].
  rewrite !append_assoc_string.
  rewrite <- (append_assoc_string video_id "_" (sanitize channel +:+ ".json")).
  rewrite <- (append_assoc_string (video_id +:+ "_") (sanitize channel) ".json").
  rewrite endswith_append. cbn [andb].
  apply Nat.leb_le. rewrite !append_length_string. cbn [String.length]. lia.
Qed.

Lemma artifact_found_by_glob_witness :
  glob_video "x_Yz0AbCdEf"
    [("other_Chan.json", None);
     (summary_filename "x_Yz0AbCdEf" "Lex Fridman", Some (JObject []))]
  = [("x_Yz0AbCdEf_Lex_Fridman.json", Some (JObject []))].
Proof.
  pose proof (artifact_found_by_glob "x_Yz0AbCdEf" "Lex Fridman"
                (Some (JObject []))
                [("other_Chan.json", None);
                 (summary_filename "x_Yz0AbCdEf" "Lex Fridman",
                  Some (JObject []))] eq_refl) as H.
  assert (Hin : (summary_filename "x_Yz0AbCdEf" "Lex Fridman", Some (JObject []))
                  ∈ [("other_Chan.json", @None json);
                     (summary_filename "x_Yz0AbCdEf" "Lex Fridman",
                      Some (JObject []))]) by (right; left).
  specialize (H Hin). vm_compute. reflexivity.
Defined.

(** ** The queue manager: done videos *)

Lemma without_id_kept video_id pending :
  without_id video_id pending = List.filter (kept [video_id]) pending.
Proof.
  unfold without_id. apply filter_ext. intros [v|id|value]; cbn.
  - unfold kept. cbn. destruct (v_id v) as [id|]; cbn.
    + rewrite orb_false_r. f_equal. destruct (String.eqb id video_id) eqn:Heq.
      * apply String.eqb_eq in Heq as ->.
        apply bool_decide_eq_true_2. reflexivity.
      * apply String.eqb_neq in Heq.
        apply bool_decide_eq_false_2. congruence.
    + reflexivity.
  - unfold kept. cbn. rewrite orb_false_r. reflexivity.
  - reflexivity.
Qed.

Lemma filter_kept_cons video_id video_ids pending :
  List.filter (kept video_ids) (List.filter (kept [video_id]) pending)
  = List.filter (kept (video_id :: video_ids)) pending.
Proof.
  induction pending as [|item pending IH]; [reflexivity|].
  cbn [List.filter].
  assert (Hk : kept (video_id :: video_ids) item
               = kept [video_id] item && kept video_ids item).
  { unfold kept. destruct (removal_id item) as [id|]; [|reflexivity].
    cbn. rewrite orb_false_r, negb_orb. reflexivity. }
  rewrite Hk. destruct (kept [video_id] item); cbn [andb List.filter].
  - rewrite IH. reflexivity.
  - exact IH.
Qed.

Lemma mark_one_fold titles timestamp entries : forall pending done,
  let result := fold_left (mark_one titles timestamp) entries (pending, done) in
  result.1 = List.filter (kept (map snd entries)) pending
  /\ (forall k, k ∉ map snd entries -> result.2 !! k = done !! k)
  /\ (forall k, k ∈ map snd entries ->
        exists title,
          result.2 !! k
          = Some (mkSeen (Some title) None (Some timestamp) None None None None)).
Proof.
  induction entries as [|[i video_id] entries IH]; intros pending done; cbv zeta.
  - cbn. split; [|split].
    + induction pending as [|item pending IHp]; [reflexivity|].
      cbn [List.filter]. replace (kept [] item) with true.
      * f_equal. exact IHp.
      * unfold kept. destruct (removal_id item); reflexivity.
    + reflexivity.
    + intros k Hk. inversion Hk.
  - cbn [fold_left mark_one map snd].
    match goal with
    | |- context [fold_left _ entries (?p, ?d)] =>
        destruct (IH p d) as (Hp & Hother & Hin); cbv zeta in Hp, Hother, Hin
    end.
    split; [|split].
    + rewrite Hp, without_id_kept. apply filter_kept_cons.
    + intros k Hk. rewrite Hother.
      * apply lookup_insert_ne. intros ->. apply Hk. left.
      * intros H. apply Hk. right. exact H.
    + intros k Hk. destruct (decide (k ∈ map snd entries)) as [Hr|Hr].
      * apply Hin. exact Hr.
      * rewrite (Hother k Hr).
        apply elem_of_cons in Hk as [->|Hk]; [|contradiction].
        rewrite lookup_insert_eq. eexists. reflexivity.
Qed.

Lemma imap_snd (video_ids : list string) :
  map snd (imap (fun i video_id => (i, video_id)) video_ids) = video_ids.
Proof.
  induction video_ids as [|x l IH] using rev_ind; [reflexivity|].
  rewrite imap_app, map_app. cbn. rewrite IH. reflexivity.
Qed.

Lemma mark_as_done_keeps
    (w : World) (video_ids : list string) (titles : option (list string))
    (entry : option (list Item)) (done : gmap string SeenRecord) :
  video_ids <> [] ->
  processing_queue_file w = QueueObject entry ->
  seen_videos_file w = Some done ->
  exists done',
    processing_queue_file (mark_as_done video_ids titles w).2
    = QueueObject (Some (List.filter (kept video_ids) (default [] entry)))
    /\ seen_videos_file (mark_as_done video_ids titles w).2 = Some done'
    /\ (forall k, k ∉ video_ids -> done' !! k = done !! k)
    /\ (forall k, k ∈ video_ids ->
          exists title,
            done' !! k
            = Some (mkSeen (Some title) None (Some (now_iso w))
                      None None None None)).
Proof.
  intros Hids Hqueue Hseen.
  destruct video_ids as [|video_id rest]; [contradiction|].
  unfold mark_as_done, mbind, io_bind, read. cbn [fst snd].
  rewrite Hqueue, Hseen.
  pose proof (mark_one_fold titles (now_iso w)
                (imap (fun i id => (i, id)) (video_id :: rest))
                (default [] entry) done) as H.
  cbv zeta in H. rewrite imap_snd in H.
  destruct (fold_left _ _ _) as [pending' done'] eqn:Hfold.
  cbn [fst snd] in H. destruct H as (Hp & Hother & Hin).
  cbn. exists done'. rewrite Hp. repeat split; assumption.
Qed.

(** X16.  [mark_as_done] on a non-empty list of ids, with a queue file that is
    a dictionary and a seen file that decodes, returns [True]; afterwards
    the pending list holds exactly the former entries whose id (bare or in
    a dictionary) is not listed, in their order; every listed id is a key
    of the done map with the time of the call; and the other keys of the
    done map are as they were.  The summary status, the daily log and the
    summaries are not touched. *)
Theorem mark_as_done_moves
    (w : World) (video_ids : list string) (titles : option (list string))
    (entry : option (list Item)) (done : gmap string SeenRecord) :
  video_ids <> [] ->
  processing_queue_file w = QueueObject entry ->
  seen_videos_file w = Some done ->
  let after := mark_as_done video_ids titles w in
  after.1 = true
  /\ (exists done',
        processing_queue_file after.2
        = QueueObject (Some (List.filter (kept video_ids) (default [] entry)))
        /\ seen_videos_file after.2 = Some done'
        /\ (forall k, k ∉ video_ids -> done' !! k = done !! k)
        /\ (forall k, k ∈ video_ids ->
              exists title,
                done' !! k
                = Some (mkSeen (Some title) None (Some (now_iso w))
                          None None None None)))
  /\ summary_status_file after.2 = summary_status_file w
  /\ daily_log_file after.2 = daily_log_file w
  /\ summaries_dir after.2 = summaries_dir w.
Proof.
  intros Hids Hqueue Hseen. cbv zeta.
  split; [|split; [exact (mark_as_done_keeps w video_ids titles entry done
                            Hids Hqueue Hseen)|]].
  - destruct video_ids; [contradiction|].
    unfold mark_as_done, mbind, io_bind, read. cbn [fst snd].
    rewrite Hqueue, Hseen. destruct (fold_left _ _ _). reflexivity.
  - destruct video_ids; [contradiction|].
    unfold mark_as_done, mbind, io_bind, read. cbn [fst snd].
    rewrite Hqueue, Hseen. destruct (fold_left _ _ _). cbn. auto.
Qed.

Lemma mark_as_done_moves_witness :
  (mark_as_done ["v2"] None two_pending).1 = true
  /\ processing_queue_file (mark_as_done ["v2"] None two_pending).2
     = QueueObject
         (Some [ItemDict (mkVideo (Some "v1") [("title", JString "One")])]).
Proof.
  destruct (mark_as_done_moves two_pending ["v2"] None
              (Some [ItemDict (mkVideo (Some "v1") [("title", JString "One")]);
                     ItemStr "v2"]) ∅)
    as (Hr & (done' & Hq & _) & _); [discriminate|reflexivity|reflexivity|].
  split; [exact Hr|exact Hq].
Defined.

(** ** The queue manager: the ids already seen *)

Lemma get_all_seen_video_ids_eq (w : World) :
  (get_all_seen_video_ids w).1
  = (ids ← mapM removal_id
             match processing_queue_file w with
             | QueueObject (Some pending) => pending
             | _ => []
             end;
     Some (list_to_set ids ∪ dom (default ∅ (seen_videos_file w))))
  /\ (get_all_seen_video_ids w).2 = w.
Proof.
  unfold get_all_seen_video_ids, get_pending_videos, get_seen_videos,
    mbind, mret, io_bind, io_ret, read. cbn [fst snd]. split; [|reflexivity].
  assert (Hdone : match seen_videos_file w with
                  | Some done => done
                  | None => ∅
                  end = default ∅ (seen_videos_file w))
    by (destruct (seen_videos_file w); reflexivity).
  rewrite Hdone. clear Hdone.
  set (pending := match processing_queue_file w with
                  | QueueObject (Some pending) => pending
                  | _ => []
                  end).
  match goal with
  | |- option_bind _ _ _ (mapM ?f ?l) = _ =>
      assert (Hmap : mapM f l = mapM removal_id pending)
  end.
  { subst pending.
    destruct (processing_queue_file w) as [|[pending|]| |]; try reflexivity.
    apply Forall2_mapM_ext.
    induction pending as [|item pending IH]; [constructor|].
    cbn [map]. constructor; [destruct item; reflexivity|exact IH]. }
  rewrite Hmap. reflexivity.
Qed.

Lemma mapM_removal_id_kept video_ids : forall pending ids,
  mapM removal_id pending = Some ids ->
  mapM removal_id (List.filter (kept video_ids) pending)
  = Some (List.filter (fun id => negb (Py.mem id video_ids)) ids).
Proof.
  induction pending as [|item pending IH]; intros ids Hids.
  - cbn in Hids. injection Hids as <-. reflexivity.
  - cbn in Hids. apply bind_Some in Hids as (id & Hid & Hrest).
    apply bind_Some in Hrest as (rest & Hrest & Heq).
    cbn in Heq. injection Heq as <-.
    cbn [List.filter]. unfold kept at 1. rewrite Hid.
    destruct (negb (Py.mem id video_ids)); [|apply IH; exact Hrest].
    cbn. rewrite Hid. cbn. rewrite (IH rest Hrest). reflexivity.
Qed.

Lemma mapM_omap {A B} (f : A -> option B) (l : list A) (k : list B) :
  mapM f l = Some k -> k = omap f l.
Proof.
  intros H. apply mapM_Some_1 in H.
  induction H as [|x y l k Hxy _ IH]; [reflexivity|].
  cbn. rewrite Hxy. f_equal. exact IH.
Qed.

(** X17.  [get_all_seen_video_ids] raises exactly when some pending entry is
    neither a bare id nor a dictionary with an id; otherwise it returns the
    ids of the pending entries together with the keys of the done map, and
    reads only. *)
Theorem get_all_seen_video_ids_spec (w : World) :
  let pending := match processing_queue_file w with
                 | QueueObject (Some pending) => pending
                 | _ => []
                 end in
  (get_all_seen_video_ids w).2 = w
  /\ match (get_all_seen_video_ids w).1 with
     | Some ids =>
         Forall (fun item => is_Some (removal_id item)) pending
         /\ forall k, k ∈ ids
                      <-> k ∈ omap removal_id pending
                          \/ is_Some ((get_seen_videos w).1 !! k)
     | None => Exists (fun item => removal_id item = None) pending
     end.
Proof.
  cbv zeta. destruct (get_all_seen_video_ids_eq w) as [Heq Hw].
  split; [exact Hw|]. rewrite Heq.
  destruct (mapM removal_id _) as [ids|] eqn:Hmap; cbn.
  - split.
    + apply mapM_is_Some_1. rewrite Hmap. eexists. reflexivity.
    + intros k. rewrite elem_of_union, elem_of_list_to_set, elem_of_dom.
      rewrite <- (mapM_omap _ _ _ Hmap).
      unfold get_seen_videos, mbind, mret, io_bind, io_ret, read. cbn.
      destruct (seen_videos_file w); reflexivity.
  - apply mapM_None_1. exact Hmap.
Qed.

(** X18.  [mark_as_done] forgets no video: when the ids already seen can be
    computed before a successful call, they can be computed after it, and
    they are the former ones together with the ids just marked. *)
Theorem mark_as_done_keeps_seen_ids
    (w : World) (video_ids : list string) (titles : option (list string))
    (entry : option (list Item)) (done : gmap string SeenRecord)
    (before : gset string) :
  video_ids <> [] ->
  processing_queue_file w = QueueObject entry ->
  seen_videos_file w = Some done ->
  (get_all_seen_video_ids w).1 = Some before ->
  (get_all_seen_video_ids (mark_as_done video_ids titles w).2).1
  = Some (before ∪ list_to_set video_ids).
Proof.
  intros Hne Hqueue Hseen Hbefore.
  destruct (mark_as_done_keeps w video_ids titles entry done Hne Hqueue Hseen)
    as (done' & Hq & Hs & Hother & Hin).
  destruct (get_all_seen_video_ids_eq w) as [Heq _].
  rewrite Heq, Hqueue, Hseen in Hbefore.
  apply bind_Some in Hbefore as (ids & Hids & Hset).
  cbn in Hset. injection Hset as <-.
  destruct (get_all_seen_video_ids_eq (mark_as_done video_ids titles w).2)
    as [Heq' _].
  rewrite Heq', Hq, Hs.
  assert (Hpending : match entry with
                     | Some pending => pending
                     | None => []
                     end = default [] entry) by (destruct entry; reflexivity).
  rewrite Hpending in Hids.
  rewrite (mapM_removal_id_kept video_ids _ ids Hids). cbn. f_equal.
  apply set_eq. intros k.
  rewrite !elem_of_union, !elem_of_list_to_set, !elem_of_dom.
  rewrite list_elem_of_In, filter_In, <- list_elem_of_In.
  rewrite negb_true_iff, <- not_true_iff_false, mem_elem_of.
  destruct (decide (k ∈ video_ids)) as [Hk|Hk].
  - destruct (Hin k Hk) as [title Htitle]. rewrite Htitle.
    split; [intros _; right; exact Hk|intros _; right; eexists; reflexivity].
  - rewrite (Hother k Hk). tauto.
Qed.

Lemma mark_as_done_keeps_seen_ids_witness :
  (get_all_seen_video_ids (mark_as_done ["v2"] None two_pending).2).1
  = Some (list_to_set ["v1"; "v2"] ∪ dom (∅ : gmap string SeenRecord)
          ∪ list_to_set ["v2"]).
Proof.
  apply (mark_as_done_keeps_seen_ids two_pending ["v2"] None
           (Some [ItemDict (mkVideo (Some "v1") [("title", JString "One")]);
                  ItemStr "v2"]) ∅);
    [discriminate|reflexivity|reflexivity|reflexivity].
Defined.

(** X19.  A video that [add_to_pending] accepts is seen from then on: when the
    ids already seen can be computed before the call, they can be computed
    after it, and they are the former ones together with the id of the
    video. *)
Theorem added_video_is_seen (w : World) (video : Video) (before : gset string) :
  (add_to_pending video w).1 = true ->
  (get_all_seen_video_ids w).1 = Some before ->
  exists video_id,
    v_id video = Some video_id
    /\ (get_all_seen_video_ids (add_to_pending video w).2).1
       = Some (before ∪ {[ video_id ]}).
Proof.
  intros Hadd Hbefore.
  destruct (get_all_seen_video_ids_eq w) as [Heq _].
  rewrite Heq in Hbefore. clear Heq.
  apply bind_Some in Hbefore as (ids & Hids & Hset).
  cbn in Hset. injection Hset as <-.
  unfold add_to_pending, mbind, mret, io_bind, io_ret, read in Hadd |- *.
  cbn [fst snd] in Hadd |- *.
  destruct (processing_queue_file w) as [|entry| |] eqn:Hqueue;
    try discriminate Hadd.
  destruct (v_id video) as [video_id|] eqn:Hid; [|discriminate Hadd].
  destruct (any_pending video_id (default [] entry)) as [[|]|];
    try discriminate Hadd.
  exists video_id. split; [reflexivity|].
  match goal with
  | |- (get_all_seen_video_ids ?w').1 = _ =>
      destruct (get_all_seen_video_ids_eq w') as [Heq _]; rewrite Heq
  end.
  cbn.
  assert (Hpending : match entry with
                     | Some pending => pending
                     | None => []
                     end = default [] entry) by (destruct entry; reflexivity).
  rewrite Hpending in Hids.
  assert (Hmap : mapM removal_id (default [] entry ++ [ItemDict video])
                 = Some (ids ++ [video_id])).
  { apply mapM_Some_2. apply Forall2_app.
    - apply mapM_Some_1. exact Hids.
    - constructor; [exact Hid|constructor]. }
  rewrite Hmap. cbn. f_equal.
  apply set_eq. intros k.
  rewrite !elem_of_union, !elem_of_list_to_set, elem_of_app,
    list_elem_of_singleton, elem_of_singleton.
  tauto.
Qed.

Lemma added_video_is_seen_witness :
  exists video_id,
    Some "v3" = Some video_id
    /\ (get_all_seen_video_ids
          (add_to_pending (mkVideo (Some "v3") []) seen_v1).2).1
       = Some (list_to_set [] ∪ dom ({[ "v1" := basic_entry "v1" "2025-05-01T09:00:00" "completed" ]} : gmap string SeenRecord)
               ∪ {[ video_id ]}).
Proof.
  apply (added_video_is_seen seen_v1 (mkVideo (Some "v3") [])); reflexivity.
Defined.

(** ** The daily log *)

(** One turn of the loop of [_update_daily_log] over the posted items. *)
Lemma posted_step_grows (posted : gmap string (list string))
    (platform : string) (ids : list string) (q : string) (l : list string) :
  posted !! q = Some l ->
  exists l',
    <[platform := Py.list_set (default [] (posted !! platform) ++ ids)]> posted
      !! q = Some l'
    /\ l ⊆ l'.
Proof.
  intros Hq. destruct (decide (platform = q)) as [->|Hne].
  - rewrite lookup_insert_eq. eexists. split; [reflexivity|].
    intros x Hx. apply elem_of_list_set. rewrite Hq. cbn.
    apply elem_of_app. left. exact Hx.
  - rewrite lookup_insert_ne by exact Hne. exists l. split; [exact Hq|].
    intros x Hx. exact Hx.
Qed.

Lemma posted_fold_grows items : forall (posted : gmap string (list string)) q l,
  posted !! q = Some l ->
  exists l',
    fold_left (fun posted '(platform, ids) =>
                 <[platform :=
                     Py.list_set (default [] (posted !! platform) ++ ids)]>
                   posted) items posted !! q = Some l'
    /\ l ⊆ l'.
Proof.
  induction items as [|[platform ids] items IH]; intros posted q l Hq.
  - exists l. split; [exact Hq|]. intros x Hx. exact Hx.
  - cbn [fold_left].
    destruct (posted_step_grows posted platform ids q l Hq) as (l1 & H1 & Hsub1).
    destruct (IH _ q l1 H1) as (l' & H' & Hsub').
    exists l'. split; [exact H'|]. intros x Hx. apply Hsub', Hsub1, Hx.
Qed.

Lemma posted_fold_records items :
  forall (posted : gmap string (list string)) platform ids,
  (platform, ids) ∈ items ->
  exists l',
    fold_left (fun posted '(platform, ids) =>
                 <[platform :=
                     Py.list_set (default [] (posted !! platform) ++ ids)]>
                   posted) items posted !! platform = Some l'
    /\ ids ⊆ l'.
Proof.
  induction items as [|[p0 ids0] items IH]; intros posted platform ids Hin.
  - inversion Hin.
  - cbn [fold_left]. apply elem_of_cons in Hin as [Heq|Hin].
    + injection Heq as <- <-.
      edestruct (posted_fold_grows items) as (l' & H' & Hsub');
        [apply lookup_insert_eq|].
      exists l'. split; [exact H'|]. intros x Hx. apply Hsub'.
      apply elem_of_list_set. apply elem_of_app. right. exact Hx.
    + apply IH. exact Hin.
Qed.

Lemma posted_fold_NoDup items :
  forall (posted : gmap string (list string)) platform,
  platform ∈ items.*1
  \/ (forall l, posted !! platform = Some l -> NoDup l) ->
  forall l,
    fold_left (fun posted '(platform, ids) =>
                 <[platform :=
                     Py.list_set (default [] (posted !! platform) ++ ids)]>
                   posted) items posted !! platform = Some l ->
    NoDup l.
Proof.
  induction items as [|[p0 ids0] items IH]; intros posted platform Hcase l Hl.
  - destruct Hcase as [Hin|Hdup]; [inversion Hin|]. apply Hdup. exact Hl.
  - cbn [fold_left] in Hl. refine (IH _ platform _ l Hl).
    destruct (decide (p0 = platform)) as [->|Hne].
    + right. intros l0. rewrite lookup_insert_eq. intros [= <-].
      apply NoDup_list_set.
    + rewrite lookup_insert_ne by exact Hne.
      destruct Hcase as [Hin|Hdup]; [|right; exact Hdup].
      left. cbn in Hin. apply elem_of_cons in Hin as [Heq|Hin];
        [congruence|exact Hin].
Qed.

(** The log that an update starts from. *)
Lemma _update_daily_log_posted_eq (w : World) (data : DailyLog)
    (items : list (string * list string)) :
  daily_log_file w = LogData data ->
  let base := if String.eqb (log_date data) (today w) then data
              else fresh_log (today w) in
  (_update_daily_log_posted items w).2
  = (write_daily_log
       (mkLog (log_date base) (log_summarized base)
          (fold_left (fun posted '(platform, ids) =>
                        <[platform :=
                            Py.list_set (default [] (posted !! platform) ++ ids)]>
                          posted) items (log_posted base))
          (log_errors base) (log_pending base)) w).2.
Proof.
  intros Hlog. cbv zeta.
  unfold _update_daily_log_posted, current_log, _init_daily_log,
    mbind, mret, io_bind, io_ret, read. cbn [fst snd].
  rewrite Hlog.
  destruct (String.eqb (log_date data) (today w)) eqn:Hdate; cbn.
  - reflexivity.
  - rewrite Hlog, Hdate. cbn. reflexivity.
Qed.

(** X20.  An update of the posted section of the daily log.  When the log
    file is missing or does not decode the update is dropped and nothing
    is written.  Otherwise the log written is dated today; each platform
    of the items lists every id given for it, without a duplicate; a log
    of today keeps each id it listed and its other sections; and no other
    file is touched. *)
Theorem _update_daily_log_posted_records
    (w : World) (items : list (string * list string)) :
  let w' := (_update_daily_log_posted items w).2 in
  match daily_log_file w with
  | LogData data =>
      exists data',
        daily_log_file w' = LogData data'
        /\ log_date data' = today w
        /\ (forall platform ids,
              (platform, ids) ∈ items ->
              exists l, log_posted data' !! platform = Some l
                        /\ ids ⊆ l /\ NoDup l)
        /\ (log_date data = today w ->
            log_summarized data' = log_summarized data
            /\ log_errors data' = log_errors data
            /\ log_pending data' = log_pending data
            /\ forall platform l,
                 log_posted data !! platform = Some l ->
                 exists l', log_posted data' !! platform = Some l' /\ l ⊆ l')
        /\ processing_queue_file w' = processing_queue_file w
        /\ summary_status_file w' = summary_status_file w
        /\ seen_videos_file w' = seen_videos_file w
        /\ summaries_dir w' = summaries_dir w
  | LogMissing | LogUndecodable => w' = w
  end.
Proof.
  cbv zeta. destruct (daily_log_file w) as [| |data] eqn:Hlog.
  - unfold _update_daily_log_posted, current_log, mbind, mret, io_bind,
      io_ret, read. cbn. rewrite Hlog. reflexivity.
  - unfold _update_daily_log_posted, current_log, mbind, mret, io_bind,
      io_ret, read. cbn. rewrite Hlog. reflexivity.
  - rewrite (_update_daily_log_posted_eq w data items Hlog). cbv zeta.
    eexists. split; [reflexivity|]. cbn [log_date log_posted log_summarized
                                        log_errors log_pending].
    split; [|split; [|split]].
    + destruct (String.eqb (log_date data) (today w)) eqn:Hdate;
        [apply String.eqb_eq; exact Hdate|reflexivity].
    + intros platform ids Hin.
      destruct (posted_fold_records items
                  (log_posted (if String.eqb (log_date data) (today w)
                               then data else fresh_log (today w)))
                  platform ids Hin) as (l & Hl & Hsub).
      exists l. split; [exact Hl|]. split; [exact Hsub|].
      refine (posted_fold_NoDup items _ platform _ l Hl). left.
      apply list_elem_of_fmap. exists (platform, ids). split; [reflexivity|exact Hin].
    + intros Hdate. apply String.eqb_eq in Hdate. rewrite Hdate.
      repeat (split; [reflexivity|]).
      intros platform l Hl. apply posted_fold_grows. exact Hl.
    + cbn. auto.
Qed.

Lemma _update_daily_log_posted_records_witness :
  exists data' l,
    daily_log_file (_update_daily_log_posted [("telegram", ["v2"])] day_two).2
    = LogData data'
    /\ log_date data' = "2025-05-02"
    /\ log_posted data' !! "telegram" = Some l
    /\ "v2" ∈ l.
Proof.
  pose proof (_update_daily_log_posted_records day_two
                [("telegram", ["v2"])]) as H.
  cbv zeta in H.
  change (daily_log_file day_two)
    with (LogData (mkLog "2025-05-01" ["v1"] {[ "twitter" := ["v1"] ]} [] []))
    in H.
  cbv iota in H.
  destruct H as (data' & Hfile & Hdate & Hrec & _).
  destruct (Hrec "telegram" ["v2"]) as (l & Hl & Hsub & _); [left|].
  exists data', l. split; [exact Hfile|]. split; [exact Hdate|].
  split; [exact Hl|]. apply Hsub. left.
Defined.

Lemma should_post_eq (video_id platform : string) (w : World) :
  (_should_post_to_platform video_id platform false w).1
  = negb (Py.mem video_id
            (default []
               (match daily_log_file w with
                | LogData data => log_posted data
                | LogMissing | LogUndecodable => ∅
                end !! platform))).
Proof. reflexivity. Qed.

(** X21.  A delivery recorded in the daily log is not repeated: after the
    update of the posted section with [video_id] among the ids of
    [platform], the decision to post the pair without the force flag is
    [False], provided the log file decodes.  When it is missing or does
    not decode, the update is lost and the decision stays [True]. *)
Theorem recorded_delivery_not_repeated
    (w : World) (items : list (string * list string))
    (platform video_id : string) (ids : list string) :
  (platform, ids) ∈ items ->
  video_id ∈ ids ->
  (_should_post_to_platform video_id platform false
     (_update_daily_log_posted items w).2).1
  = match daily_log_file w with
    | LogData _ => false
    | LogMissing | LogUndecodable => true
    end.
Proof.
  intros Hitems Hid. rewrite should_post_eq.
  destruct (daily_log_file w) as [| |data] eqn:Hlog.
  - unfold _update_daily_log_posted, current_log, mbind, mret, io_bind,
      io_ret, read. cbn. rewrite Hlog. cbn. rewrite Hlog. reflexivity.
  - unfold _update_daily_log_posted, current_log, mbind, mret, io_bind,
      io_ret, read. cbn. rewrite Hlog. cbn. rewrite Hlog. reflexivity.
  - rewrite (_update_daily_log_posted_eq w data items Hlog). cbv zeta.
    cbn [write_daily_log snd daily_log_file log_posted].
    destruct (posted_fold_records items
                (log_posted (if String.eqb (log_date data) (today w)
                             then data else fresh_log (today w)))
                platform ids Hitems) as (l & Hl & Hsub).
    rewrite Hl. cbn. apply negb_false_iff. apply mem_elem_of.
    apply Hsub. exact Hid.
Qed.

Lemma recorded_delivery_not_repeated_witness :
  (_should_post_to_platform "v2" "telegram" false
     (_update_daily_log_posted [("telegram", ["v2"])] day_two).2).1 = false.
Proof.
  apply (recorded_delivery_not_repeated day_two [("telegram", ["v2"])]
           "telegram" "v2" ["v2"]).
  - apply list_elem_of_In. left. reflexivity.
  - apply list_elem_of_In. left. reflexivity.
Defined.

(** ** Invariants of a delivery cycle *)

Lemma should_post_reads (video_id platform : string) (force_all : bool)
    (w : World) :
  (_should_post_to_platform video_id platform force_all w).2 = w.
Proof. destruct force_all; reflexivity. Qed.

Lemma setitem_key {V} (k : string) (v : V) (d : Py.dict V) :
  k ∈ (Py.setitem k v d).*1.
Proof.
  induction d as [|[k' v'] d IH]; cbn; [left|].
  destruct (String.eqb k k'); cbn; [left|right; exact IH].
Qed.

Section CycleInvariant.

Variable PLATFORMS : list string.
Variable collaborators : Collaborators.
Variables force_all socialbu_authenticated telegram_operational : bool.
Variable videos : list string.

(** A property of the bookkeeping and the files that every step of a
    cycle keeps. *)
Variable J : Cycle -> World -> Prop.

Hypothesis J_attempted : forall cy w video_id platform,
  J cy w -> J (attempted video_id platform cy) w.

Hypothesis J_started : forall cy w video_id,
  J cy w ->
  J (mkCycle (posted_by_platform cy)
       (Py.setitem video_id ∅ (attempts_by_video cy)) (deliveries cy)) w.

Hypothesis J_log_error : forall cy w message,
  J cy w -> J cy (_log_error message w).2.

Hypothesis J_delivered : forall cy w video_id platform,
  J cy w ->
  video_id ∈ videos ->
  platform ∈ PLATFORMS ->
  video_id ∈ (attempts_by_video cy).*1 ->
  (_should_post_to_platform video_id platform force_all w).1 = true ->
  channel_open collaborators socialbu_authenticated telegram_operational
    platform ->
  J (delivered video_id platform cy) w.

Hypothesis J_posted : forall cy w video_id platform,
  J cy w ->
  (video_id, platform) ∈ deliveries cy ->
  J (posted_to_platform video_id platform cy) w.

Hypothesis J_log_posted : forall cy w video_id platform,
  J cy w ->
  (video_id, platform) ∈ deliveries cy ->
  J cy (_update_daily_log_posted [(platform, [video_id])] w).2.

Lemma delivered_last video_id platform cy :
  (video_id, platform) ∈ deliveries (delivered video_id platform cy).
Proof. cbn. apply elem_of_app. right. left. Qed.

Lemma platform_turn_keeps video_id file_name summary_data platform cy w :
  J cy w ->
  video_id ∈ videos ->
  platform ∈ PLATFORMS ->
  let r := platform_turn collaborators force_all socialbu_authenticated
             telegram_operational video_id file_name summary_data platform
             cy w in
  J r.1.1 r.2.
Proof.
  intros HJ Hvideo Hplatform. cbv zeta.
  unfold platform_turn, mbind, io_bind.
  pose proof (should_post_reads video_id platform force_all w) as Hw.
  pose proof (J_delivered (attempted video_id platform cy) w video_id platform
                (J_attempted _ _ video_id platform HJ) Hvideo Hplatform
                (setitem_key video_id _ (attempts_by_video cy)))
    as Hdeliver.
  destruct (_should_post_to_platform video_id platform force_all w)
    as [should w0]. cbn in Hw, Hdeliver. subst w0.
  assert (Ha := J_attempted _ _ video_id platform HJ).
  destruct should; cbn [negb]; [|exact Ha].
  specialize (Hdeliver eq_refl).
  destruct (Py.mem platform ["twitter"; "facebook"]) eqn:Hmem.
  - destruct socialbu_authenticated eqn:Hauth; cbn [negb]; [|exact Ha].
    destruct (get_account_ids_by_platform collaborators platform)
      as [|account accounts] eqn:Haccounts; [exact Ha|].
    assert (Hopen : channel_open collaborators true telegram_operational
                      platform).
    { left. split; [apply mem_elem_of; exact Hmem|]. split; [reflexivity|].
      rewrite Haccounts. discriminate. }
    specialize (Hdeliver Hopen).
    destruct (format_summary collaborators summary_data platform file_name)
      as [[|c content]|message]; [| |exact Ha].
    + unfold mret, io_ret.
      destruct (_log_error _ w) as [[] w'] eqn:Hlog. cbn.
      change w' with (tt, w').2. rewrite <- Hlog. apply J_log_error. exact Ha.
    + destruct (create_post collaborators _ _ platform).
      * cbn. apply J_posted; [exact Hdeliver|apply delivered_last].
      * unfold mret, io_ret.
        destruct (_log_error _ w) as [[] w'] eqn:Hlog. cbn.
        change w' with (tt, w').2. rewrite <- Hlog. apply J_log_error.
        exact Hdeliver.
  - destruct (String.eqb platform "telegram") eqn:Htg; [|exact Ha].
    apply String.eqb_eq in Htg.
    destruct telegram_operational eqn:Hop; cbn [negb]; [|exact Ha].
    assert (Hopen : channel_open collaborators socialbu_authenticated true
                      platform) by (right; split; [exact Htg|reflexivity]).
    specialize (Hdeliver Hopen).
    destruct (telegram_format_summary collaborators summary_data file_name)
      as [[|c content]|message]; [| |exact Ha].
    + unfold mret, io_ret.
      destruct (_log_error _ w) as [[] w'] eqn:Hlog. cbn.
      change w' with (tt, w').2. rewrite <- Hlog. apply J_log_error. exact Ha.
    + destruct (Nat.ltb 0 _).
      * unfold mret, io_ret.
        destruct (_update_daily_log_posted _ w) as [[] w'] eqn:Hlog. cbn.
        change w' with (tt, w').2. rewrite <- Hlog.
        apply J_posted; [|apply delivered_last].
        apply J_log_posted; [exact Hdeliver|apply delivered_last].
      * unfold mret, io_ret.
        destruct (_log_error _ w) as [[] w'] eqn:Hlog. cbn.
        change w' with (tt, w').2. rewrite <- Hlog. apply J_log_error.
        exact Hdeliver.
Qed.

Lemma platforms_loop_keeps video_id file_name summary_data platforms :
  forall cy w,
  J cy w ->
  video_id ∈ videos ->
  Forall (fun platform => platform ∈ PLATFORMS) platforms ->
  let r := platforms_loop collaborators force_all socialbu_authenticated
             telegram_operational video_id file_name summary_data platforms
             cy w in
  J r.1.1 r.2.
Proof.
  induction platforms as [|platform rest IH]; intros cy w HJ Hvideo Hall;
    cbv zeta; [exact HJ|].
  apply List.Forall_cons_iff in Hall as [Hplatform Hrest].
  cbn [platforms_loop]. unfold mbind, io_bind.
  pose proof (platform_turn_keeps video_id file_name summary_data platform
                cy w HJ Hvideo Hplatform) as Hturn. cbv zeta in Hturn.
  destruct (platform_turn _ _ _ _ _ _ _ _ _ _) as [[cy' [message|]] w'].
  - exact Hturn.
  - apply IH; assumption.
Qed.

Lemma summary_turn_keeps summary cy w :
  J cy w ->
  summary.1 ∈ videos ->
  let r := summary_turn PLATFORMS collaborators force_all
             socialbu_authenticated telegram_operational summary cy w in
  J r.1 r.2.
Proof.
  intros HJ Hvideo. cbv zeta. destruct summary as [video_id file_name].
  cbn [fst] in Hvideo. unfold summary_turn, mbind, io_bind.
  assert (Hread : (read_summary file_name w).2 = w) by reflexivity.
  destruct (read_summary file_name w) as [content w0].
  cbn in Hread. subst w0.
  assert (Hstart := J_started cy w video_id HJ).
  destruct content as [summary_data|].
  - pose proof (platforms_loop_keeps video_id file_name summary_data PLATFORMS
                  _ w Hstart Hvideo) as Hloop. cbv zeta in Hloop.
    destruct (platforms_loop _ _ _ _ _ _ _ _ _ _) as [[cy' [message|]] w'].
    + destruct (_log_error _ w') as [[] w''] eqn:Hlog. cbn.
      change w'' with (tt, w'').2. rewrite <- Hlog. apply J_log_error.
      apply Hloop. apply Forall_forall. auto.
    + apply Hloop. apply Forall_forall. auto.
  - destruct (_log_error _ w) as [[] w''] eqn:Hlog. cbn.
    change w'' with (tt, w'').2. rewrite <- Hlog. apply J_log_error.
    exact Hstart.
Qed.

Lemma summaries_loop_keeps unposted : forall cy w,
  J cy w ->
  Forall (fun summary => summary.1 ∈ videos) unposted ->
  let r := summaries_loop PLATFORMS collaborators force_all
             socialbu_authenticated telegram_operational unposted cy w in
  J r.1 r.2.
Proof.
  induction unposted as [|summary rest IH]; intros cy w HJ Hall; cbv zeta;
    [exact HJ|].
  apply List.Forall_cons_iff in Hall as [Hvideo Hrest].
  cbn [summaries_loop]. unfold mbind, io_bind.
  pose proof (summary_turn_keeps summary cy w HJ Hvideo) as Hturn.
  cbv zeta in Hturn.
  destruct (summary_turn _ _ _ _ _ _ _ _) as [cy' w'].
  apply IH; assumption.
Qed.

Hypothesis J_unposted : forall cy w,
  J cy w -> J cy (get_unposted_summaries w).2.

Hypothesis J_initial : forall w,
  J (mkCycle [] [] []) w ->
  J (mkCycle (fold_left (fun d platform => Py.setitem platform [] d)
                PLATFORMS []) [] []) w.

Hypothesis status_checks :
  socialbu_authenticated = authenticate collaborators
  /\ telegram_operational = check_bot_status collaborators.

Lemma post_unposted_summaries_keeps w :
  J (mkCycle [] [] []) w ->
  Forall (fun summary => summary.1 ∈ videos) (get_unposted_summaries w).1 ->
  exists w',
    J (post_unposted_summaries PLATFORMS collaborators force_all w).1 w'.
Proof.
  intros HJ Hall. destruct status_checks as [Hauth Hop].
  unfold post_unposted_summaries, mbind, io_bind.
  pose proof (J_unposted _ w HJ) as H1.
  destruct (get_unposted_summaries w) as [unposted w1].
  cbn [fst snd] in Hall, H1.
  destruct unposted as [|summary rest]; [exists w1; exact H1|].
  rewrite <- Hauth, <- Hop. unfold mret, io_ret.
  match goal with
  | |- context [let '(_, _) := ?check w1 in _] =>
      assert (H2 : J (mkCycle [] [] []) (check w1).2)
        by (destruct socialbu_authenticated;
            [exact H1|apply J_log_error; exact H1]);
      destruct (check w1) as [[] w2]
  end.
  cbn [snd] in H2.
  match goal with
  | |- context [let '(_, _) := ?check w2 in _] =>
      assert (H3 : J (mkCycle [] [] []) (check w2).2)
        by (destruct telegram_operational;
            [exact H2|apply J_log_error; exact H2]);
      destruct (check w2) as [[] w3]
  end.
  cbn [snd] in H3.
  pose proof (summaries_loop_keeps (summary :: rest) _ w3
                (J_initial w3 H3) Hall) as Hloop.
  cbv zeta in Hloop.
  destruct (summaries_loop _ _ _ _ _ _ _ w3) as [cy w4].
  cbn [fst snd] in Hloop. exists w4.
  destruct (_update_queue_manager_status _ _ _ w4) as [[] w5].
  destruct (List.filter _ (posted_by_platform cy)) as [|item items];
    [exact Hloop|].
  destruct (_update_daily_log_posted _ w5) as [[] w6]. exact Hloop.
Qed.

(** The same, with the files the run ends on. *)
Lemma post_unposted_summaries_ends w :
  J (mkCycle [] [] []) w ->
  Forall (fun summary => summary.1 ∈ videos) (get_unposted_summaries w).1 ->
  let run := post_unposted_summaries PLATFORMS collaborators force_all w in
  ((get_unposted_summaries w).1 = []
   /\ run = (mkCycle [] [] [], (get_unposted_summaries w).2))
  \/ ((get_unposted_summaries w).1 <> []
      /\ exists w4, J run.1 w4 /\ run.2 = (cycle_end PLATFORMS run.1 w4).2).
Proof.
  intros HJ Hall. cbv zeta. destruct status_checks as [Hauth Hop].
  unfold post_unposted_summaries, mbind, io_bind.
  pose proof (J_unposted _ w HJ) as H1.
  destruct (get_unposted_summaries w) as [unposted w1].
  cbn [fst snd] in Hall, H1 |- *.
  destruct unposted as [|summary rest]; [left; split; reflexivity|].
  right. split; [discriminate|].
  rewrite <- Hauth, <- Hop. unfold mret, io_ret.
  match goal with
  | |- context [let '(_, _) := ?check w1 in _] =>
      assert (H2 : J (mkCycle [] [] []) (check w1).2)
        by (destruct socialbu_authenticated;
            [exact H1|apply J_log_error; exact H1]);
      destruct (check w1) as [[] w2]
  end.
  cbn [snd] in H2.
  match goal with
  | |- context [let '(_, _) := ?check w2 in _] =>
      assert (H3 : J (mkCycle [] [] []) (check w2).2)
        by (destruct telegram_operational;
            [exact H2|apply J_log_error; exact H2]);
      destruct (check w2) as [[] w3]
  end.
  cbn [snd] in H3.
  pose proof (summaries_loop_keeps (summary :: rest) _ w3
                (J_initial w3 H3) Hall) as Hloop.
  cbv zeta in Hloop.
  destruct (summaries_loop _ _ _ _ _ _ _ w3) as [cy w4].
  cbn [fst snd] in Hloop. exists w4.
  match goal with
  | |- J ?r.1 w4 /\ _ => assert (Hcy : r.1 = cy)
  end.
  { destruct (_update_queue_manager_status _ _ _ w4) as [[] w5].
    destruct (List.filter _ (posted_by_platform cy)) as [|item items];
      [reflexivity|].
    destruct (_update_daily_log_posted _ w5) as [[] w6]. reflexivity. }
  rewrite Hcy. split; [exact Hloop|].
  unfold cycle_end, mbind, io_bind, mret, io_ret.
  destruct (_update_queue_manager_status _ _ _ w4) as [[] w5].
  destruct (List.filter _ (posted_by_platform cy)) as [|item items];
    [reflexivity|].
  destruct (_update_daily_log_posted _ w5) as [[] w6]. reflexivity.
Qed.

End CycleInvariant.

Lemma get_elem_of {V} (k : string) (v : V) (d : Py.dict V) :
  Py.get k d = Some v -> (k, v) ∈ d.
Proof.
  induction d as [|[k' v'] d IH]; [discriminate|]. cbn.
  destruct (String.eqb k k') eqn:Heq.
  - apply String.eqb_eq in Heq as ->. intros [= ->]. left.
  - intros H. right. apply IH. exact H.
Qed.

Lemma setitem_elem_of {V} (k q : string) (v l : V) (d : Py.dict V) :
  (q, l) ∈ Py.setitem k v d -> (q, l) = (k, v) \/ (q, l) ∈ d.
Proof.
  induction d as [|[k' v'] d IH]; cbn.
  - intros H. apply list_elem_of_singleton in H. left. exact H.
  - destruct (String.eqb k k').
    + intros [H|H]%elem_of_cons; [left; exact H|right; right; exact H].
    + intros [H|H]%elem_of_cons; [right; rewrite H; left|].
      destruct (IH H) as [Heq|Hin]; [left; exact Heq|right; right; exact Hin].
Qed.

Lemma initial_posted_empty (platforms : list string) :
  forall (d : Py.dict (list string)) platform ids,
  (platform, ids)
    ∈ fold_left (fun d platform => Py.setitem platform [] d) platforms d ->
  ids = [] \/ (platform, ids) ∈ d.
Proof.
  induction platforms as [|p0 platforms IH]; intros d platform ids Hin;
    [right; exact Hin|].
  cbn [fold_left] in Hin. apply IH in Hin as [Hempty|Hin]; [left; exact Hempty|].
  apply setitem_elem_of in Hin as [Heq|Hin]; [|right; exact Hin].
  left. congruence.
Qed.

(** X22.  The bookkeeping of a cycle is sound.  Every delivery call of a run
    of [post_unposted_summaries] is for a video among the unposted
    summaries and a platform of the run whose destination is open: the
    service answered the status check of the cycle and, for twitter and
    facebook, the platform has an account.  And a video is counted as
    posted to a platform only after a delivery call for the pair. *)
Theorem cycle_deliveries_sound
    (PLATFORMS : list string) (collaborators : Collaborators)
    (force_all : bool) (w : World) :
  let cy := (post_unposted_summaries PLATFORMS collaborators force_all w).1 in
  (forall video_id platform,
     (video_id, platform) ∈ deliveries cy ->
     video_id ∈ (get_unposted_summaries w).1.*1
     /\ platform ∈ PLATFORMS
     /\ channel_open collaborators (authenticate collaborators)
          (check_bot_status collaborators) platform)
  /\ (forall platform ids video_id,
        Py.get platform (posted_by_platform cy) = Some ids ->
        video_id ∈ ids ->
        (video_id, platform) ∈ deliveries cy).
Proof.
  cbv zeta.
  set (videos := (get_unposted_summaries w).1.*1).
  set (J := fun (cy : Cycle) (_ : World) =>
    (forall video_id platform,
       (video_id, platform) ∈ deliveries cy ->
       video_id ∈ videos
       /\ platform ∈ PLATFORMS
       /\ channel_open collaborators (authenticate collaborators)
            (check_bot_status collaborators) platform)
    /\ (forall platform ids video_id,
          (platform, ids) ∈ posted_by_platform cy ->
          video_id ∈ ids ->
          (video_id, platform) ∈ deliveries cy)).
  destruct (post_unposted_summaries_keeps PLATFORMS collaborators force_all
              (authenticate collaborators) (check_bot_status collaborators)
              videos J) with (w := w) as (w' & Hdel & Hposted).
  - intros cy w0 video_id platform H. exact H.
  - intros cy w0 video_id H. exact H.
  - intros cy w0 message H. exact H.
  - intros cy w0 video_id platform [Hdel Hposted] Hvideo Hplatform _ _ Hopen.
    split.
    + intros v p Hin. cbn in Hin.
      apply elem_of_app in Hin as [Hin|Hin]; [apply Hdel; exact Hin|].
      apply list_elem_of_singleton in Hin. injection Hin as -> ->. auto.
    + intros p ids v Hin Hv. cbn. apply elem_of_app. left.
      exact (Hposted p ids v Hin Hv).
  - intros cy w0 video_id platform [Hdel Hposted] Hlast.
    split; [exact Hdel|].
    intros p ids v Hin Hv. cbn in Hin |- *.
    apply setitem_elem_of in Hin as [Heq|Hin];
      [|exact (Hposted p ids v Hin Hv)].
    injection Heq as -> ->.
    apply elem_of_app in Hv as [Hv|Hv].
    + destruct (Py.get platform (posted_by_platform cy)) as [old|] eqn:Hget;
        [|inversion Hv].
      exact (Hposted platform old v (get_elem_of _ _ _ Hget) Hv).
    + apply list_elem_of_singleton in Hv as ->. exact Hlast.
  - intros cy w0 video_id platform H _. exact H.
  - intros cy w0 H. exact H.
  - intros w0 [Hdel Hposted]. split; [exact Hdel|].
    intros p ids v Hin Hv. cbn in Hin.
    apply initial_posted_empty in Hin as [->|Hin]; [inversion Hv|inversion Hin].
  - split; reflexivity.
  - split; [intros v p Hin; inversion Hin|intros p ids v Hin; inversion Hin].
  - apply Forall_forall. intros summary Hin. subst videos.
    apply list_elem_of_fmap. exists summary. split; [reflexivity|exact Hin].
  - split; [exact Hdel|]. intros p ids v Hget Hv.
    exact (Hposted p ids v (get_elem_of _ _ _ Hget) Hv).
Qed.

Lemma cycle_deliveries_sound_witness :
  ("v1", "telegram")
    ∈ deliveries
        (post_unposted_summaries DEFAULT_PLATFORMS obliging false day_two).1
  /\ channel_open obliging (authenticate obliging) (check_bot_status obliging)
       "telegram"
  /\ "v1" ∈ (get_unposted_summaries day_two).1.*1.
Proof.
  assert (Hin : ("v1", "telegram")
                  ∈ deliveries
                      (post_unposted_summaries DEFAULT_PLATFORMS obliging false
                         day_two).1).
  { apply list_elem_of_In. vm_compute. right. left. reflexivity. }
  destruct (cycle_deliveries_sound DEFAULT_PLATFORMS obliging false day_two)
    as [Hsound _].
  destruct (Hsound "v1" "telegram" Hin) as (Hvideo & _ & Hopen).
  split; [exact Hin|]. split; [exact Hopen|exact Hvideo].
Defined.

Lemma listed_log_error video_id platform message w :
  listed video_id platform w ->
  listed video_id platform (_log_error message w).2.
Proof.
  intros (data & Hlog & Hdate & Hin).
  unfold _log_error, _update_daily_log_errors, current_log,
    mbind, mret, io_bind, io_ret, read. cbn [fst snd].
  rewrite Hlog, Hdate, String.eqb_refl. cbn.
  eexists. split; [reflexivity|]. split; [exact Hdate|exact Hin].
Qed.

Lemma listed_update_posted video_id platform items w :
  listed video_id platform w ->
  listed video_id platform (_update_daily_log_posted items w).2.
Proof.
  intros (data & Hlog & Hdate & Hin).
  rewrite (_update_daily_log_posted_eq w data items Hlog). cbv zeta.
  rewrite Hdate, String.eqb_refl. cbn.
  eexists. split; [reflexivity|]. split; [exact Hdate|]. cbn.
  destruct (log_posted data !! platform) as [l|] eqn:Hl; [|inversion Hin].
  destruct (posted_fold_grows items (log_posted data) platform l Hl)
    as (l' & Hl' & Hsub).
  rewrite Hl'. apply Hsub. exact Hin.
Qed.

Lemma listed_unposted video_id platform w :
  listed video_id platform w ->
  listed video_id platform (get_unposted_summaries w).2.
Proof.
  intros (data & Hlog & Hdate & Hin).
  assert (Hw : (get_unposted_summaries w).2 = (load_summary_status w).2).
  { unfold get_unposted_summaries, get_summary_files, mbind, mret, io_bind,
      io_ret, read. cbn [fst snd].
    destruct (load_summary_status w). reflexivity. }
  rewrite Hw.
  destruct (load_summary_status_after w) as (_ & _ & Htoday & _ & _ & Hsame & _).
  exists data. rewrite Hsame, Htoday. auto.
Qed.

(** X23.  Without the force flag, a whole cycle makes no delivery call for a
    pair that today's log lists at its start: the errors and the
    deliveries that the cycle records on its way keep the pair listed. *)
Theorem listed_pair_not_delivered
    (PLATFORMS : list string) (collaborators : Collaborators) (w : World)
    (video_id platform : string) :
  listed video_id platform w ->
  (video_id, platform)
    ∉ deliveries (post_unposted_summaries PLATFORMS collaborators false w).1.
Proof.
  intros Hlisted.
  set (J := fun (cy : Cycle) (w : World) =>
    listed video_id platform w /\ (video_id, platform) ∉ deliveries cy).
  destruct (post_unposted_summaries_keeps PLATFORMS collaborators false
              (authenticate collaborators) (check_bot_status collaborators)
              (get_unposted_summaries w).1.*1 J) with (w := w)
    as (w' & _ & Hnot).
  - intros cy w0 v p H. exact H.
  - intros cy w0 v H. exact H.
  - intros cy w0 message [H1 H2]. split; [|exact H2].
    apply listed_log_error. exact H1.
  - intros cy w0 v p [H1 H2] _ _ _ Hshould _. split; [exact H1|].
    cbn. intros [Hin|Hin]%elem_of_app; [exact (H2 Hin)|].
    apply list_elem_of_singleton in Hin. injection Hin as <- <-.
    destruct H1 as (data & Hlog & _ & Hin).
    rewrite should_post_eq, Hlog in Hshould.
    apply negb_true_iff in Hshould.
    apply mem_elem_of in Hin. congruence.
  - intros cy w0 v p H _. exact H.
  - intros cy w0 v p [H1 H2] _. split; [|exact H2].
    apply listed_update_posted. exact H1.
  - intros cy w0 [H1 H2]. split; [|exact H2].
    apply listed_unposted. exact H1.
  - intros w0 H. exact H.
  - split; reflexivity.
  - split; [exact Hlisted|]. intros Hin. inversion Hin.
  - apply Forall_forall. intros summary Hin.
    apply list_elem_of_fmap. exists summary. split; [reflexivity|exact Hin].
  - exact Hnot.
Qed.

Lemma listed_pair_not_delivered_witness :
  listed "v1" "twitter" posted_today
  /\ (("v1", "twitter")
        ∉ deliveries
            (post_unposted_summaries DEFAULT_PLATFORMS obliging false
               posted_today).1)
  /\ map fst (get_unposted_summaries posted_today).1 = ["v1"].
Proof.
  assert (H : listed "v1" "twitter" posted_today).
  { eexists. split; [reflexivity|]. split; [reflexivity|].
    apply list_elem_of_In. vm_compute. left. reflexivity. }
  split; [exact H|]. split; [|reflexivity].
  apply (listed_pair_not_delivered DEFAULT_PLATFORMS obliging posted_today
           "v1" "twitter" H).
Defined.

(** ** The ledger after a cycle *)

Lemma successful_platforms_spec video_id platform
    (posted : Py.dict (list string)) :
  platform ∈ successful_platforms video_id posted
  <-> exists ids, (platform, ids) ∈ posted /\ video_id ∈ ids.
Proof.
  unfold successful_platforms. rewrite list_elem_of_fmap. split.
  - intros ([p ids] & -> & Hin).
    apply list_elem_of_In, filter_In in Hin as [Hin Hmem].
    exists ids. split; [apply list_elem_of_In; exact Hin|].
    apply mem_elem_of. exact Hmem.
  - intros (ids & Hin & Hid). exists (platform, ids). split; [reflexivity|].
    apply list_elem_of_In, filter_In. split; [apply list_elem_of_In; exact Hin|].
    apply mem_elem_of. exact Hid.
Qed.

Lemma record_posting_fold (posted : Py.dict (list string)) (now : string)
    (attempts : Py.dict (gset string)) :
  NoDup attempts.*1 ->
  forall (seen : gmap string SeenRecord) k,
  fold_left
    (fun seen '(video_id, _) =>
       match seen !! video_id with
       | Some entry =>
           <[video_id :=
               record_posting entry (successful_platforms video_id posted) now]>
             seen
       | None => seen
       end) attempts seen !! k
  = (entry ← seen !! k;
     Some (if bool_decide (k ∈ attempts.*1)
           then record_posting entry (successful_platforms k posted) now
           else entry)).
Proof.
  induction attempts as [|[video_id platforms] attempts IH];
    intros Hnd seen k.
  - cbn. destruct (seen !! k); reflexivity.
  - cbn [fold_left]. cbn in Hnd. apply NoDup_cons in Hnd as [Hnot Hnd].
    rewrite (IH Hnd). cbn [fmap list_fmap fst].
    destruct (decide (k = video_id)) as [->|Hne].
    + rewrite (bool_decide_eq_false_2 _ Hnot).
      rewrite bool_decide_eq_true_2 by left.
      destruct (seen !! video_id) as [entry|] eqn:Hentry.
      * rewrite lookup_insert_eq. reflexivity.
      * rewrite Hentry. reflexivity.
    + assert (Hsame : match seen !! video_id with
                      | Some entry =>
                          <[video_id :=
                              record_posting entry
                                (successful_platforms video_id posted) now]>
                            seen
                      | None => seen
                      end !! k = seen !! k).
      { destruct (seen !! video_id); [|reflexivity].
        apply lookup_insert_ne. congruence. }
      rewrite Hsame. destruct (seen !! k) as [entry|]; [|reflexivity].
      cbn. f_equal.
      destruct (decide (k ∈ attempts.*1)) as [Hin|Hin].
      * rewrite !bool_decide_eq_true_2; [reflexivity|right; exact Hin|exact Hin].
      * rewrite !bool_decide_eq_false_2; [reflexivity| |exact Hin].
        intros [H|H]%elem_of_cons; contradiction.
Qed.

(** X24.  When a cycle leaves no video fully processed,
    [_update_queue_manager_status] only adds to the ledger: the entry of
    an attempted video lists its former destinations and the platforms the
    cycle posted it to, each once, and is marked posted when there is such
    a platform; an attempted video without an entry gets none; the entries
    of the other videos and the summary status are untouched. *)
Theorem partial_posting_recorded
    (PLATFORMS : list string) (w : World)
    (posted : Py.dict (list string)) (attempts : Py.dict (gset string)) :
  NoDup attempts.*1 ->
  fully_processed PLATFORMS posted attempts = [] ->
  let w' := (_update_queue_manager_status PLATFORMS posted attempts w).2 in
  summary_status_file w' = summary_status_file w
  /\ forall k,
       match (load_seen_videos w).1 !! k with
       | None => (load_seen_videos w').1 !! k = None
       | Some entry =>
           if bool_decide (k ∈ attempts.*1) then
             exists entry' destinations,
               (load_seen_videos w').1 !! k = Some entry'
               /\ s_posted_to entry' = Some destinations
               /\ NoDup destinations
               /\ (forall platform,
                     platform ∈ destinations
                     <-> platform ∈ default [] (s_posted_to entry)
                         \/ exists ids, (platform, ids) ∈ posted /\ k ∈ ids)
               /\ s_status entry'
                  = (if bool_decide (successful_platforms k posted = [])
                     then s_status entry else Some "posted")
               /\ s_title entry' = s_title entry
           else (load_seen_videos w').1 !! k = Some entry
       end.
Proof.
  intros Hnd Hfull. cbv zeta.
  unfold _update_queue_manager_status, mbind, io_bind.
  unfold load_seen_videos, mbind, io_bind, read, mret, io_ret.
  unfold save_seen_videos, write_seen_videos. cbn [fst snd now_iso].
  rewrite Hfull. cbn [snd fst seen_videos_file summary_status_file].
  split; [reflexivity|]. intros k.
  rewrite (record_posting_fold posted (now_iso w) attempts Hnd).
  destruct (match seen_videos_file w with
            | Some done => done
            | None => ∅
            end !! k) as [entry|]; [|reflexivity].
  cbn. destruct (bool_decide (k ∈ attempts.*1)); [|reflexivity].
  eexists. exists (Py.list_set (default [] (s_posted_to entry)
                                ++ successful_platforms k posted)).
  split; [reflexivity|].
  split; [destruct (successful_platforms k posted); reflexivity|].
  split; [apply NoDup_list_set|]. split; [|split].
  - intros platform.
    rewrite elem_of_list_set, elem_of_app, successful_platforms_spec.
    reflexivity.
  - destruct (successful_platforms k posted); reflexivity.
  - destruct (successful_platforms k posted); reflexivity.
Qed.

Lemma partial_posting_recorded_witness :
  let posted := [("twitter", []); ("telegram", ["v1"])] in
  let attempts := [("v1", ({["telegram"]} : gset string))] in
  let w' :=
    (_update_queue_manager_status DEFAULT_PLATFORMS posted attempts day_two).2 in
  summary_status_file w' = summary_status_file day_two
  /\ exists entry' destinations,
       (load_seen_videos w').1 !! "v1" = Some entry'
       /\ s_posted_to entry' = Some destinations
       /\ "twitter" ∈ destinations /\ "telegram" ∈ destinations.
Proof.
  intros posted attempts w'.
  destruct (partial_posting_recorded DEFAULT_PLATFORMS day_two posted attempts)
    as [Hstatus Hseen].
  - apply (bool_decide_unpack _). vm_compute. exact I.
  - reflexivity.
  - split; [exact Hstatus|]. specialize (Hseen "v1").
    change ((load_seen_videos day_two).1 !! "v1")
      with (Some (mkSeen (Some (JString "One")) (Some (JString "Chan"))
                    (Some "2025-05-01T09:00:00") (Some "posted")
                    (Some ["twitter"]) (Some "2025-05-01T09:05:00") None))
      in Hseen.
    rewrite bool_decide_eq_true_2 in Hseen by (cbn; left).
    destruct Hseen as (entry' & destinations & He & Hd & _ & Hin & _).
    exists entry', destinations. split; [exact He|]. split; [exact Hd|].
    split; apply Hin.
    + left. cbn. left.
    + right. exists ["v1"]. split; [right; left|left].
Defined.

(** ** The status store: failed videos *)

Lemma mark_as_failed_status video_ids w :
  let w' := (mark_as_failed video_ids w).2 in
  let old := (load_summary_status w).1 in
  summary_status_file w'
  = Some (mkStatus (today w) (st_pending old)
            (fold_left (fun batched vid_id => remove_first vid_id batched)
               video_ids (st_batched old))
            (st_completed old)
            (fold_left (fun failed vid_id => append_new vid_id failed)
               video_ids (st_failed old))
            (st_posted old))
  /\ today w' = today w
  /\ forall k,
       (load_seen_videos w').1 !! k
       = if bool_decide (k ∈ video_ids)
         then Some (seen_entry k (now_iso w) "failed" (summaries_dir w))
         else (load_seen_videos w).1 !! k.
Proof.
  cbv zeta. unfold mark_as_failed, mbind, io_bind.
  pose proof (load_summary_status_after w) as H. cbv zeta in H.
  destruct (load_summary_status w) as [status w1]. cbn [fst snd] in *.
  destruct H as (_ & Hdate & Htoday & _ & Hseen & _ & Hdir & Hnow).
  rewrite (fold_left_pair (fun batched vid_id => remove_first vid_id batched)
             (fun failed vid_id => append_new vid_id failed)).
  unfold save_summary_status, write_summary_status. cbn [fst snd].
  match goal with
  | |- context [_update_seen_videos _ _ ?w2] => set (w2' := w2)
  end.
  destruct (_update_seen_videos_lookup video_ids "failed" w2' "")
    as (_ & Hfile).
  rewrite Hfile. cbn [summary_status_file w2'].
  rewrite Hdate. split; [reflexivity|]. split; [exact Htoday|].
  intros k.
  destruct (_update_seen_videos_lookup video_ids "failed" w2' k)
    as (Hk & _).
  rewrite Hk. subst w2'.
  cbn [now_iso summaries_dir]. rewrite Hnow, Hdir.
  destruct (bool_decide (k ∈ video_ids)); [reflexivity|].
  unfold load_seen_videos, mbind, io_bind, read, mret, io_ret.
  cbn [fst seen_videos_file]. rewrite Hseen. reflexivity.
Qed.

(** X25.  [mark_as_failed] moves the ids from the batched list, when that
    list holds no id twice, to the failed list, and never touches the
    completed and posted lists: a video that failed after it was completed
    on the same day is then in both the completed and the failed list.
    The seen videos record each given id as failed, in place of whatever
    they held for it. *)
Theorem mark_as_failed_moves (video_ids : list string) (w : World) :
  NoDup (st_batched (load_summary_status w).1) ->
  let old := (load_summary_status w).1 in
  let w' := (mark_as_failed video_ids w).2 in
  let new := (load_summary_status w').1 in
  (forall id, id ∈ st_failed new <-> id ∈ st_failed old \/ id ∈ video_ids)
  /\ (forall id, id ∈ st_batched new <-> id ∈ st_batched old /\ id ∉ video_ids)
  /\ st_pending new = st_pending old
  /\ st_completed new = st_completed old
  /\ st_posted new = st_posted old
  /\ (forall id, id ∈ video_ids ->
        exists entry,
          (load_seen_videos w').1 !! id = Some entry
          /\ s_status entry = Some "failed"
          /\ s_posted_to entry = None).
Proof.
  intros Hnd. cbv zeta.
  destruct (mark_as_failed_status video_ids w) as (Hfile & Htoday & Hseen).
  cbv zeta in Hfile, Hseen.
  erewrite (load_summary_status_same (mark_as_failed video_ids w).2);
    [| exact Hfile | cbn [st_date]; symmetry; exact Htoday].
  cbn [fst st_completed st_batched st_pending st_failed st_posted].
  split; [intros id; apply append_new_fold|].
  split; [intros id; apply remove_first_fold; exact Hnd|].
  repeat (split; [reflexivity|]).
  intros id Hid. rewrite Hseen. rewrite bool_decide_eq_true_2 by exact Hid.
  eexists. split; [reflexivity|]. apply seen_entry_status.
Qed.

Lemma mark_as_failed_moves_witness :
  let w := mkWorld "2025-05-02" "2025-05-02T08:00:00" "2025-05-02 08:00:00"
             (QueueObject (Some []))
             (Some (mkStatus "2025-05-02" [] ["v1"; "v2"] ["v1"] [] []))
             (Some ∅) LogMissing [] in
  let new := (load_summary_status (mark_as_failed ["v1"] w).2).1 in
  "v1" ∈ st_failed new /\ st_completed new = ["v1"].
Proof.
  intros w new.
  destruct (mark_as_failed_moves ["v1"] w) as (Hf & _ & _ & Hc & _).
  - apply (bool_decide_unpack _). vm_compute. exact I.
  - cbv zeta in Hf, Hc. split; [apply Hf; right; left|exact Hc].
Defined.

(** ** The daily log: creation *)

(** X26.  [_init_daily_log] leaves a log dated today: it keeps the log of
    the file when that is today's and writes an empty one otherwise, over
    a log of another day as over a file that is missing or does not
    decode.  It touches no other file, and a second call changes
    nothing. *)
Theorem _init_daily_log_today (w : World) :
  let w' := (_init_daily_log w).2 in
  (exists data,
     daily_log_file w' = LogData data
     /\ log_date data = today w
     /\ (data = fresh_log (today w) \/ daily_log_file w = LogData data))
  /\ (_init_daily_log w').2 = w'
  /\ today w' = today w
  /\ processing_queue_file w' = processing_queue_file w
  /\ summary_status_file w' = summary_status_file w
  /\ seen_videos_file w' = seen_videos_file w
  /\ summaries_dir w' = summaries_dir w.
Proof.
  cbv zeta. unfold _init_daily_log, mbind, mret, io_bind, io_ret, read.
  cbn [fst snd].
  destruct (daily_log_file w) as [| |data] eqn:Hlog.
  - cbn. rewrite String.eqb_refl. split; [|repeat split].
    exists (fresh_log (today w)). repeat split. left. reflexivity.
  - cbn. rewrite String.eqb_refl. split; [|repeat split].
    exists (fresh_log (today w)). repeat split. left. reflexivity.
  - destruct (String.eqb (log_date data) (today w)) eqn:Hdate.
    + cbn. rewrite Hlog, Hdate. split; [|repeat split].
      exists data. split; [reflexivity|].
      split; [apply String.eqb_eq; exact Hdate|right; reflexivity].
    + cbn. rewrite String.eqb_refl. split; [|repeat split].
      exists (fresh_log (today w)). repeat split. left. reflexivity.
Qed.

(** ** The status store: the pending list *)

(** X27.  [update_pending_items] copies the ids of the queue into the
    pending list of the status store, in order, bare ids and dictionaries
    alike, skipping the entries without an id, and returns their number,
    which is at most the length of the queue.  The other lists of today's
    status stay, and the queue file is not rewritten. *)
Theorem update_pending_items_counts (w : World) :
  let old := (load_summary_status w).1 in
  let r := update_pending_items w in
  let new := (load_summary_status r.2).1 in
  st_pending new = omap removal_id (load_processing_queue w).1
  /\ r.1 = length (st_pending new)
  /\ r.1 <= length (load_processing_queue w).1
  /\ st_batched new = st_batched old
  /\ st_completed new = st_completed old
  /\ st_failed new = st_failed old
  /\ st_posted new = st_posted old
  /\ processing_queue_file r.2 = processing_queue_file w.
Proof.
  cbv zeta. unfold update_pending_items, mbind, io_bind, mret, io_ret.
  pose proof (load_processing_queue_reads w) as Hw.
  destruct (load_processing_queue w) as [queue w0]. cbn [fst snd] in *.
  subst w0.
  pose proof (load_summary_status_after w) as H. cbv zeta in H.
  destruct (load_summary_status w) as [status w1]. cbn [fst snd] in *.
  destruct H as (_ & Hdate & Htoday & Hqueue & _).
  unfold save_summary_status, write_summary_status. cbn [fst snd].
  erewrite load_summary_status_same;
    [|reflexivity|cbn [st_date today]; rewrite Hdate, Htoday; reflexivity].
  cbn [fst st_pending st_batched st_completed st_failed st_posted
       processing_queue_file].
  split; [reflexivity|]. split; [reflexivity|].
  split; [apply omap_length_le|]. repeat split. exact Hqueue.
Qed.

(** ** Delivery: what is skipped within the day *)

Lemma delivery_invocation_eq PLATFORMS collaborators force_all w :
  delivery_invocation PLATFORMS collaborators force_all w
  = post_unposted_summaries PLATFORMS collaborators force_all
      (init_scheduler w).2.
Proof.
  unfold delivery_invocation, mbind, io_bind.
  destruct (init_scheduler w) as [[] w0]. reflexivity.
Qed.

Lemma init_scheduler_log_of_today w : log_of_today (init_scheduler w).2.
Proof.
  unfold init_scheduler, _init_daily_log, log_of_today, mbind, mret, io_bind,
    io_ret, read. cbn [fst snd].
  destruct (daily_log_file w) as [| |data] eqn:Hlog;
    try (eexists; split; reflexivity).
  destruct (String.eqb (log_date data) (today w)) eqn:Hdate.
  - exists data. split; [exact Hlog|apply String.eqb_eq; exact Hdate].
  - eexists; split; reflexivity.
Qed.

Lemma init_scheduler_kept w : log_of_today w -> (init_scheduler w).2 = w.
Proof.
  intros (data & Hlog & Hdate).
  unfold init_scheduler, _init_daily_log, mbind, mret, io_bind, io_ret, read.
  cbn [fst snd]. rewrite Hlog, Hdate, String.eqb_refl. reflexivity.
Qed.

Lemma listed_log_of_today video_id platform w :
  listed video_id platform w -> log_of_today w.
Proof. intros (data & Hlog & Hdate & _). exists data. split; assumption. Qed.

Lemma log_of_today_log_error message w :
  log_of_today w -> log_of_today (_log_error message w).2.
Proof.
  intros (data & Hlog & Hdate).
  unfold _log_error, _update_daily_log_errors, current_log,
    mbind, mret, io_bind, io_ret, read. cbn [fst snd].
  rewrite Hlog, Hdate, String.eqb_refl. cbn.
  eexists. split; [reflexivity|exact Hdate].
Qed.

Lemma log_of_today_update_posted items w :
  log_of_today w -> log_of_today (_update_daily_log_posted items w).2.
Proof.
  intros (data & Hlog & Hdate).
  rewrite (_update_daily_log_posted_eq w data items Hlog). cbv zeta.
  rewrite Hdate, String.eqb_refl.
  eexists. split; [reflexivity|exact Hdate].
Qed.

Lemma get_unposted_summaries_files w :
  daily_log_file (get_unposted_summaries w).2 = daily_log_file w
  /\ today (get_unposted_summaries w).2 = today w
  /\ seen_videos_file (get_unposted_summaries w).2 = seen_videos_file w
  /\ summaries_dir (get_unposted_summaries w).2 = summaries_dir w
  /\ now_iso (get_unposted_summaries w).2 = now_iso w
  /\ (get_unposted_summaries w).2 = (load_summary_status w).2
  /\ (get_unposted_summaries w).1
     = List.filter
         (fun summary =>
            negb (Py.mem summary.1 (st_posted (load_summary_status w).1)))
         (get_summary_files w).1.
Proof.
  assert (Hw : get_unposted_summaries w
               = (List.filter
                    (fun summary =>
                       negb (Py.mem summary.1
                               (st_posted (load_summary_status w).1)))
                    (get_summary_files w).1,
                  (load_summary_status w).2)).
  { unfold get_unposted_summaries, get_summary_files, mbind, mret, io_bind,
      io_ret, read. cbn [fst snd].
    destruct (load_summary_status w). reflexivity. }
  rewrite Hw. cbn [fst snd].
  destruct (load_summary_status_after w)
    as (_ & _ & Htoday & _ & Hseen & Hlog & Hdir & Hnow).
  repeat split; assumption.
Qed.

Lemma log_of_today_unposted w :
  log_of_today w -> log_of_today (get_unposted_summaries w).2.
Proof.
  intros (data & Hlog & Hdate).
  destruct (get_unposted_summaries_files w) as (Hl & Ht & _).
  exists data. rewrite Hl, Ht. split; assumption.
Qed.

Lemma update_queue_manager_status_files PLATFORMS posted attempts w :
  let w' := (_update_queue_manager_status PLATFORMS posted attempts w).2 in
  daily_log_file w' = daily_log_file w
  /\ today w' = today w
  /\ summaries_dir w' = summaries_dir w
  /\ processing_queue_file w' = processing_queue_file w.
Proof.
  cbv zeta. unfold _update_queue_manager_status, mbind, io_bind.
  unfold load_seen_videos, mbind, io_bind, read, mret, io_ret.
  unfold save_seen_videos, write_seen_videos. cbn [fst snd now_iso].
  destruct (fully_processed PLATFORMS posted attempts) as [|id ids];
    [repeat split; reflexivity|].
  rewrite mark_as_posted_eq. repeat split; reflexivity.
Qed.

Lemma listed_files video_id platform w w' :
  daily_log_file w' = daily_log_file w ->
  today w' = today w ->
  listed video_id platform w -> listed video_id platform w'.
Proof.
  intros Hl Ht (data & Hlog & Hdate & Hin). exists data.
  rewrite Hl, Ht. repeat split; assumption.
Qed.

Lemma listed_meanwhile video_id platform other w :
  listed video_id platform w -> listed video_id platform (meanwhile other w).
Proof.
  intros (data & Hlog & Hdate & Hin). unfold listed, meanwhile.
  cbn [daily_log_file today]. rewrite Hlog.
  destruct (daily_log_file other) as [| |data'].
  - exists data. repeat split; assumption.
  - exists data. repeat split; assumption.
  - eexists. split; [reflexivity|]. split; assumption.
Qed.

Lemma listed_cycle_end PLATFORMS cy video_id platform w :
  listed video_id platform w ->
  listed video_id platform (cycle_end PLATFORMS cy w).2.
Proof.
  intros H. unfold cycle_end, mbind, io_bind.
  destruct (update_queue_manager_status_files PLATFORMS
              (posted_by_platform cy) (attempts_by_video cy) w)
    as (Hl & Ht & _).
  cbv zeta in Hl, Ht.
  destruct (_update_queue_manager_status _ _ _ w) as [[] w5].
  cbn [snd] in Hl, Ht.
  assert (H5 : listed video_id platform w5)
    by (apply (listed_files video_id platform w w5); assumption).
  destruct (List.filter _ _) as [|item items]; [exact H5|].
  apply listed_update_posted. exact H5.
Qed.

(** A cycle without the force flag, from files where today's log lists
    the pair. *)
Lemma listed_cycle PLATFORMS collaborators video_id platform w :
  listed video_id platform w ->
  let run := post_unposted_summaries PLATFORMS collaborators false w in
  ((video_id, platform) ∉ deliveries run.1)
  /\ listed video_id platform run.2.
Proof.
  intros Hlisted. cbv zeta.
  set (J := fun (cy : Cycle) (w : World) =>
    listed video_id platform w /\ (video_id, platform) ∉ deliveries cy).
  destruct (post_unposted_summaries_ends PLATFORMS collaborators false
              (authenticate collaborators) (check_bot_status collaborators)
              (get_unposted_summaries w).1.*1 J) with (w := w)
    as [[_ Hrun] | [_ (w4 & [Hl Hnot] & Hrun)]].
  - intros cy w0 v p H. exact H.
  - intros cy w0 v H. exact H.
  - intros cy w0 message [H1 H2]. split; [|exact H2].
    apply listed_log_error. exact H1.
  - intros cy w0 v p [H1 H2] _ _ _ Hshould _. split; [exact H1|].
    cbn. intros [Hin|Hin]%elem_of_app; [exact (H2 Hin)|].
    apply list_elem_of_singleton in Hin. injection Hin as <- <-.
    destruct H1 as (data & Hlog & _ & Hin).
    rewrite should_post_eq, Hlog in Hshould.
    apply negb_true_iff in Hshould.
    apply mem_elem_of in Hin. congruence.
  - intros cy w0 v p H _. exact H.
  - intros cy w0 v p [H1 H2] _. split; [|exact H2].
    apply listed_update_posted. exact H1.
  - intros cy w0 [H1 H2]. split; [|exact H2].
    apply listed_unposted. exact H1.
  - intros w0 H. exact H.
  - split; reflexivity.
  - split; [exact Hlisted|]. intros Hin. inversion Hin.
  - apply Forall_forall. intros summary Hin.
    apply list_elem_of_fmap. exists summary. split; [reflexivity|exact Hin].
  - rewrite Hrun. cbn [fst snd]. split; [intros Hin; inversion Hin|].
    apply listed_unposted. exact Hlisted.
  - split; [exact Hnot|]. rewrite Hrun. apply listed_cycle_end. exact Hl.
Qed.

(** A delivery that a cycle counts as successful is in today's log when
    the cycle ends, provided the log is today's when it starts. *)
Lemma posted_is_listed PLATFORMS collaborators force_all video_id platform
    ids w :
  log_of_today w ->
  let run := post_unposted_summaries PLATFORMS collaborators force_all w in
  Py.get platform (posted_by_platform run.1) = Some ids ->
  video_id ∈ ids ->
  listed video_id platform run.2.
Proof.
  intros Hlog. cbv zeta. intros Hget Hid.
  set (J := fun (_ : Cycle) (w : World) => log_of_today w).
  destruct (post_unposted_summaries_ends PLATFORMS collaborators force_all
              (authenticate collaborators) (check_bot_status collaborators)
              (get_unposted_summaries w).1.*1 J) with (w := w)
    as [[_ Hrun] | [_ (w4 & Hl & Hrun)]].
  - intros cy w0 v p H. exact H.
  - intros cy w0 v H. exact H.
  - intros cy w0 message H. apply log_of_today_log_error. exact H.
  - intros cy w0 v p H _ _ _ _ _. exact H.
  - intros cy w0 v p H _. exact H.
  - intros cy w0 v p H _. apply log_of_today_update_posted. exact H.
  - intros cy w0 H. apply log_of_today_unposted. exact H.
  - intros w0 H. exact H.
  - split; reflexivity.
  - exact Hlog.
  - apply Forall_forall. intros summary Hin.
    apply list_elem_of_fmap. exists summary. split; [reflexivity|exact Hin].
  - rewrite Hrun in Hget. discriminate Hget.
  - rewrite Hrun.
    set (cy := (post_unposted_summaries PLATFORMS collaborators force_all w).1)
      in *.
    unfold cycle_end, mbind, io_bind.
    destruct (update_queue_manager_status_files PLATFORMS
                (posted_by_platform cy) (attempts_by_video cy) w4)
      as (Hl5 & Ht5 & _).
    cbv zeta in Hl5, Ht5.
    destruct (_update_queue_manager_status _ _ _ w4) as [[] w5].
    cbn [snd] in Hl5, Ht5.
    assert (Hitem : (platform, ids)
                      ∈ List.filter (fun entry => match entry.2 with
                                                  | [] => false
                                                  | _ :: _ => true
                                                  end) (posted_by_platform cy)).
    { apply list_elem_of_In, filter_In. split.
      - apply list_elem_of_In, get_elem_of. exact Hget.
      - cbn. destruct ids; [inversion Hid|reflexivity]. }
    destruct (List.filter _ (posted_by_platform cy)) as [|item items] eqn:Hitems;
      [inversion Hitem|].
    destruct Hl as (data & Hlog4 & Hdate4).
    rewrite <- Hl5 in Hlog4. rewrite <- Ht5 in Hdate4.
    rewrite (_update_daily_log_posted_eq w5 data (item :: items) Hlog4).
    cbv zeta. rewrite Hdate4, String.eqb_refl.
    destruct (posted_fold_records (item :: items) (log_posted data)
                platform ids Hitem) as (l & Hl' & Hsub).
    eexists. split; [reflexivity|]. split; [exact Hdate4|].
    cbn [log_posted]. rewrite Hl'. apply Hsub. exact Hid.
Qed.

(** C2, as amended.  Without the force flag the decision to deliver an
    item to a destination is read from the daily log and from nothing
    else, whatever the ledger records.  A delivery that an invocation
    counts as successful is listed in today's log when the invocation
    ends; and a pair that today's log lists is skipped by every later
    invocation of the same day, whatever has become of the clock and of
    the other files meanwhile: none of them makes a delivery call for it,
    and each leaves it listed. *)
Theorem dedup_same_day
    (PLATFORMS : list string) (collaborators : Collaborators) (w : World)
    (video_id platform : string) :
  (forall w',
     daily_log_file w' = daily_log_file w ->
     (_should_post_to_platform video_id platform false w').1
     = (_should_post_to_platform video_id platform false w).1)
  /\ (forall force_all ids,
        let run := delivery_invocation PLATFORMS collaborators force_all w in
        Py.get platform (posted_by_platform run.1) = Some ids ->
        video_id ∈ ids ->
        listed video_id platform run.2)
  /\ (listed video_id platform w ->
      forall runs,
        Forall (fun cy => (video_id, platform) ∉ deliveries cy)
          (same_day_invocations runs w).1
        /\ listed video_id platform (same_day_invocations runs w).2).
Proof.
  split; [|split].
  - intros w' Hlog. rewrite !should_post_eq, Hlog. reflexivity.
  - intros force_all ids. cbv zeta. rewrite delivery_invocation_eq.
    apply posted_is_listed. apply init_scheduler_log_of_today.
  - intros Hlisted runs. revert w Hlisted.
    induction runs as [|[[other platforms] answers] runs IH];
      intros w Hlisted.
    + split; [constructor|exact Hlisted].
    + cbn [same_day_invocations]. rewrite delivery_invocation_eq.
      assert (Hlater : listed video_id platform (meanwhile other w))
        by (apply listed_meanwhile; exact Hlisted).
      rewrite (init_scheduler_kept _ (listed_log_of_today _ _ _ Hlater)).
      destruct (listed_cycle platforms answers video_id platform _ Hlater)
        as [Hnot Hafter].
      destruct (post_unposted_summaries platforms answers false
                  (meanwhile other w)) as [cy w1].
      cbn [fst snd] in Hnot, Hafter.
      destruct (IH w1 Hafter) as [Hall Hend].
      destruct (same_day_invocations runs w1) as [cys w2].
      cbn [fst snd] in Hall, Hend |- *.
      split; [constructor; assumption|exact Hend].
Qed.

Lemma dedup_same_day_witness :
  let first := delivery_invocation DEFAULT_PLATFORMS obliging false
                 one_completed in
  let runs := [(afternoon, DEFAULT_PLATFORMS, obliging);
               (later "2025-05-02T18:00:00" "2025-05-02 18:00:00" afternoon,
                DEFAULT_PLATFORMS, facebook_raises)] in
  ("v1", "twitter") ∈ deliveries first.1
  /\ listed "v1" "twitter" first.2
  /\ Forall (fun cy => ("v1", "twitter") ∉ deliveries cy)
       (same_day_invocations runs first.2).1.
Proof.
  cbv zeta.
  assert (Hlisted : listed "v1" "twitter"
            (delivery_invocation DEFAULT_PLATFORMS obliging false
               one_completed).2).
  { apply (proj1 (proj2 (dedup_same_day DEFAULT_PLATFORMS obliging
                           one_completed "v1" "twitter")) false ["v1"]).
    - vm_compute. reflexivity.
    - left. }
  split; [apply list_elem_of_In; vm_compute; left; reflexivity|].
  split; [exact Hlisted|].
  apply (proj2 (proj2 (dedup_same_day DEFAULT_PLATFORMS obliging
                         (delivery_invocation DEFAULT_PLATFORMS obliging false
                            one_completed).2 "v1" "twitter")) Hlisted).
Defined.

(** ** Delivery: the completion of an item *)



















